(** * Fee harvesting for a Uniswap V4 position: clanker-harvest.mjs and
    compound-and-harvest.mjs

    The two scripts are embedded as state-passing programs over an abstract
    chain: a program takes the world it starts in and yields how it ended
    (a value, an exception, or process.exit), the world it left, the
    transactions it handed to writeContract and the console lines that carry
    a figure or a decision.

    Conventions.  BigInt values are [Z], with [/] truncating and raising on a
    zero divisor.  A JavaScript Number that is multiplied, added or divided
    (prices, USD values, the minimum, clanker-harvest's slippage) is an IEEE
    754 double, a primitive [float], with the arithmetic of the format; a
    Number that is only compared, clamped, passed on or converted to BigInt
    (the percentages, compound-and-harvest's slippage) is its exact value in
    [Q], an [option] when it may be NaN.  Addresses are the numeric value of
    their hexadecimal spelling, so that [a.toLowerCase() === b.toLowerCase()] is equality on
    [Z].  View calls always answer ([retry] is then the identity; the two
    [retry] helpers are modelled apart, over what each call does); a
    transaction may be refused (writeContract throws) or mined with either
    status.  Pauses, deadlines and the remaining console output (banners,
    the echo of the configuration, progress lines) are left out. *)

From Stdlib Require Import ZArith QArith Qround Qminmax List Bool Lia String Floats.
From Equations Require Import Equations.
Import ListNotations.
Open Scope Z_scope.

(** ** BigInt arithmetic *)

Module BigInt.

(** [a / b] on BigInt: truncation toward zero, RangeError ([None]) when
    the divisor is zero. *)
Definition div (a b : Z) : option Z :=
  if b =? 0 then None else Some (Z.quot a b).

(** [l0 < l1 ? l0 : l1] *)
Definition min (l0 l1 : Z) : Z := if l0 <? l1 then l0 else l1.

(** [BigInt(x)] for a Number [x]: RangeError unless [x] is an integer. *)
Definition ofNumber (x : option Q) : option Z :=
  match x with
  | None => None
  | Some q => if Qeq_bool (inject_Z (Qfloor q)) q then Some (Qfloor q) else None
  end.

End BigInt.

(** Keeps the equation of a case analysis in scope. *)
Definition inspect {A} (a : A) : {b : A | a = b} := exist _ a eq_refl.

(** ** Numbers in double precision *)

Module Number.

(** The double nearest to [n / d], for [d > 0], ties to even: what
    [parseFloat] makes of the decimal spelling of [n / d], and [Number(n)]
    of a BigInt [n] when [d] is 1.  The quotient is taken to 64 bits or
    more with a sticky bit below them, and rounded once. *)
Definition nearest (n d : Z) : float :=
  let a := Z.abs n in
  let k := Z.max 0 (64 + Z.log2 d - Z.log2 a) in
  let num := (a * 2 ^ k)%Z in
  let m := (2 * (num / d) + (if num mod d =? 0 then 0 else 1))%Z in
  SF2Prim (binary_normalize prec emax (if n <? 0 then (- m)%Z else m) (- k - 1) false).

(** [BigInt(Math.floor(x))]: RangeError ([None]) when [x] is NaN or
    infinite. *)
Definition floorToBigInt (x : float) : option Z :=
  match Prim2SF x with
  | S754_zero _ => Some 0%Z
  | S754_finite s m e =>
      Some (Z.div (cond_Zopp s (Zpos m) * 2 ^ Z.max 0 e) (2 ^ Z.max 0 (- e)))
  | _ => None
  end.

(** [Math.pow(10, d)] for the decimals [d] of a token: the double nearest
    to 10^d, which is 10^d itself up to [d = 22]; beyond that the engine's
    [Math.pow] is taken to round correctly. *)
Definition pow10 (d : Z) : float := nearest (10 ^ d) 1.

End Number.

(** ** Addresses, pool keys and transactions *)

Definition address := Z.

Definition WETH : address := 0x4200000000000000000000000000000000000006.
Definition USDC : address := 0x833589fCD6eDb6E08f4c7C32D4f71b54bdA02913.
Definition PERMIT2 : address := 0x000000000022D473030F116dDEE9F6B43aC78BA3.
Definition POSITION_MANAGER : address := 0x7c5f5a4bbd8fd63184577525326123b519429bdc.
Definition SWAP_ROUTER : address := 0x2626664c2603336E57B271c5C0b26F421741e481.
Definition UNIVERSAL_ROUTER : address := 0x6ff5693b99212da76ad316178a184ab56d299b43.

Definition maxUint256 : Z := 2 ^ 256 - 1.
Definition maxUint160 : Z := 2 ^ 160 - 1.
Definition maxUint48 : Z := 2 ^ 48 - 1.
Definition Q96 : Z := 2 ^ 96.

Record PoolKey : Type := mkPoolKey {
  currency0 : address;
  currency1 : address;
  fee : Z;
  tickSpacing : Z;
  hooks : address
}.

(** The argument tuple of SwapRouter02.exactInputSingle. *)
Record ExactInputSingleParams : Type := mkExactInputSingle {
  tokenIn : address;
  tokenOut : address;
  poolFee : Z;
  recipient : address;
  amountIn : Z;
  amountOutMinimum : Z;
  sqrtPriceLimitX96 : Z
}.

(** The SWAP_EXACT_IN_SINGLE parameters handed to the Universal Router. *)
Record V4SwapParams : Type := mkV4Swap {
  v4PoolKey : PoolKey;
  zeroForOne : bool;
  v4AmountIn : Z;
  v4AmountOutMinimum : Z;
  v4SqrtPriceLimitX96 : Z
}.

(** The two action lists the scripts hand to PositionManager.modifyLiquidities:
    [0x0111] with its decrease and close parameters, [0x000d] with its
    increase and settle parameters. *)
Inductive Actions : Type :=
| DecreaseClose (tokenId liquidity amount0Min amount1Min : Z)
                (c0 c1 recipient : address)
| IncreaseSettle (tokenId liquidity amount0Max amount1Max : Z)
                 (c0 c1 : address).

(** Every [writeContract] call of the two scripts.  Deadlines (wall clock)
    are left out. *)
Inductive Tx : Type :=
| Claim (feeContract feeOwner token : address)
| Approve (token spender : address) (amount : Z)
| Permit2Approve (token spender : address) (amount expiration : Z)
| ModifyLiquidities (a : Actions)
| ExactInputSingle (router : address) (p : ExactInputSingleParams)
| Execute (p : V4SwapParams)
| Transfer (token to : address) (amount : Z).

(** What became of a [writeContract] followed by
    [waitForTransactionReceipt]: the call threw, or a receipt came back
    with status success or reverted. *)
Inductive Receipt : Type :=
| Rejected
| Mined (success : bool).

(** The chain as the scripts see it: the views they read and the effect of
    a transaction sent from an account. *)
Class Chain : Type := {
  World : Type;
  availableFees : World -> address -> address -> address -> Z;
  balanceOf : World -> address -> address -> Z;
  allowance : World -> address -> address -> address -> Z;
  permit2Allowance : World -> address -> address -> address -> Z;
  ownerOf : World -> Z -> address;
  getPoolAndPositionInfo : World -> Z -> PoolKey * Z;
  getPositionLiquidity : World -> Z -> Z;
  getSlot0 : World -> PoolKey -> Z * Z;
  send : World -> address -> Tx -> Receipt * World
}.

(** ** The price feed *)

Record Pair : Type := mkPair {
  chainId : string;
  quoteSymbol : option string;
  priceUsd : float     (* parseFloat(p.priceUsd) *)
}.

(** The answer to one [fetch] of the price API: the request or its JSON
    decoding threw, or a body arrived whose [pairs] member may be missing. *)
Inductive Feed : Type :=
| FetchError
| Body (pairs : option (list Pair)).

(** ** Console lines that carry a figure or a decision *)

Inductive Line : Type :=
| LogNothingToProcess
| LogBelowThreshold
| LogSplitCompound (a b : Z)
| LogSplitHarvest (a b : Z)
| LogWouldCompound
| LogLiquidityZero
| LogLiquidityToAdd (l : Z)
| LogCompounded
| LogCompoundFailed
| LogHarvestAllFees
| LogNothingToCompound
| LogNothingToHarvest
| LogWouldSwap (est : float)
| LogSwapFailed (token : address)
| LogTokenSwapNotImplemented
| LogNoWethReceived
| LogWouldTransfer
| LogNoUsdcToTransfer
| LogDryRunComplete
| LogFeesValue (usd : float)
| LogSummary (usd : float) (compound0 compound1 usdcHarvested : Z).

(** ** The split *)

(** [total * BigInt(pct) / 100n] and the remainder. *)
Definition split (total pct : Z) : Z * Z :=
  let compound := Z.quot (total * pct) 100 in
  (compound, total - compound).

(** [parseFloat(formatEther(x))]: formatEther spells [x / 10^18] out in
    full, parseFloat rounds it to a double. *)
Definition etherToNumber (x : Z) : float := Number.nearest x (10 ^ 18).

(** [parseFloat(formatUnits(x, 6))] *)
Definition usdcToNumber (x : Z) : float := Number.nearest x (10 ^ 6).

(** ** Programs over the chain *)

Inductive Outcome (A : Type) : Type :=
| Ret (a : A)
| Throw
| Exit (code : Z).
Arguments Ret {A} a.
Arguments Throw {A}.
Arguments Exit {A} code.

Section Programs.
Context {chain : Chain}.

(** One execution: how it ended, the world it left, the transactions it
    sent and the lines it printed, both in order. *)
Record Run (A : Type) : Type := mkRun {
  outcome : Outcome A;
  world : World;
  txs : list Tx;
  out : list Line
}.
Arguments mkRun {A}.
Arguments outcome {A}.
Arguments world {A}.
Arguments txs {A}.
Arguments out {A}.

Definition M (A : Type) : Type := World -> Run A.

Definition ret {A} (a : A) : M A := fun w => mkRun (Ret a) w [] [].

Definition bind {A B} (m : M A) (k : A -> M B) : M B := fun w =>
  let r := m w in
  match outcome r with
  | Ret a =>
      let r' := k a (world r) in
      mkRun (outcome r') (world r') (txs r ++ txs r') (out r ++ out r')
  | Throw => mkRun Throw (world r) (txs r) (out r)
  | Exit c => mkRun (Exit c) (world r) (txs r) (out r)
  end.

Definition throw {A} : M A := fun w => mkRun Throw w [] [].

(** [process.exit(code)] *)
Definition exit {A} (code : Z) : M A := fun w => mkRun (Exit code) w [] [].

(** [try { m } catch { h }] *)
Definition tryCatch {A} (m : M A) (h : M A) : M A := fun w =>
  let r := m w in
  match outcome r with
  | Throw =>
      let r' := h (world r) in
      mkRun (outcome r') (world r') (txs r ++ txs r') (out r ++ out r')
  | _ => r
  end.

(** A view call. *)
Definition read {A} (f : World -> A) : M A := fun w => mkRun (Ret (f w)) w [] [].

Definition print (l : Line) : M unit := fun w => mkRun (Ret tt) w [] [l].

(** [writeContract] then [waitForTransactionReceipt]: the receipt's
    status, or the exception. *)
Definition sendTx (account : address) (t : Tx) : M bool := fun w =>
  match send w account t with
  | (Rejected, w') => mkRun Throw w' [t] []
  | (Mined ok, w') => mkRun (Ret ok) w' [t] []
  end.

(** A BigInt expression that may raise. *)
Definition orThrow {A} (o : option A) : M A :=
  match o with
  | Some a => ret a
  | None => throw
  end.

Definition when (b : bool) (m : M unit) : M unit := if b then m else ret tt.

End Programs.

Arguments mkRun {chain A}.
Arguments outcome {chain A}.
Arguments world {chain A}.
Arguments txs {chain A}.
Arguments out {chain A}.

Declare Scope prog_scope.
Delimit Scope prog_scope with prog.
Notation "x <- m ;; k" := (bind m (fun x => k))
  (at level 61, m at next level, right associativity) : prog_scope.
Notation "' p <- m ;; k" := (bind m (fun x => match x with p => k end))
  (at level 61, p pattern, m at next level, right associativity) : prog_scope.
Notation "m ;;; k" := (bind m (fun _ => k))
  (at level 61, right associativity) : prog_scope.
Open Scope prog_scope.

Definition fitsUint (bits x : Z) : bool := (0 <=? x) && (x <? 2 ^ bits).

(** ** Retrying a call *)

(** One call of the function handed to [retry]: it gives a value or throws. *)
Inductive Attempt (E A : Type) : Type :=
| Returned (a : A)
| Threw (e : E).

Arguments Returned {E A} a.
Arguments Threw {E A} e.

(** How a call of [retry] ends: with a value ([None] is undefined, when the
    loop ran out) or by throwing again what the function threw. *)
Inductive Retried (E A : Type) : Type :=
| Gave (a : option A)
| Rethrew (e : E).

Arguments Gave {E A} a.
Arguments Rethrew {E A} e.

(** ** clanker-harvest.mjs *)

Module ClankerHarvest.

(** [Array.prototype.indexOf] on strings; [None] is -1. *)
Fixpoint indexOf (l : list string) (x : string) : option nat :=
  match l with
  | [] => None
  | a :: l' => if String.eqb a x then Some 0%nat else option_map S (indexOf l' x)
  end.

(** [getArg(name, def)] over the command line [args]; [None] is null. *)
Definition getArg (args : list string) (name : string) (def : option string)
  : option string :=
  match indexOf args ("--" ++ name)%string with
  | Some i =>
      match nth_error args (S i) with
      | Some v => if String.eqb v "" then def else Some v
      | None => def
      end
  | None => def
  end.

(** [hasFlag(name)] *)
Definition hasFlag (args : list string) (name : string) : bool :=
  existsb (String.eqb ("--" ++ name)%string) args.

Record Config : Type := mkConfig {
  token : address;
  tokenId : option Z;
  harvestAddress : option address;
  compoundPct : option Z;       (* what parseInt gave; [None] is NaN *)
  minUsd : float;
  slippage : float;
  feeContract : address;
  dryRun : bool;
  skipClaim : bool;
  skipLp : bool
}.

Record Result : Type := mkResult {
  totalUsd : float;
  compounded : option Z;
  harvested : float;
  belowThreshold : bool
}.

Definition harvestPct (cfg : Config) : option Z :=
  option_map (fun p => 100 - p) (compoundPct cfg).

Definition positive (n : option Z) : bool :=
  match n with
  | Some p => p >? 0
  | None => false
  end.

Definition isSome {A} (o : option A) : bool :=
  match o with
  | Some _ => true
  | None => false
  end.

Definition wantCompound (cfg : Config) : bool :=
  positive (compoundPct cfg) && isSome (tokenId cfg).

Definition wantHarvest (cfg : Config) : bool :=
  positive (harvestPct cfg) && isSome (harvestAddress cfg).

(** [retry(fn, n)]: [fn i] is what the call of [fn] in round [i] does;
    the result comes with the sleeps taken, in milliseconds. *)
Fixpoint retryFrom {E A} (fn : nat -> Attempt E A) (n : nat) (rounds i : nat)
  : Retried E A * list Z :=
  match rounds with
  | O => (Gave None, [])
  | S rounds' =>
      match fn i with
      | Returned a => (Gave (Some a), [])
      | Threw e =>
          if (i =? n - 1)%nat then (Rethrew e, [])
          else let '(r, naps) := retryFrom fn n rounds' (S i) in (r, 2000 :: naps)
      end
  end.

Definition retry {E A} (fn : nat -> Attempt E A) (n : nat) : Retried E A * list Z :=
  retryFrom fn n n 0.

Definition isBaseUsdcPair (p : Pair) : bool :=
  String.eqb (chainId p) "base" &&
  match quoteSymbol p with
  | Some s => String.eqb s "USDC"
  | None => false
  end.

Definition getEthPrice (r : Feed) : float :=
  match r with
  | Body (Some ps) =>
      match find isBaseUsdcPair ps with
      | Some p => priceUsd p
      | None => 2700
      end
  | _ => 2700
  end.

Definition getTokenPrice (r : Feed) : float :=
  match r with
  | Body (Some (p :: _)) => priceUsd p
  | _ => 0
  end.

Definition tickBits : list (Z * Z) :=
  [ (0x2, 0xfff97272373d413259a46990580e213a); (0x4, 0xfff2e50f5f656932ef12357cf3c7fdcc);
    (0x8, 0xffe5caca7e10e4e61c3624eaa0941cd0); (0x10, 0xffcb9843d60f6159c9db58835c926644);
    (0x20, 0xff973b41fa98c081472e6896dfb254c0); (0x40, 0xff2ea16466c96a3843ec78b326b52861);
    (0x80, 0xfe5dee046a99a2a811c461f1969c3053); (0x100, 0xfcbe86c7900a88aedcffc83b479aa3a4);
    (0x200, 0xf987a7253ac413176f2b074cf7815e54); (0x400, 0xf3392b0822b70005940c7a398e4b70f3);
    (0x800, 0xe7159475a2c29b7443b29c7fa6e889d9); (0x1000, 0xd097f3bdfd2022b8845ad8f792aa5825);
    (0x2000, 0xa9f746462d870fdf8a65dc1f90e061e5); (0x4000, 0x70d869a156d2a1b890bb3df62baf32f7);
    (0x8000, 0x31be135f97d08fd981231505542fcfa6); (0x10000, 0x9aa508b5b7a84e1c677de54f3e99bc9);
    (0x20000, 0x5d6af8dedb81196699c329225ee604); (0x40000, 0x2216e584f5fa1ea926041bedfe98);
    (0x80000, 0x48a170391f7dc42444e8fa2) ].

Definition tickToSqrtPriceX96 (tick : Z) : option Z :=
  let absTick := Z.abs tick in
  let ratio0 :=
    if negb (Z.land absTick 0x1 =? 0)
    then 0xfffcb933bd6fad37aa2d162d1a594001
    else Z.shiftl 1 128 in
  let ratio1 :=
    fold_left
      (fun ratio '(bit, val) =>
         if negb (Z.land absTick bit =? 0)
         then Z.shiftr (ratio * val) 128
         else ratio)
      tickBits ratio0 in
  match (if tick >? 0 then BigInt.div (Z.shiftl 1 256 - 1) ratio1 else Some ratio1) with
  | Some ratio =>
      Some (Z.shiftr ratio 32 + (if Z.rem ratio (Z.shiftl 1 32) =? 0 then 0 else 1))
  | None => None
  end.

(** The tick range as main unpacks it from the packed position info. *)
Definition tickRange (posInfo : Z) : Z * Z :=
  let rawLower := Z.shiftr posInfo 232 in
  let rawUpper := Z.land (Z.shiftr posInfo 208) 0xFFFFFF in
  let tL := if rawLower >? 0x7FFFFF then rawLower - 0x1000000 else rawLower in
  let tU := if rawUpper >? 0x7FFFFF then rawUpper - 0x1000000 else rawUpper in
  (Z.min tL tU, Z.max tL tU).

(** The liquidity computation written out in main's compound step. *)
Definition liquidityForAmounts
    (sqrtPriceX96 sqrtLower sqrtUpper amount0 amount1 : Z) : option Z :=
  if sqrtPriceX96 <=? sqrtLower then
    BigInt.div (amount0 * sqrtLower * sqrtUpper) ((sqrtUpper - sqrtLower) * Q96)
  else if sqrtPriceX96 >=? sqrtUpper then
    BigInt.div (amount1 * Q96) (sqrtUpper - sqrtLower)
  else
    match BigInt.div (amount0 * sqrtPriceX96 * sqrtUpper)
                     ((sqrtUpper - sqrtPriceX96) * Q96) with
    | Some liq0 =>
        match BigInt.div (amount1 * Q96) (sqrtPriceX96 - sqrtLower) with
        | Some liq1 => Some (BigInt.min liq0 liq1)
        | None => None
        end
    | None => None
    end.

(** [BigInt(Math.floor((100 + cfg.slippage * 2) * 100))] *)
Definition slippageMul (cfg : Config) : option Z :=
  Number.floorToBigInt ((100 + slippage cfg * 2) * 100)%float.

Section Pipeline.
Context {chain : Chain}.
Variable cfg : Config.
Variable account : address.
Variable feed : address -> Feed.

Definition ethPrice : float := getEthPrice (feed WETH).
Definition tokenPrice : float := getTokenPrice (feed (token cfg)).

(** [parseFloat(formatEther(weth)) * ethPrice
     + parseFloat(formatEther(tok)) * tokenPrice] *)
Definition usdValue (weth tok : Z) : float :=
  (etherToNumber weth * ethPrice + etherToNumber tok * tokenPrice)%float.

(** STEP 1: claim Clanker protocol fees; yields (claimedWeth, claimedToken). *)
Definition claimStep : M (Z * Z) :=
  if skipClaim cfg then ret (0, 0) else
  availWeth <- read (fun w => availableFees w (feeContract cfg) account WETH) ;;
  availToken <- read (fun w => availableFees w (feeContract cfg) account (token cfg)) ;;
  if (availWeth =? 0) && (availToken =? 0) then ret (0, 0)
  else if dryRun cfg then ret (availWeth, availToken)
  else
    claimedToken <-
      (if availToken >? 0
       then sendTx account (Claim (feeContract cfg) account (token cfg)) ;;; ret availToken
       else ret 0) ;;
    claimedWeth <-
      (if availWeth >? 0
       then sendTx account (Claim (feeContract cfg) account WETH) ;;; ret availWeth
       else ret 0) ;;
    ret (claimedWeth, claimedToken).

Definition approvePermit2IfNeeded (addr : address) : M unit :=
  allow <- read (fun w => allowance w addr account PERMIT2) ;;
  if allow <? 0xffffffffffffffffffffffff
  then sendTx account (Approve addr PERMIT2 maxUint256) ;;; ret tt
  else ret tt.

(** STEP 2: collect LP fees; yields (lpWeth, lpToken, poolKey). *)
Definition collectStep : M (Z * Z * option PoolKey) :=
  match (if skipLp cfg then None else tokenId cfg) with
  | None => ret (0, 0, None)
  | Some tid =>
      '(poolKey, _) <- read (fun w => getPoolAndPositionInfo w tid) ;;
      wethBefore <- read (fun w => balanceOf w WETH account) ;;
      tokenBefore <- read (fun w => balanceOf w (token cfg) account) ;;
      if dryRun cfg then ret (0, 0, Some poolKey)
      else
        approvePermit2IfNeeded (currency0 poolKey) ;;;
        approvePermit2IfNeeded (currency1 poolKey) ;;;
        sendTx account
          (ModifyLiquidities
             (DecreaseClose tid 0 0 0 (currency0 poolKey) (currency1 poolKey) account)) ;;;
        wethAfter <- read (fun w => balanceOf w WETH account) ;;
        tokenAfter <- read (fun w => balanceOf w (token cfg) account) ;;
        ret (wethAfter - wethBefore, tokenAfter - tokenBefore, Some poolKey)
  end.

(** The body of the try block of STEP 3. *)
Definition compoundBody (poolKey0 : option PoolKey) (compoundWeth compoundToken : Z)
  : M unit :=
  tid <- orThrow (tokenId cfg) ;;
  poolKey <-
    match poolKey0 with
    | Some pk => ret pk
    | None => read (fun w => fst (getPoolAndPositionInfo w tid))
    end ;;
  '(sqrtPriceX96, _) <- read (fun w => getSlot0 w poolKey) ;;
  '(_, posInfo) <- read (fun w => getPoolAndPositionInfo w tid) ;;
  let '(tickLower, tickUpper) := tickRange posInfo in
  sqrtLower <- orThrow (tickToSqrtPriceX96 tickLower) ;;
  sqrtUpper <- orThrow (tickToSqrtPriceX96 tickUpper) ;;
  let isWethCurrency0 := currency0 poolKey =? WETH in
  let amount0 := if isWethCurrency0 then compoundWeth else compoundToken in
  let amount1 := if isWethCurrency0 then compoundToken else compoundWeth in
  liquidity <- orThrow (liquidityForAmounts sqrtPriceX96 sqrtLower sqrtUpper amount0 amount1) ;;
  if liquidity <=? 0 then print LogLiquidityZero
  else
    slippageMul <- orThrow (slippageMul cfg) ;;
    let amount0Max := Z.quot (amount0 * slippageMul) 10000 in
    let amount1Max := Z.quot (amount1 * slippageMul) 10000 in
    if fitsUint 256 tid && fitsUint 256 liquidity &&
       fitsUint 128 amount0Max && fitsUint 128 amount1Max
    then
      sendTx account
        (ModifyLiquidities
           (IncreaseSettle tid liquidity amount0Max amount1Max
              (currency0 poolKey) (currency1 poolKey))) ;;;
      print LogCompounded
    else throw.

(** STEP 3: compound into the LP position. *)
Definition compoundStep (poolKey : option PoolKey) (compoundWeth compoundToken : Z)
  : M unit :=
  if wantCompound cfg && ((compoundWeth >? 0) || (compoundToken >? 0)) then
    if dryRun cfg then print LogWouldCompound
    else tryCatch (compoundBody poolKey compoundWeth compoundToken)
                  (print LogCompoundFailed)
  else ret tt.

(** The swaps of STEP 4 in a live run. *)
Definition swapPhase (harvestWeth harvestToken : Z) : M unit :=
  (if harvestWeth >? 0 then
     tryCatch
       (allow <- read (fun w => allowance w WETH account SWAP_ROUTER) ;;
        (if allow <? harvestWeth
         then sendTx account (Approve WETH SWAP_ROUTER maxUint256) ;;; ret tt
         else ret tt) ;;;
        sendTx account
          (ExactInputSingle SWAP_ROUTER
             (mkExactInputSingle WETH USDC 500 account harvestWeth 0 0)) ;;;
        ret tt)
       (print (LogSwapFailed WETH))
   else ret tt) ;;;
  when (harvestToken >? 0) (print LogTokenSwapNotImplemented).

(** STEP 5: transfer the USDC gained to the vault. *)
Definition transferStep (harvestWeth harvestedUsdc : Z) : M unit :=
  if harvestedUsdc >? 0 then
    if dryRun cfg then print LogWouldTransfer
    else
      vault <- orThrow (harvestAddress cfg) ;;
      sendTx account (Transfer USDC vault harvestedUsdc) ;;; ret tt
  else when (negb (dryRun cfg) && (harvestWeth >? 0)) (print LogNoUsdcToTransfer).

(** STEP 4 and STEP 5; yields harvestedUsdc. *)
Definition harvestStep (harvestWeth harvestToken : Z) : M Z :=
  if wantHarvest cfg && ((harvestWeth >? 0) || (harvestToken >? 0)) then
    usdcBefore <- read (fun w => balanceOf w USDC account) ;;
    harvestedUsdc <-
      (if dryRun cfg then
         print (LogWouldSwap (usdValue harvestWeth harvestToken)) ;;; ret 0
       else
         swapPhase harvestWeth harvestToken ;;;
         usdcAfter <- read (fun w => balanceOf w USDC account) ;;
         ret (usdcAfter - usdcBefore)) ;;
    transferStep harvestWeth harvestedUsdc ;;;
    ret harvestedUsdc
  else ret 0.

(** Everything after the totals are known. *)
Definition processTotals (poolKey : option PoolKey) (totalWeth totalToken : Z)
  : M Result :=
  let total := usdValue totalWeth totalToken in
  if (totalWeth =? 0) && (totalToken =? 0) then
    print LogNothingToProcess ;;; ret (mkResult 0 (Some 0) 0 false)
  else if (0 <? minUsd cfg)%float && (total <? minUsd cfg)%float then
    print LogBelowThreshold ;;; ret (mkResult total (Some 0) 0 true)
  else
    pct <- orThrow (compoundPct cfg) ;;
    let '(compoundWeth, harvestWeth) := split totalWeth pct in
    let '(compoundToken, harvestToken) := split totalToken pct in
    when (wantCompound cfg) (print (LogSplitCompound compoundWeth compoundToken)) ;;;
    when (wantHarvest cfg) (print (LogSplitHarvest harvestWeth harvestToken)) ;;;
    compoundStep poolKey compoundWeth compoundToken ;;;
    harvestedUsdc <- harvestStep harvestWeth harvestToken ;;
    ret (mkResult total (compoundPct cfg) (usdcToNumber harvestedUsdc) false).

(** STEP 1 and STEP 2, then the totals; yields (poolKey, totalWeth, totalToken). *)
Definition feesPhase : M (option PoolKey * Z * Z) :=
  '(claimedWeth, claimedToken) <- claimStep ;;
  '(lpWeth, lpToken, poolKey) <- collectStep ;;
  ret (poolKey, claimedWeth + lpWeth, claimedToken + lpToken).

Definition main : M Result :=
  '(poolKey, totalWeth, totalToken) <- feesPhase ;;
  processTotals poolKey totalWeth totalToken.

End Pipeline.

End ClankerHarvest.

(** ** compound-and-harvest.mjs *)

Module CompoundAndHarvest.

Record Config : Type := mkConfig {
  tokenId : Z;
  harvestAddress : address;
  compoundPctArg : option Q;    (* argv.compoundPct; [None] is NaN *)
  dryRun : bool;
  slippage : Q
}.

Record AddResult : Type := mkAddResult {
  success : bool;
  reason : option string;
  newLiquidity : option Z
}.

Record SwapResult : Type := mkSwapResult {
  amountOut : option Z;
  hash : option Tx;
  usdcHash : option Tx
}.

(** [Math.max(0, Math.min(100, argv.compoundPct))] *)
Definition clampPct (x : option Q) : option Q :=
  option_map (fun q => Qmax 0 (Qmin 100 q)) x.

Definition compoundPct (cfg : Config) : option Q := clampPct (compoundPctArg cfg).

Definition toInt24 (v : Z) : Z := if v >=? 0x800000 then v - 0x1000000 else v.

Definition tickRange (posInfo : Z) : Z * Z :=
  let rawA := toInt24 (Z.land (Z.shiftr posInfo 32) 0xFFFFFF) in
  let rawB := toInt24 (Z.land (Z.shiftr posInfo 8) 0xFFFFFF) in
  (Z.min rawA rawB, Z.max rawA rawB).

Definition liq0 (a0 sqrtA sqrtB : Z) : option Z :=
  BigInt.div (a0 * Z.quot (sqrtA * sqrtB) Q96) (sqrtB - sqrtA).

Definition liq1 (a1 sqrtA sqrtB : Z) : option Z :=
  BigInt.div (a1 * Q96) (sqrtB - sqrtA).

Definition getLiquidityForAmounts
    (sqrtPriceX96 sqrtPriceA0 sqrtPriceB0 amount0 amount1 : Z) : option Z :=
  let '(sqrtPriceA, sqrtPriceB) :=
    if sqrtPriceA0 >? sqrtPriceB0 then (sqrtPriceB0, sqrtPriceA0)
    else (sqrtPriceA0, sqrtPriceB0) in
  if sqrtPriceX96 <=? sqrtPriceA then liq0 amount0 sqrtPriceA sqrtPriceB
  else if sqrtPriceX96 <? sqrtPriceB then
    match liq0 amount0 sqrtPriceX96 sqrtPriceB with
    | Some l0 =>
        match liq1 amount1 sqrtPriceA sqrtPriceX96 with
        | Some l1 => Some (BigInt.min l0 l1)
        | None => None
        end
    | None => None
    end
  else liq1 amount1 sqrtPriceA sqrtPriceB.

(** [String.prototype.includes] *)
Definition includes (s pat : string) : bool :=
  match String.index 0 pat s with
  | Some _ => true
  | None => false
  end.

(** The errors [retry] tries again after, told by their message, which may
    be missing. *)
Definition rateLimited (message : option string) : bool :=
  match message with
  | Some m => includes m "429" || includes m "rate limit"
  | None => false
  end.

(** [retry(fn, maxRetries, baseDelayMs)]: [fn i] is what the call of [fn]
    in round [i] does, an error being its message; the result comes with the
    sleeps taken, in milliseconds, each announced on the console. *)
Fixpoint retryFrom {A} (fn : nat -> Attempt (option string) A) (maxRetries : nat)
    (rounds i : nat) (delay : Z) : Retried (option string) A * list Z :=
  match rounds with
  | O => (Gave None, [])
  | S rounds' =>
      match fn i with
      | Returned a => (Gave (Some a), [])
      | Threw err =>
          if (i =? maxRetries - 1)%nat then (Rethrew err, [])
          else if negb (rateLimited err) then (Rethrew err, [])
          else
            let '(r, naps) := retryFrom fn maxRetries rounds' (S i) (delay * 2) in
            (r, delay :: naps)
      end
  end.

Definition retry {A} (fn : nat -> Attempt (option string) A) (maxRetries : nat)
    (baseDelayMs : Z) : Retried (option string) A * list Z :=
  retryFrom fn maxRetries maxRetries 0 baseDelayMs.

Definition isBaseUsdcPair (p : Pair) : bool :=
  String.eqb (chainId p) "base" &&
  match quoteSymbol p with
  | Some s => String.eqb s "USDC"
  | None => false
  end.

Definition getEthPrice (r : Feed) : float :=
  match r with
  | Body (Some ps) =>
      match find isBaseUsdcPair ps with
      | Some p => priceUsd p
      | None => 3200
      end
  | _ => 3200
  end.

Definition getTokenPrice (r : Feed) : float :=
  match r with
  | Body (Some ps) =>
      match find (fun p => String.eqb (chainId p) "base") ps with
      | Some p => priceUsd p
      | None => 0
      end
  | _ => 0
  end.

(** [tickToSqrtPriceX96(tick)], that is
    [BigInt(Math.floor(Math.sqrt(Math.pow(1.0001, tick)) * Number(Q96)))],
    given the [Math.pow] of the engine, which ECMA-262 leaves
    implementation-approximated; the square root, the product and the
    conversions are those of the format. *)
Definition tickToSqrtPriceX96With (pow : float -> Z -> float) (tick : Z) : option Z :=
  Number.floorToBigInt
    (PrimFloat.sqrt (pow (Number.nearest 10001 10000) tick) * Number.nearest Q96 1)%float.

(** Number of swaps still ahead of a token on its way to USDC. *)
Definition hops (tokenAddress : address) : nat :=
  if tokenAddress =? WETH then 0%nat else 1%nat.

Section Pipeline.
Context {chain : Chain}.
Variable cfg : Config.
Variable account : address.
Variable feed : address -> Feed.

(** The script's [tickToSqrtPriceX96], [tickToSqrtPriceX96With] of the
    engine's [Math.pow]; [None] when the conversion to BigInt raises.
    Nothing is assumed of it. *)
Variable tickToSqrtPriceX96 : Z -> option Z.

(** [decimals()] of a token, 18 in the script when the call fails. *)
Variable decimals : address -> Z.

Definition collectFees (poolKey : PoolKey) : M bool :=
  sendTx account
    (ModifyLiquidities
       (DecreaseClose (tokenId cfg) 0 0 0
          (currency0 poolKey) (currency1 poolKey) account)).

Definition approvePermit2IfNeeded (tok : address) (amount : Z) : M unit :=
  if amount <=? 0 then ret tt
  else
    allow <- read (fun w => allowance w tok account PERMIT2) ;;
    if allow <? amount
    then sendTx account (Approve tok PERMIT2 maxUint256) ;;; ret tt
    else ret tt.

Definition addLiquidity (poolKey : PoolKey)
    (amount0 amount1 sqrtPriceX96 tickLower tickUpper : Z) : M AddResult :=
  sqrtPriceLower <- orThrow (tickToSqrtPriceX96 tickLower) ;;
  sqrtPriceUpper <- orThrow (tickToSqrtPriceX96 tickUpper) ;;
  liquidity <- orThrow (getLiquidityForAmounts sqrtPriceX96 sqrtPriceLower
                          sqrtPriceUpper amount0 amount1) ;;
  if liquidity <=? 0 then ret (mkAddResult false (Some "zero-liquidity"%string) None)
  else
    print (LogLiquidityToAdd liquidity) ;;;
    approvePermit2IfNeeded (currency0 poolKey) amount0 ;;;
    approvePermit2IfNeeded (currency1 poolKey) amount1 ;;;
    let amount0Max := if amount0 >? 0 then Z.quot (amount0 * 150) 100 else 0 in
    let amount1Max := if amount1 >? 0 then Z.quot (amount1 * 150) 100 else 0 in
    if fitsUint 256 (tokenId cfg) && fitsUint 256 liquidity &&
       fitsUint 128 amount0Max && fitsUint 128 amount1Max
    then
      ok <- sendTx account
              (ModifyLiquidities
                 (IncreaseSettle (tokenId cfg) liquidity amount0Max amount1Max
                    (currency0 poolKey) (currency1 poolKey))) ;;
      ret (mkAddResult ok None (Some liquidity))
    else throw.

Definition swapViaV4ToWeth (tokenAddress : address) (amount : Z) (poolKey : PoolKey)
  : M Tx :=
  erc20Allowance <- read (fun w => allowance w tokenAddress account PERMIT2) ;;
  (if erc20Allowance <? amount
   then sendTx account (Approve tokenAddress PERMIT2 maxUint256) ;;; ret tt
   else ret tt) ;;;
  permit2Amount <- read (fun w => permit2Allowance w account tokenAddress UNIVERSAL_ROUTER) ;;
  (if permit2Amount <? amount
   then sendTx account
          (Permit2Approve tokenAddress UNIVERSAL_ROUTER maxUint160 maxUint48) ;;; ret tt
   else ret tt) ;;;
  let zeroForOne := tokenAddress =? currency0 poolKey in
  if fitsUint 128 amount then
    let t := Execute (mkV4Swap poolKey zeroForOne amount 0 0) in
    ok <- sendTx account t ;;
    if ok then ret t else throw
  else throw.

(** WETH to USDC through the 0.05% V3 pool. *)
Definition swapWethDirect (tokenAddress : address) (amount : Z) : M SwapResult :=
  allow <- read (fun w => allowance w tokenAddress account SWAP_ROUTER) ;;
  (if allow <? amount
   then sendTx account (Approve tokenAddress SWAP_ROUTER maxUint256) ;;; ret tt
   else ret tt) ;;;
  let t := ExactInputSingle SWAP_ROUTER
             (mkExactInputSingle WETH USDC 500 account amount 0 0) in
  sendTx account t ;;;
  ret (mkSwapResult None (Some t) None).

Equations? swapToUsdc (tokenAddress : address) (amount : Z) (slippagePct : Q)
    (v4PoolKey : option PoolKey) : M SwapResult by wf (hops tokenAddress) lt :=
  swapToUsdc tokenAddress amount slippagePct v4PoolKey with (amount <=? 0) := {
    | true := ret (mkSwapResult (Some 0) None None)
    | false with (tokenAddress =? USDC) := {
        | true := ret (mkSwapResult (Some amount) None None)
        | false with inspect (tokenAddress =? WETH) := {
            | exist _ true _ := swapWethDirect tokenAddress amount
            | exist _ false isWeth :=
                match v4PoolKey with
                | None => throw
                | Some poolKey =>
                    wethBefore <- read (fun w => balanceOf w WETH account) ;;
                    v4Hash <- swapViaV4ToWeth tokenAddress amount poolKey ;;
                    wethAfter <- read (fun w => balanceOf w WETH account) ;;
                    let wethGained := wethAfter - wethBefore in
                    if wethGained >? 0 then
                      usdcResult <- swapToUsdc WETH wethGained slippagePct None ;;
                      ret (mkSwapResult None (Some v4Hash) (hash usdcResult))
                    else
                      print LogNoWethReceived ;;;
                      ret (mkSwapResult None (Some v4Hash) None)
                end } } }.
Proof.
  unfold hops. rewrite isWeth. apply Nat.lt_0_1.
Qed.

(** [fees0Usd + fees1Usd], each
    [Number(fees) / Math.pow(10, decimals) * price]. *)
Definition feesUsd (poolKey : PoolKey) (fees0 fees1 : Z) : float :=
  let price0 :=
    if currency0 poolKey =? WETH then getEthPrice (feed WETH)
    else getTokenPrice (feed (currency0 poolKey)) in
  let price1 := getTokenPrice (feed (currency1 poolKey)) in
  (Number.nearest fees0 1 / Number.pow10 (decimals (currency0 poolKey)) * price0 +
   Number.nearest fees1 1 / Number.pow10 (decimals (currency1 poolKey)) * price1)%float.

(** Step 2/4: compound the compound portion. *)
Definition compoundPhase (poolKey : PoolKey)
    (compound0 compound1 sqrtPriceX96 tickLower tickUpper : Z) : M unit :=
  if (compound0 >? 0) || (compound1 >? 0) then
    addResult <- addLiquidity poolKey compound0 compound1 sqrtPriceX96
                   tickLower tickUpper ;;
    if success addResult then print LogCompounded
    else print LogHarvestAllFees
  else print LogNothingToCompound.

(** The two swaps of step 3/4. *)
Definition swapPhase (poolKey : PoolKey) (harvest0 harvest1 : Z) : M unit :=
  (if harvest0 >? 0 then
     tryCatch
       (swapToUsdc (currency0 poolKey) harvest0 (slippage cfg) (Some poolKey) ;;; ret tt)
       (print (LogSwapFailed (currency0 poolKey)))
   else ret tt) ;;;
  (if harvest1 >? 0 then
     tryCatch
       (swapToUsdc (currency1 poolKey) harvest1 (slippage cfg) (Some poolKey) ;;; ret tt)
       (print (LogSwapFailed (currency1 poolKey)))
   else ret tt).

(** Steps 3/4 and 4/4: swap the harvest portion and send the USDC gained. *)
Definition harvestPhase (poolKey : PoolKey) (usd : float)
    (compound0 compound1 harvest0 harvest1 : Z) : M unit :=
  if (harvest0 <=? 0) && (harvest1 <=? 0) then
    print LogNothingToHarvest ;;; exit 0
  else
    usdcBefore <- read (fun w => balanceOf w USDC account) ;;
    swapPhase poolKey harvest0 harvest1 ;;;
    usdcAfter <- read (fun w => balanceOf w USDC account) ;;
    let usdcHarvested := usdcAfter - usdcBefore in
    if usdcHarvested <=? 0 then print LogNoUsdcToTransfer ;;; exit 1
    else
      ok <- sendTx account (Transfer USDC (harvestAddress cfg) usdcHarvested) ;;
      if ok then print (LogSummary usd compound0 compound1 usdcHarvested)
      else exit 1.

Definition main : M unit :=
  owner <- read (fun w => ownerOf w (tokenId cfg)) ;;
  if negb (owner =? account) then exit 1 else
  '(poolKey, posInfo) <- read (fun w => getPoolAndPositionInfo w (tokenId cfg)) ;;
  liquidity <- read (fun w => getPositionLiquidity w (tokenId cfg)) ;;
  if liquidity =? 0 then exit 0 else
  '(sqrtPriceX96, _) <- read (fun w => getSlot0 w poolKey) ;;
  let '(tickLower, tickUpper) := tickRange posInfo in
  token0Before <- read (fun w => balanceOf w (currency0 poolKey) account) ;;
  token1Before <- read (fun w => balanceOf w (currency1 poolKey) account) ;;
  if dryRun cfg then print LogDryRunComplete ;;; exit 0 else
  collected <- collectFees poolKey ;;
  if negb collected then exit 1 else
  token0After <- read (fun w => balanceOf w (currency0 poolKey) account) ;;
  token1After <- read (fun w => balanceOf w (currency1 poolKey) account) ;;
  let fees0 := token0After - token0Before in
  let fees1 := token1After - token1Before in
  if (fees0 <=? 0) && (fees1 <=? 0) then exit 0 else
  let usd := feesUsd poolKey fees0 fees1 in
  print (LogFeesValue usd) ;;;
  pct <- orThrow (BigInt.ofNumber (compoundPct cfg)) ;;
  let '(compound0, harvest0) := split fees0 pct in
  let '(compound1, harvest1) := split fees1 pct in
  print (LogSplitCompound compound0 compound1) ;;;
  print (LogSplitHarvest harvest0 harvest1) ;;;
  compoundPhase poolKey compound0 compound1 sqrtPriceX96 tickLower tickUpper ;;;
  harvestPhase poolKey usd compound0 compound1 harvest0 harvest1.

End Pipeline.

End CompoundAndHarvest.

(** ** A small chain to run the scripts on

    One wallet, the pool WETH/TOKEN, fees waiting in the fee contract and in
    the position, fixed exchange rates.  Every transaction is mined with
    status success. *)

Module Toy.

Definition TOKEN : address := 0xf3Ce5dDAAb6C133F9875a4a46C55cf0b58111B07.
Definition WALLET : address := 0x1111111111111111111111111111111111111111.
Definition VAULT : address := 0x2222222222222222222222222222222222222222.
Definition FEES : address := 0xf3622742b1e446d92e45e22923ef11c2fcd55d68.

Definition poolKey : PoolKey := mkPoolKey WETH TOKEN 8388608 200 0.

Record State : Type := mkState {
  wethBal : Z;
  tokenBal : Z;
  usdcBal : Z;
  feesWeth : Z;
  feesToken : Z;
  lpWeth : Z;
  lpToken : Z;
  sqrtPrice : Z;
  posInfo : Z;
  usdcPerWeth : Z;
  wethPerToken : Z
}.

Definition balance (s : State) (tok owner : address) : Z :=
  if tok =? WETH then wethBal s
  else if tok =? USDC then usdcBal s
  else if tok =? TOKEN then tokenBal s
  else 0.

Definition fees (s : State) (tok : address) : Z :=
  if tok =? WETH then feesWeth s
  else if tok =? TOKEN then feesToken s
  else 0.

Definition step (s : State) (t : Tx) : State :=
  match t with
  | Claim _ _ tok =>
      if tok =? WETH then
        mkState (wethBal s + feesWeth s) (tokenBal s) (usdcBal s) 0 (feesToken s)
                (lpWeth s) (lpToken s) (sqrtPrice s) (posInfo s)
                (usdcPerWeth s) (wethPerToken s)
      else if tok =? TOKEN then
        mkState (wethBal s) (tokenBal s + feesToken s) (usdcBal s) (feesWeth s) 0
                (lpWeth s) (lpToken s) (sqrtPrice s) (posInfo s)
                (usdcPerWeth s) (wethPerToken s)
      else s
  | ModifyLiquidities (DecreaseClose _ _ _ _ _ _ _) =>
      mkState (wethBal s + lpWeth s) (tokenBal s + lpToken s) (usdcBal s)
              (feesWeth s) (feesToken s) 0 0 (sqrtPrice s) (posInfo s)
              (usdcPerWeth s) (wethPerToken s)
  | ExactInputSingle _ p =>
      mkState (wethBal s - amountIn p) (tokenBal s)
              (usdcBal s + amountIn p * usdcPerWeth s)
              (feesWeth s) (feesToken s) (lpWeth s) (lpToken s) (sqrtPrice s)
              (posInfo s) (usdcPerWeth s) (wethPerToken s)
  | Execute p =>
      mkState (wethBal s + v4AmountIn p * wethPerToken s) (tokenBal s - v4AmountIn p)
              (usdcBal s)
              (feesWeth s) (feesToken s) (lpWeth s) (lpToken s) (sqrtPrice s)
              (posInfo s) (usdcPerWeth s) (wethPerToken s)
  | Transfer tok _ amount =>
      if tok =? USDC then
        mkState (wethBal s) (tokenBal s) (usdcBal s - amount)
                (feesWeth s) (feesToken s) (lpWeth s) (lpToken s) (sqrtPrice s)
                (posInfo s) (usdcPerWeth s) (wethPerToken s)
      else s
  | _ => s
  end.

#[export] Instance chain : Chain := {|
  World := State;
  availableFees := fun s _ _ tok => fees s tok;
  balanceOf := balance;
  allowance := fun _ _ _ _ => maxUint256;
  permit2Allowance := fun _ _ _ _ => maxUint160;
  ownerOf := fun _ _ => WALLET;
  getPoolAndPositionInfo := fun s _ => (poolKey, posInfo s);
  getPositionLiquidity := fun _ _ => 1000000;
  getSlot0 := fun s _ => (sqrtPrice s, 0);
  send := fun s _ t => (Mined true, step s t)
|}.

(** Position info whose tick range reads as -600..600 under both
    scripts' unpacking. *)
Definition packedInfo : Z :=
  Z.lor (Z.shiftl (0x1000000 - 600) 232)
    (Z.lor (Z.shiftl 600 208)
       (Z.lor (Z.shiftl 600 32) (Z.shiftl (0x1000000 - 600) 8))).

(** The wallet holds 5000 wei of WETH and 7000 units of USDC of its own;
    the pool price sits at tick 0, inside the position's range. *)
Definition start (feesW feesT lpW lpT : Z) : State :=
  mkState 5000 0 7000 feesW feesT lpW lpT Q96 packedInfo 3 2.

(** The same wallet with the pool price below the position's range. *)
Definition startBelowRange (feesW : Z) : State :=
  mkState 5000 0 7000 feesW 0 0 0 (2 ^ 95) packedInfo 3 2.

Definition noFeed : address -> Feed := fun _ => FetchError.

(** [Math.pow] as the runs on the small chain take it: correctly rounded,
    for a positive finite base and an integer exponent.  The power is
    enclosed between two values kept to 192 bits; when both round to the
    same double that is the result, otherwise the exact power is rounded. *)
Definition keepDown (x : Z * Z) : Z * Z :=
  let '(m, e) := x in
  let s := Z.max 0 (Z.log2 m + 1 - 192) in
  (m / 2 ^ s, e + s).

Definition keepUp (x : Z * Z) : Z * Z :=
  let '(m, e) := x in
  let s := Z.max 0 (Z.log2 m + 1 - 192) in
  (- ((- m) / 2 ^ s), e + s).

Definition mulDown (a b : Z * Z) : Z * Z := keepDown (fst a * fst b, snd a + snd b).

Definition mulUp (a b : Z * Z) : Z * Z := keepUp (fst a * fst b, snd a + snd b).

Fixpoint powDown (x : Z * Z) (t : positive) : Z * Z :=
  match t with
  | xH => x
  | xO t' => let y := powDown x t' in mulDown y y
  | xI t' => let y := powDown x t' in mulDown x (mulDown y y)
  end.

Fixpoint powUp (x : Z * Z) (t : positive) : Z * Z :=
  match t with
  | xH => x
  | xO t' => let y := powUp x t' in mulUp y y
  | xI t' => let y := powUp x t' in mulUp x (mulUp y y)
  end.

Definition recipDown (x : Z * Z) : Z * Z :=
  let '(m, e) := x in
  let k := Z.log2 m + 193 in
  (2 ^ k / m, - e - k).

Definition recipUp (x : Z * Z) : Z * Z :=
  let '(m, e) := x in
  let k := Z.log2 m + 193 in
  (2 ^ k / m + 1, - e - k).

Definition toDouble (x : Z * Z) : float :=
  SF2Prim (binary_normalize prec emax (fst x) (snd x) false).

Definition pow (x : float) (t : Z) : float :=
  match t, Prim2SF x with
  | Z0, _ => 1%float
  | Zpos p, S754_finite false m e =>
      let lo := toDouble (powDown (Zpos m, e) p) in
      let hi := toDouble (powUp (Zpos m, e) p) in
      if (lo =? hi)%float then lo
      else toDouble (Zpos m ^ Zpos p, e * Zpos p)
  | Zneg p, S754_finite false m e =>
      let lo := toDouble (recipDown (powUp (Zpos m, e) p)) in
      let hi := toDouble (recipUp (powDown (Zpos m, e) p)) in
      if (lo =? hi)%float then lo
      else Number.nearest (2 ^ Z.max 0 (- e * Zpos p))
                          (Zpos m ^ Zpos p * 2 ^ Z.max 0 (e * Zpos p))
  | _, _ => nan
  end.

(** compound-and-harvest's tickToSqrtPriceX96 on the small chain. *)
Definition sqrtPriceAtTick : Z -> option Z :=
  CompoundAndHarvest.tickToSqrtPriceX96With pow.

(** clanker-harvest with --token TOKEN --token-id 1 --harvest-address VAULT. *)
Definition clanker (pct : option Z) (minUsd : float) (dry : bool) : ClankerHarvest.Config :=
  ClankerHarvest.mkConfig TOKEN (Some 1) (Some VAULT) pct minUsd 1 FEES dry false false.

(** compound-and-harvest with --token-id 1 --harvest-address VAULT. *)
Definition compounder (pct : option Q) (dry : bool) : CompoundAndHarvest.Config :=
  CompoundAndHarvest.mkConfig 1 VAULT pct dry 1.

Definition runClanker (cfg : ClankerHarvest.Config) (w : State) : Run ClankerHarvest.Result :=
  ClankerHarvest.main cfg WALLET noFeed w.

Definition runCompounder (cfg : CompoundAndHarvest.Config) (w : State) : Run unit :=
  CompoundAndHarvest.main cfg WALLET noFeed sqrtPriceAtTick (fun _ => 18) w.

End Toy.

(** ** A chain on which nothing moves

    All balances, fees and allowances are zero and stay so; the position
    belongs to the wallet of the small chain and holds the liquidity the
    world says; every transaction gets the receipt the world prescribes. *)

Module Stalled.

Record State : Type := mkState {
  liquidity : Z;
  receipt : Receipt
}.

#[export] Instance chain : Chain := {|
  World := State;
  availableFees := fun _ _ _ _ => 0;
  balanceOf := fun _ _ _ => 0;
  allowance := fun _ _ _ _ => 0;
  permit2Allowance := fun _ _ _ _ => 0;
  ownerOf := fun _ _ => Toy.WALLET;
  getPoolAndPositionInfo := fun _ _ => (Toy.poolKey, Toy.packedInfo);
  getPositionLiquidity := fun s _ => liquidity s;
  getSlot0 := fun _ _ => (Q96, 0);
  send := fun s _ _ => (receipt s, s)
|}.

End Stalled.

(** ** Vocabulary of the statements *)

Section Vocabulary.
Context {chain : Chain}.

(** Every transaction [m] sends satisfies [P]. *)
Definition sends (P : Tx -> Prop) {A} (m : M A) : Prop :=
  forall w, Forall P (txs (m w)).

(** [m] sends nothing and leaves the world as it found it. *)
Definition quiet {A} (m : M A) : Prop :=
  forall w, txs (m w) = [] /\ world (m w) = w.

(** [m] never ends the process. *)
Definition noExit {A} (m : M A) : Prop :=
  forall w c, outcome (m w) <> Exit c.

(** [m] always comes back with a value. *)
Definition returns {A} (m : M A) : Prop :=
  forall w, exists a, outcome (m w) = Ret a.

End Vocabulary.

(** A swap that accepts any output amount at any price. *)
Definition unprotected (t : Tx) : Prop :=
  match t with
  | ExactInputSingle _ p => amountOutMinimum p = 0 /\ sqrtPriceLimitX96 p = 0
  | Execute p => v4AmountOutMinimum p = 0 /\ v4SqrtPriceLimitX96 p = 0
  | _ => True
  end.

(** The lines that report the split. *)
Definition isSplitLine (l : Line) : bool :=
  match l with
  | LogSplitCompound _ _ | LogSplitHarvest _ _ => true
  | _ => false
  end.

Definition isTransfer (t : Tx) : bool :=
  match t with
  | Transfer _ _ _ => true
  | _ => false
  end.

(** The transactions of the claim and collection steps. *)
Definition gathersFees (t : Tx) : Prop :=
  match t with
  | Claim _ _ _ => True
  | Approve _ spender _ => spender = PERMIT2
  | ModifyLiquidities (DecreaseClose _ _ _ _ _ _ _) => True
  | _ => False
  end.

(** An approval as the scripts send it: the maximum amount, to Permit2 or
    to SwapRouter02, or through Permit2 to the Universal Router. *)
Definition unlimitedApproval (t : Tx) : Prop :=
  match t with
  | Approve _ spender amount =>
      amount = maxUint256 /\ (spender = PERMIT2 \/ spender = SWAP_ROUTER)
  | Permit2Approve _ spender amount expiration =>
      spender = UNIVERSAL_ROUTER /\ amount = maxUint160 /\ expiration = maxUint48
  | _ => True
  end.

(** A collection on position [tokenId]: nothing removed, no minimum asked,
    the proceeds closed to [account]. *)
Definition collectsTo (tokenId : option Z) (account : address) (t : Tx) : Prop :=
  match t with
  | ModifyLiquidities (DecreaseClose tid liquidity amount0Min amount1Min _ _ recipient) =>
      tokenId = Some tid /\ liquidity = 0 /\ amount0Min = 0 /\ amount1Min = 0 /\
      recipient = account
  | _ => True
  end.

(** A deposit into position [tokenId] with a positive liquidity and maximum
    amounts that fit their ABI types. *)
Definition raisesLiquidity (tokenId : option Z) (t : Tx) : Prop :=
  match t with
  | ModifyLiquidities (IncreaseSettle tid liquidity amount0Max amount1Max _ _) =>
      tokenId = Some tid /\ 0 < liquidity /\
      0 <= amount0Max < 2 ^ 128 /\ 0 <= amount1Max < 2 ^ 128
  | _ => True
  end.

(** Whom a transaction names as the receiver of what it pays out: a claim
    its fee owner, a collection the recipient of its close, a SwapRouter02
    swap its recipient, a transfer its destination.  Each is [account],
    but for the transfer, which is of a positive USDC amount to [vault];
    the swap is of a positive WETH amount into USDC through the 0.05% pool.
    The other transactions (approvals, increases, Universal Router swaps)
    have no such argument. *)
Definition paysWalletOrVault (account : address) (vault : option address) (t : Tx) : Prop :=
  match t with
  | Claim _ feeOwner _ => feeOwner = account
  | ModifyLiquidities (DecreaseClose _ _ _ _ _ _ recipient) => recipient = account
  | ExactInputSingle router p =>
      router = SWAP_ROUTER /\ tokenIn p = WETH /\ tokenOut p = USDC /\
      poolFee p = 500 /\ recipient p = account /\ 0 < amountIn p
  | Transfer tok to amount => tok = USDC /\ vault = Some to /\ 0 < amount
  | Approve _ _ _ | Permit2Approve _ _ _ _ | Execute _
  | ModifyLiquidities (IncreaseSettle _ _ _ _ _ _) => True
  end.

(** No Universal Router swap and no call of Permit2's approve; a swap is a
    SwapRouter02 swap of WETH into USDC; an ERC-20 approval is to the Permit2
    contract, or is WETH's approval of SwapRouter02. *)
Definition swapsWethOnly (t : Tx) : Prop :=
  match t with
  | Execute _ | Permit2Approve _ _ _ _ => False
  | ExactInputSingle router p =>
      router = SWAP_ROUTER /\ tokenIn p = WETH /\ tokenOut p = USDC
  | Approve token spender _ =>
      spender = PERMIT2 \/ (spender = SWAP_ROUTER /\ token = WETH)
  | Claim _ _ _ | ModifyLiquidities _ | Transfer _ _ _ => True
  end.

Definition isIncrease (t : Tx) : bool :=
  match t with
  | ModifyLiquidities (IncreaseSettle _ _ _ _ _ _) => true
  | _ => false
  end.

(** The transactions of the harvest: swaps, their router approvals, and the
    transfer. *)
Definition isHarvestTx (t : Tx) : bool :=
  match t with
  | ExactInputSingle _ _ | Execute _ | Permit2Approve _ _ _ _ | Transfer _ _ _ => true
  | Approve _ spender _ => spender =? SWAP_ROUTER
  | _ => false
  end.




(** A run that ended with a USDC transfer of a positive amount to [vault]
    and then printed its summary, with that amount. *)
Definition paidAndReported (vault : address) (ts : list Tx) (ls : list Line) : Prop :=
  exists sent printed usd c0 c1 amount,
    ts = sent ++ [Transfer USDC vault amount] /\ 0 < amount /\
    ls = printed ++ [LogSummary usd c0 c1 amount].

Section VocabularyOfReturns.
Context {chain : Chain}.

(** What holds of the transactions and lines of [m] whenever it returns. *)
Definition onReturn {A} (P : list Tx -> list Line -> Prop) (m : M A) : Prop :=
  forall w a, outcome (m w) = Ret a -> P (txs (m w)) (out (m w)).

End VocabularyOfReturns.

(** The sleeps of a back-off that starts at [base] and doubles: [k] of them. *)
Definition doubling (base : Z) (k : nat) : list Z :=
  map (fun j => base * 2 ^ Z.of_nat j) (seq 0 k).

(** * Properties *)

(** ** Running programs *)

Section ProgramLemmas.
Context {chain : Chain}.

Lemma run_eta {A} (r : Run A) : mkRun (outcome r) (world r) (txs r) (out r) = r.
Proof. destruct r; reflexivity. Qed.

Lemma bind_ret {A B} (a : A) (k : A -> M B) w : bind (ret a) k w = k a w.
Proof. unfold bind, ret; simpl. apply run_eta. Qed.

Lemma bind_of_ret {A B} (m : M A) (k : A -> M B) w a :
  m w = ret a w -> bind m k w = k a w.
Proof. intros H. unfold bind. rewrite H. simpl. apply run_eta. Qed.

Lemma bind_read {A B} (f : World -> A) (k : A -> M B) w :
  bind (read f) k w = k (f w) w.
Proof. unfold bind, read; simpl. apply run_eta. Qed.

Lemma bind_throw {A B} (k : A -> M B) w : bind throw k w = throw w.
Proof. reflexivity. Qed.

Lemma bind_exit {A B} c (k : A -> M B) w : bind (exit c) k w = exit c w.
Proof. reflexivity. Qed.

Lemma bind_print {B} l (k : unit -> M B) w :
  bind (print l) k w =
  mkRun (outcome (k tt w)) (world (k tt w)) (txs (k tt w)) (l :: out (k tt w)).
Proof. reflexivity. Qed.

Lemma txs_bind {A B} (m : M A) (k : A -> M B) w :
  txs (bind m k w) =
  txs (m w) ++ match outcome (m w) with
               | Ret a => txs (k a (world (m w)))
               | _ => []
               end.
Proof.
  unfold bind. destruct (outcome (m w)); simpl; auto using app_nil_r.
Qed.

Lemma txs_tryCatch {A} (m h : M A) w :
  txs (tryCatch m h w) =
  txs (m w) ++ match outcome (m w) with
               | Throw => txs (h (world (m w)))
               | _ => []
               end.
Proof.
  unfold tryCatch. destruct (outcome (m w)); simpl; auto using app_nil_r.
Qed.

Lemma sends_ret P {A} (a : A) : sends P (ret a).
Proof. intro w; constructor. Qed.

Lemma sends_throw P {A} : sends P (@throw _ A).
Proof. intro w; constructor. Qed.

Lemma sends_exit P {A} c : sends P (@exit _ A c).
Proof. intro w; constructor. Qed.

Lemma sends_read P {A} (f : World -> A) : sends P (read f).
Proof. intro w; constructor. Qed.

Lemma sends_print P l : sends P (print l).
Proof. intro w; constructor. Qed.

Lemma sends_orThrow P {A} (o : option A) : sends P (orThrow o).
Proof. destruct o; [apply sends_ret | apply sends_throw]. Qed.

Lemma sends_sendTx (P : Tx -> Prop) account t : P t -> sends P (sendTx account t).
Proof.
  intros H w. unfold sendTx. destruct (send w account t) as [[|ok] w']; simpl; auto.
Qed.

Lemma sends_bind P {A B} (m : M A) (k : A -> M B) :
  sends P m -> (forall a, sends P (k a)) -> sends P (bind m k).
Proof.
  intros Hm Hk w. rewrite txs_bind. apply Forall_app; split; [apply Hm|].
  destruct (outcome (m w)); [apply Hk | constructor | constructor].
Qed.

Lemma sends_tryCatch P {A} (m h : M A) :
  sends P m -> sends P h -> sends P (tryCatch m h).
Proof.
  intros Hm Hh w. rewrite txs_tryCatch. apply Forall_app; split; [apply Hm|].
  destruct (outcome (m w)); [constructor | apply Hh | constructor].
Qed.

Lemma sends_when P b m : sends P m -> sends P (when b m).
Proof. destruct b; simpl; auto using sends_ret. Qed.

Lemma quiet_ret {A} (a : A) : quiet (ret a).
Proof. intro w; split; reflexivity. Qed.

Lemma quiet_throw {A} : quiet (@throw _ A).
Proof. intro w; split; reflexivity. Qed.

Lemma quiet_exit {A} c : quiet (@exit _ A c).
Proof. intro w; split; reflexivity. Qed.

Lemma quiet_read {A} (f : World -> A) : quiet (read f).
Proof. intro w; split; reflexivity. Qed.

Lemma quiet_print l : quiet (print l).
Proof. intro w; split; reflexivity. Qed.

Lemma quiet_orThrow {A} (o : option A) : quiet (orThrow o).
Proof. destruct o; [apply quiet_ret | apply quiet_throw]. Qed.

Lemma quiet_bind {A B} (m : M A) (k : A -> M B) :
  quiet m -> (forall a, quiet (k a)) -> quiet (bind m k).
Proof.
  intros Hm Hk w. destruct (Hm w) as [Ht Hw]. unfold bind.
  destruct (outcome (m w)) as [a| |c]; simpl; rewrite ?Ht, ?Hw; auto.
  destruct (Hk a w) as [Ht' Hw']. rewrite Ht', Hw'. auto.
Qed.

Lemma quiet_when b m : quiet m -> quiet (when b m).
Proof. destruct b; simpl; auto using quiet_ret. Qed.

Lemma outcome_bind {A B} (m : M A) (k : A -> M B) w :
  outcome (bind m k w) =
  match outcome (m w) with
  | Ret a => outcome (k a (world (m w)))
  | Throw => Throw
  | Exit c => Exit c
  end.
Proof. unfold bind. destruct (outcome (m w)); reflexivity. Qed.

Lemma world_bind {A B} (m : M A) (k : A -> M B) w :
  world (bind m k w) =
  match outcome (m w) with
  | Ret a => world (k a (world (m w)))
  | _ => world (m w)
  end.
Proof. unfold bind. destruct (outcome (m w)); reflexivity. Qed.

Lemma out_bind {A B} (m : M A) (k : A -> M B) w :
  out (bind m k w) =
  out (m w) ++ match outcome (m w) with
               | Ret a => out (k a (world (m w)))
               | _ => []
               end.
Proof.
  unfold bind. destruct (outcome (m w)); simpl; auto using app_nil_r.
Qed.

Lemma bind_ext {A B} (m : M A) (k k' : A -> M B) w :
  (forall a w', k a w' = k' a w') -> bind m k w = bind m k' w.
Proof.
  intros H. unfold bind. destruct (outcome (m w)); [rewrite H|..]; reflexivity.
Qed.

Lemma bind_result {A B} (m : M A) (k : A -> M B) w (b : B) :
  outcome (bind m k w) = Ret b ->
  exists a, outcome (m w) = Ret a /\
            outcome (k a (world (m w))) = Ret b /\
            txs (bind m k w) = txs (m w) ++ txs (k a (world (m w))).
Proof.
  rewrite outcome_bind, txs_bind.
  destruct (outcome (m w)) as [a| |c]; [|discriminate..].
  intros E. exists a. auto.
Qed.

Lemma txs_sendTx account t w : txs (sendTx account t w) = [t].
Proof. unfold sendTx. destruct (send w account t) as [[|ok] w']; reflexivity. Qed.

Lemma noExit_ret {A} (a : A) : noExit (ret a).
Proof. intros w c; discriminate. Qed.

Lemma noExit_throw {A} : noExit (@throw _ A).
Proof. intros w c; discriminate. Qed.

Lemma noExit_read {A} (f : World -> A) : noExit (read f).
Proof. intros w c; discriminate. Qed.

Lemma noExit_print l : noExit (print l).
Proof. intros w c; discriminate. Qed.

Lemma noExit_orThrow {A} (o : option A) : noExit (orThrow o).
Proof. destruct o; [apply noExit_ret | apply noExit_throw]. Qed.

Lemma noExit_sendTx account t : noExit (sendTx account t).
Proof.
  intros w c. unfold sendTx. destruct (send w account t) as [[|ok] w']; discriminate.
Qed.

Lemma noExit_bind {A B} (m : M A) (k : A -> M B) :
  noExit m -> (forall a, noExit (k a)) -> noExit (bind m k).
Proof.
  intros Hm Hk w c. rewrite outcome_bind. specialize (Hm w).
  destruct (outcome (m w)) as [a| |c']; [apply Hk | discriminate | ].
  intros E. apply (Hm c'). reflexivity.
Qed.

Lemma noExit_tryCatch {A} (m h : M A) :
  noExit m -> noExit h -> noExit (tryCatch m h).
Proof.
  intros Hm Hh w c. unfold tryCatch. specialize (Hm w).
  destruct (outcome (m w)) as [a| |c'] eqn:E; simpl.
  - rewrite E. discriminate.
  - apply Hh.
  - rewrite E. apply Hm.
Qed.

Lemma noExit_when b m : noExit m -> noExit (when b m).
Proof. destruct b; simpl; auto using noExit_ret. Qed.

Lemma returns_ret {A} (a : A) : returns (ret a).
Proof. intros w; exists a; reflexivity. Qed.

Lemma returns_read {A} (f : World -> A) : returns (read f).
Proof. intros w; exists (f w); reflexivity. Qed.

Lemma returns_print l : returns (print l).
Proof. intros w; exists tt; reflexivity. Qed.

Lemma returns_bind {A B} (m : M A) (k : A -> M B) :
  returns m -> (forall a, returns (k a)) -> returns (bind m k).
Proof.
  intros Hm Hk w. destruct (Hm w) as [a Ha]. rewrite outcome_bind, Ha. apply Hk.
Qed.

Lemma returns_tryCatch {A} (m h : M A) :
  noExit m -> returns h -> returns (tryCatch m h).
Proof.
  intros Hm Hh w. unfold tryCatch. specialize (Hm w).
  destruct (outcome (m w)) as [a| |c] eqn:E; simpl.
  - exists a. exact E.
  - apply Hh.
  - destruct (Hm c). reflexivity.
Qed.

Lemma returns_when b m : returns m -> returns (when b m).
Proof. destruct b; simpl; auto using returns_ret. Qed.

Lemma sends_no_transfer {A} (m : M A) w :
  sends (fun t => isTransfer t = false) m -> filter isTransfer (txs (m w)) = [].
Proof.
  intros H. specialize (H w). induction H as [|t l Ht _ IH]; simpl; [reflexivity|].
  rewrite Ht. exact IH.
Qed.

Lemma transfers_bind {A B} (m : M A) (k : A -> M B) w :
  sends (fun t => isTransfer t = false) m ->
  filter isTransfer (txs (bind m k w)) =
  match outcome (m w) with
  | Ret a => filter isTransfer (txs (k a (world (m w))))
  | _ => []
  end.
Proof.
  intros H. rewrite txs_bind, filter_app, (sends_no_transfer _ _ H).
  destruct (outcome (m w)); reflexivity.
Qed.

End ProgramLemmas.

Create HintDb sends.
Create HintDb quiet.
Create HintDb noExit.
Create HintDb returns.

#[local] Hint Resolve noExit_ret noExit_throw noExit_read noExit_print noExit_orThrow
  noExit_sendTx noExit_when : noExit.
#[local] Hint Resolve returns_ret returns_read returns_print returns_when : returns.

#[local] Hint Resolve sends_ret sends_throw sends_exit sends_read sends_print
  sends_orThrow sends_when : sends.
#[local] Hint Resolve quiet_ret quiet_throw quiet_exit quiet_read quiet_print
  quiet_orThrow quiet_when : quiet.

(** Walks down a program, one construct at a time. *)
Ltac sends_walk :=
  repeat first
    [ apply sends_bind; [| intros ?]
    | apply sends_tryCatch
    | apply sends_sendTx; solve [simpl; auto]
    | solve [auto with sends]
    | match goal with
      | |- sends _ (match ?x with _ => _ end) => destruct x
      | |- sends _ (if ?b then _ else _) => destruct b
      end ].

Ltac quiet_walk :=
  repeat first
    [ apply quiet_bind; [| intros ?]
    | solve [auto with quiet]
    | match goal with
      | |- quiet (match ?x with _ => _ end) => destruct x
      | |- quiet (if ?b then _ else _) => destruct b
      end ].

Ltac noExit_walk :=
  repeat first
    [ apply noExit_bind; [| intros ?]
    | apply noExit_tryCatch
    | solve [auto with noExit]
    | match goal with
      | |- noExit (match ?x with _ => _ end) => destruct x
      | |- noExit (if ?b then _ else _) => destruct b
      end ].

Ltac returns_walk :=
  repeat first
    [ apply returns_bind; [| intros ?]
    | apply returns_tryCatch; [noExit_walk |]
    | solve [auto with returns]
    | match goal with
      | |- returns (match ?x with _ => _ end) => destruct x
      | |- returns (if ?b then _ else _) => destruct b
      end ].

(** Unfolds the transactions, outcome and world of a composed program. *)
Ltac run_txs :=
  repeat (rewrite ?txs_bind, ?outcome_bind, ?world_bind, ?txs_sendTx;
          cbn [orThrow ret read print throw exit when outcome txs world out app]).

Section ClankerHarvestFacts.
Context {chain : Chain}.
Variable cfg : ClankerHarvest.Config.
Variable account : address.
Variable feed : address -> Feed.

Import ClankerHarvest.

Lemma clanker_main_unprotected : sends unprotected (main cfg account feed).
Proof.
  unfold main, feesPhase, processTotals, claimStep, collectStep, compoundStep,
    harvestStep, transferStep, swapPhase, compoundBody, approvePermit2IfNeeded.
  sends_walk.
Qed.

Lemma clanker_swapPhase_returns hw ht : returns (swapPhase account hw ht).
Proof. unfold swapPhase. returns_walk. Qed.

Lemma clanker_swapPhase_no_transfer hw ht :
  sends (fun t => isTransfer t = false) (swapPhase account hw ht).
Proof. unfold swapPhase. sends_walk. Qed.

Lemma clanker_harvestStep_transfers hw ht w :
  filter isTransfer (txs (harvestStep cfg account feed hw ht w)) =
  let gained :=
    balanceOf (world (swapPhase account hw ht w)) USDC account
    - balanceOf w USDC account in
  if wantHarvest cfg && ((hw >? 0) || (ht >? 0)) && negb (dryRun cfg) && (gained >? 0)
  then match harvestAddress cfg with
       | Some vault => [Transfer USDC vault gained]
       | None => []
       end
  else [].
Proof.
  unfold harvestStep.
  destruct (wantHarvest cfg && ((hw >? 0) || (ht >? 0))); [|reflexivity].
  rewrite bind_read. unfold transferStep.
  destruct (dryRun cfg); [reflexivity|].
  destruct (clanker_swapPhase_returns hw ht w) as [[] Hs].
  rewrite !txs_bind, !outcome_bind, !world_bind, Hs. cbn [outcome world txs read ret].
  rewrite !filter_app, (sends_no_transfer _ _ (clanker_swapPhase_no_transfer hw ht)).
  cbn [app negb andb].
  destruct (_ - _ >? 0).
  - destruct (harvestAddress cfg); [|reflexivity].
    run_txs. cbn [filter isTransfer].
    repeat match goal with |- context [match ?x with _ => _ end] => destruct x end;
      reflexivity.
  - destruct (hw >? 0); reflexivity.
Qed.

Lemma clanker_harvestStep_idle w :
  filter isTransfer (txs (harvestStep cfg account feed 0 0 w)) = [].
Proof.
  unfold harvestStep. destruct (wantHarvest cfg); reflexivity.
Qed.

(** Whatever main transfers, its harvest step transfers. *)
Lemma clanker_main_transfers w :
  exists h0 h1 w1,
    filter isTransfer (txs (main cfg account feed w)) =
    filter isTransfer (txs (harvestStep cfg account feed h0 h1 w1)).
Proof.
  assert (idle : exists h0 h1 w1,
             [] = filter isTransfer (txs (harvestStep cfg account feed h0 h1 w1))).
  { exists 0, 0, w. symmetry. apply clanker_harvestStep_idle. }
  unfold main. rewrite transfers_bind.
  2: { unfold feesPhase, claimStep, collectStep, approvePermit2IfNeeded. sends_walk. }
  destruct (outcome (feesPhase cfg account w)) as [[[poolKey tw] tt]| |]; try exact idle.
  set (w1 := world (feesPhase cfg account w)). clearbody w1.
  unfold processTotals.
  destruct ((tw =? 0) && (tt =? 0)); [exact idle|].
  destruct ((0 <? minUsd cfg)%float && _); [exact idle|].
  destruct (compoundPct cfg) as [pct|] eqn:Epct; [|exact idle].
  cbn [orThrow]. rewrite bind_ret.
  destruct (split tw pct) as [cw hw], (split tt pct) as [ct ht].
  rewrite transfers_bind by sends_walk.
  destruct (outcome _); try exact idle.
  rewrite transfers_bind by sends_walk.
  destruct (outcome _); try exact idle.
  rewrite transfers_bind.
  2: { unfold compoundStep, compoundBody. sends_walk. }
  destruct (outcome _); try exact idle.
  match goal with
  | |- context [bind (harvestStep cfg account feed hw ht) _ ?w2] => exists hw, ht, w2
  end.
  rewrite txs_bind, filter_app.
  destruct (outcome _); cbn [ret txs filter]; apply app_nil_r.
Qed.

Lemma clanker_feesPhase_gathers : sends gathersFees (feesPhase cfg account).
Proof.
  unfold feesPhase, claimStep, collectStep, approvePermit2IfNeeded. sends_walk.
Qed.

(** What a dry run takes for the fees: the amounts the fee contract holds,
    and nothing from the position. *)
Lemma clanker_feesPhase_dry w :
  dryRun cfg = true ->
  feesPhase cfg account w =
  ret (match (if skipLp cfg then None else tokenId cfg) with
       | Some tid => Some (fst (getPoolAndPositionInfo w tid))
       | None => None
       end,
       if skipClaim cfg then 0 else availableFees w (feeContract cfg) account WETH,
       if skipClaim cfg then 0 else availableFees w (feeContract cfg) account (token cfg)) w.
Proof.
  intros Hdry.
  assert (Hclaim : claimStep cfg account w =
            ret (if skipClaim cfg then 0 else availableFees w (feeContract cfg) account WETH,
                 if skipClaim cfg then 0
                 else availableFees w (feeContract cfg) account (token cfg)) w).
  { unfold claimStep. destruct (skipClaim cfg); [reflexivity|].
    rewrite !bind_read, Hdry.
    destruct (Z.eqb_spec (availableFees w (feeContract cfg) account WETH) 0) as [E0|];
      [|reflexivity].
    destruct (Z.eqb_spec (availableFees w (feeContract cfg) account (token cfg)) 0) as [E1|];
      [|reflexivity].
    rewrite E0, E1. reflexivity. }
  assert (Hcollect : collectStep cfg account w =
            ret (0, 0, match (if skipLp cfg then None else tokenId cfg) with
                       | Some tid => Some (fst (getPoolAndPositionInfo w tid))
                       | None => None
                       end) w).
  { unfold collectStep.
    destruct (if skipLp cfg then None else tokenId cfg) as [tid|]; [|reflexivity].
    rewrite bind_read. destruct (getPoolAndPositionInfo w tid) as [poolKey posInfo].
    rewrite !bind_read, Hdry. reflexivity. }
  unfold feesPhase.
  rewrite (bind_of_ret _ _ _ _ Hclaim), (bind_of_ret _ _ _ _ Hcollect), !Z.add_0_r.
  reflexivity.
Qed.

(** What a live run claims is what the fee contract reported. *)
Lemma clanker_claimStep_live w cw ct :
  dryRun cfg = false ->
  0 <= availableFees w (feeContract cfg) account WETH ->
  0 <= availableFees w (feeContract cfg) account (token cfg) ->
  outcome (claimStep cfg account w) = Ret (cw, ct) ->
  cw = (if skipClaim cfg then 0 else availableFees w (feeContract cfg) account WETH) /\
  ct = (if skipClaim cfg then 0 else availableFees w (feeContract cfg) account (token cfg)).
Proof.
  intros Hlive HW HT. unfold claimStep.
  destruct (skipClaim cfg).
  { intros E; injection E as <- <-. auto. }
  rewrite !bind_read, Hlive.
  set (aw := availableFees w (feeContract cfg) account WETH) in *.
  set (at' := availableFees w (feeContract cfg) account (token cfg)) in *.
  destruct (Z.eqb_spec aw 0) as [E0|N0]; cbn [andb].
  - destruct (Z.eqb_spec at' 0) as [E1|N1].
    + intros E; injection E as <- <-. auto.
    + intros E. apply bind_result in E as (x & Ex & E & _).
      apply bind_result in E as (y & Ey & E & _).
      injection E as <- <-.
      destruct (Z.gtb_spec at' 0); [|lia].
      apply bind_result in Ex as (? & _ & Ex & _). injection Ex as <-.
      revert Ey. destruct (Z.gtb_spec aw 0); [lia|].
      intros Ey; injection Ey as <-. auto.
  - intros E. apply bind_result in E as (x & Ex & E & _).
    apply bind_result in E as (y & Ey & E & _).
    injection E as <- <-.
    revert Ey. destruct (Z.gtb_spec aw 0); [|lia].
    intros Ey. apply bind_result in Ey as (? & _ & Ey & _). injection Ey as <-.
    split; [reflexivity|].
    revert Ex. destruct (Z.gtb_spec at' 0).
    + intros Ex. apply bind_result in Ex as (? & _ & Ex & _). injection Ex as <-.
      reflexivity.
    + intros Ex; injection Ex as <-. lia.
Qed.

(** The totals of a live run are those of the dry run plus what the
    collection brought in. *)
Lemma clanker_feesPhase_live w poolKey tw tt :
  dryRun cfg = false ->
  0 <= availableFees w (feeContract cfg) account WETH ->
  0 <= availableFees w (feeContract cfg) account (token cfg) ->
  outcome (feesPhase cfg account w) = Ret (poolKey, tw, tt) ->
  exists lpWeth lpToken,
    outcome (collectStep cfg account (world (claimStep cfg account w)))
      = Ret (lpWeth, lpToken, poolKey) /\
    tw = (if skipClaim cfg then 0 else availableFees w (feeContract cfg) account WETH)
         + lpWeth /\
    tt = (if skipClaim cfg then 0
          else availableFees w (feeContract cfg) account (token cfg)) + lpToken.
Proof.
  intros Hlive HW HT E. unfold feesPhase in E.
  apply bind_result in E as ([cw ct] & Ec & E & _).
  apply bind_result in E as ([[lw lt] pk] & El & E & _).
  injection E as <- <- <-.
  destruct (clanker_claimStep_live w cw ct Hlive HW HT Ec) as [-> ->].
  exists lw, lt. auto.
Qed.

Lemma clanker_processTotals_dry poolKey tw tt :
  dryRun cfg = true -> quiet (processTotals cfg account feed poolKey tw tt).
Proof.
  intros Hdry.
  unfold processTotals, compoundStep, harvestStep, transferStep.
  rewrite Hdry. quiet_walk.
Qed.

End ClankerHarvestFacts.

Section CompoundAndHarvestFacts.
Context {chain : Chain}.
Variable cfg : CompoundAndHarvest.Config.
Variable account : address.
Variable feed : address -> Feed.
Variable tickToSqrtPriceX96 : Z -> option Z.
Variable decimals : address -> Z.

Import CompoundAndHarvest.

Lemma swapToUsdc_unfold tokenAddress amount slippagePct v4PoolKey :
  swapToUsdc account tokenAddress amount slippagePct v4PoolKey =
  if amount <=? 0 then ret (mkSwapResult (Some 0) None None)
  else if tokenAddress =? USDC then ret (mkSwapResult (Some amount) None None)
  else if tokenAddress =? WETH then swapWethDirect account tokenAddress amount
  else
    match v4PoolKey with
    | None => throw
    | Some poolKey =>
        wethBefore <- read (fun w => balanceOf w WETH account) ;;
        v4Hash <- swapViaV4ToWeth account tokenAddress amount poolKey ;;
        wethAfter <- read (fun w => balanceOf w WETH account) ;;
        let wethGained := wethAfter - wethBefore in
        if wethGained >? 0 then
          usdcResult <- swapToUsdc account WETH wethGained slippagePct None ;;
          ret (mkSwapResult None (Some v4Hash) (hash usdcResult))
        else
          print LogNoWethReceived ;;;
          ret (mkSwapResult None (Some v4Hash) None)
    end.
Proof.
  simp swapToUsdc.
  destruct (amount <=? 0); simp swapToUsdc; [reflexivity|].
  destruct (tokenAddress =? USDC); simp swapToUsdc; [reflexivity|].
  destruct (inspect (tokenAddress =? WETH)) as [[|] e]; simp swapToUsdc; rewrite e;
    reflexivity.
Qed.

Lemma swapToUsdc_weth amount slippagePct v4PoolKey :
  swapToUsdc account WETH amount slippagePct v4PoolKey =
  if amount <=? 0 then ret (mkSwapResult (Some 0) None None)
  else swapWethDirect account WETH amount.
Proof.
  rewrite swapToUsdc_unfold. reflexivity.
Qed.

Lemma swapToUsdc_sends P tokenAddress amount slippagePct v4PoolKey :
  (forall t spender amount, P (Approve t spender amount)) ->
  (forall t spender amount e, P (Permit2Approve t spender amount e)) ->
  (forall a, P (ExactInputSingle SWAP_ROUTER (mkExactInputSingle WETH USDC 500 account a 0 0))) ->
  (forall pk z a, P (Execute (mkV4Swap pk z a 0 0))) ->
  sends P (swapToUsdc account tokenAddress amount slippagePct v4PoolKey).
Proof.
  intros HA HP HE HX. rewrite swapToUsdc_unfold.
  unfold swapWethDirect, swapViaV4ToWeth. sends_walk.
  rewrite swapToUsdc_weth. unfold swapWethDirect. sends_walk.
Qed.

Lemma compound_main_unprotected :
  sends unprotected (main cfg account feed tickToSqrtPriceX96 decimals).
Proof.
  unfold main, harvestPhase, swapPhase, compoundPhase, addLiquidity, collectFees,
    approvePermit2IfNeeded.
  sends_walk; apply swapToUsdc_sends; simpl; auto.
Qed.

Lemma swapToUsdc_noExit tokenAddress amount slippagePct v4PoolKey :
  noExit (swapToUsdc account tokenAddress amount slippagePct v4PoolKey).
Proof.
  rewrite swapToUsdc_unfold. unfold swapWethDirect, swapViaV4ToWeth. noExit_walk.
  rewrite swapToUsdc_weth. unfold swapWethDirect. noExit_walk.
Qed.

Lemma swapToUsdc_slippage_free tokenAddress amount s1 s2 v4PoolKey w :
  swapToUsdc account tokenAddress amount s1 v4PoolKey w =
  swapToUsdc account tokenAddress amount s2 v4PoolKey w.
Proof.
  rewrite !swapToUsdc_unfold.
  destruct (amount <=? 0); [reflexivity|].
  destruct (tokenAddress =? USDC); [reflexivity|].
  destruct (tokenAddress =? WETH); [reflexivity|].
  destruct v4PoolKey as [poolKey|]; [|reflexivity].
  apply bind_ext; intros wethBefore w1.
  apply bind_ext; intros v4Hash w2.
  apply bind_ext; intros wethAfter w3.
  cbv zeta. destruct (wethAfter - wethBefore >? 0); [|reflexivity].
  rewrite !swapToUsdc_weth. reflexivity.
Qed.

Lemma compound_swapPhase_returns poolKey h0 h1 :
  returns (swapPhase cfg account poolKey h0 h1).
Proof.
  unfold swapPhase. returns_walk; apply swapToUsdc_noExit.
Qed.

Lemma compound_swapPhase_no_transfer poolKey h0 h1 :
  sends (fun t => isTransfer t = false) (swapPhase cfg account poolKey h0 h1).
Proof.
  unfold swapPhase. sends_walk; apply swapToUsdc_sends; reflexivity.
Qed.

Lemma compound_harvestPhase_transfers poolKey usd c0 c1 h0 h1 w :
  filter isTransfer (txs (harvestPhase cfg account poolKey usd c0 c1 h0 h1 w)) =
  let gained :=
    balanceOf (world (swapPhase cfg account poolKey h0 h1 w)) USDC account
    - balanceOf w USDC account in
  if (h0 <=? 0) && (h1 <=? 0) then []
  else if gained <=? 0 then []
  else [Transfer USDC (harvestAddress cfg) gained].
Proof.
  unfold harvestPhase.
  destruct ((h0 <=? 0) && (h1 <=? 0)); [reflexivity|].
  rewrite bind_read.
  destruct (compound_swapPhase_returns poolKey h0 h1 w) as [[] Hs].
  run_txs. rewrite Hs. run_txs.
  rewrite !filter_app, (sends_no_transfer _ _ (compound_swapPhase_no_transfer poolKey h0 h1)).
  cbv zeta. destruct (_ - _ <=? 0); [reflexivity|].
  run_txs. cbn [filter isTransfer app].
  repeat match goal with |- context [match ?x with _ => _ end] => destruct x end;
    reflexivity.
Qed.

(** The V4 leg, when it comes back, has sent the swap of the whole amount
    last, after at most two approvals. *)
Lemma swapViaV4ToWeth_result tokenAddress amount poolKey w h :
  outcome (swapViaV4ToWeth account tokenAddress amount poolKey w) = Ret h ->
  h = Execute (mkV4Swap poolKey (tokenAddress =? currency0 poolKey) amount 0 0) /\
  exists approvals,
    txs (swapViaV4ToWeth account tokenAddress amount poolKey w) = approvals ++ [h] /\
    Forall (fun t => match t with
                     | Approve _ _ _ | Permit2Approve _ _ _ _ => True
                     | _ => False
                     end) approvals.
Proof.
  unfold swapViaV4ToWeth. rewrite bind_read. intros E.
  apply bind_result in E as (u1 & _ & E & T1). rewrite T1.
  rewrite bind_read in E |- *.
  apply bind_result in E as (u2 & _ & E & T2). rewrite T2.
  match type of T1 with txs (bind ?m _ _) = _ => set (m1 := m) in * end.
  match type of T2 with txs (bind ?m _ _) = _ => set (m2 := m) in * end.
  set (w1 := world (m1 w)) in *. set (w2 := world (m2 w1)) in *.
  cbv zeta in E |- *.
  destruct (fitsUint 128 amount); [|discriminate E].
  apply bind_result in E as (ok & _ & E & T3). rewrite T3, txs_sendTx.
  destruct ok; [|discriminate E]. injection E as <-.
  split; [reflexivity|].
  exists (txs (m1 w) ++ txs (m2 w1)). split.
  - cbn [ret txs]. rewrite app_nil_r, app_assoc. reflexivity.
  - apply Forall_app; split.
    + assert (S1 : sends (fun t => match t with
                                   | Approve _ _ _ | Permit2Approve _ _ _ _ => True
                                   | _ => False
                                   end) m1) by (subst m1; sends_walk).
      apply S1.
    + assert (S2 : sends (fun t => match t with
                                   | Approve _ _ _ | Permit2Approve _ _ _ _ => True
                                   | _ => False
                                   end) m2) by (subst m2; sends_walk).
      apply S2.
Qed.

Lemma compound_harvestPhase_idle poolKey usd c0 c1 w :
  filter isTransfer (txs (harvestPhase cfg account poolKey usd c0 c1 0 0 w)) = [].
Proof. reflexivity. Qed.

(** Whatever main transfers, its harvest phase transfers. *)
Lemma compound_main_transfers w :
  exists poolKey usd c0 c1 h0 h1 w1,
    filter isTransfer (txs (main cfg account feed tickToSqrtPriceX96 decimals w)) =
    filter isTransfer (txs (harvestPhase cfg account poolKey usd c0 c1 h0 h1 w1)).
Proof.
  assert (idle : exists poolKey usd c0 c1 h0 h1 w1,
             [] = filter isTransfer
                    (txs (harvestPhase cfg account poolKey usd c0 c1 h0 h1 w1))).
  { exists (mkPoolKey 0 0 0 0 0), 0%float, 0, 0, 0, 0, w. reflexivity. }
  unfold main. rewrite bind_read.
  destruct (negb _); [exact idle|].
  rewrite bind_read. destruct (getPoolAndPositionInfo w (tokenId cfg)) as [poolKey posInfo].
  rewrite bind_read. destruct (_ =? 0); [exact idle|].
  rewrite bind_read. destruct (getSlot0 w poolKey) as [sqrtPriceX96 tick].
  destruct (tickRange posInfo) as [tickLower tickUpper].
  rewrite !bind_read. destruct (dryRun cfg); [exact idle|].
  rewrite transfers_bind by (unfold collectFees; sends_walk).
  destruct (outcome _) as [collected| |]; try exact idle.
  destruct (negb collected); [exact idle|].
  rewrite !bind_read. cbv zeta.
  destruct (_ && _); [exact idle|].
  rewrite transfers_bind by sends_walk. cbn [print outcome world].
  rewrite transfers_bind by sends_walk.
  destruct (BigInt.ofNumber (compoundPct cfg)) as [pct|]; [|exact idle].
  cbn [orThrow ret outcome world].
  destruct (split _ pct) as [c0 h0], (split _ pct) as [c1 h1].
  rewrite transfers_bind by sends_walk. cbn [print outcome world].
  rewrite transfers_bind by sends_walk. cbn [print outcome world].
  rewrite transfers_bind.
  2: { unfold compoundPhase, addLiquidity, approvePermit2IfNeeded. sends_walk. }
  destruct (outcome _); try exact idle.
  repeat eexists.
Qed.

(** With a liquidity that is not positive addLiquidity sends nothing and
    reports failure. *)
Lemma addLiquidity_zero poolKey amount0 amount1 sqrtPriceX96 tickLower tickUpper lo hi l w :
  tickToSqrtPriceX96 tickLower = Some lo ->
  tickToSqrtPriceX96 tickUpper = Some hi ->
  getLiquidityForAmounts sqrtPriceX96 lo hi amount0 amount1 = Some l ->
  l <= 0 ->
  addLiquidity cfg account tickToSqrtPriceX96 poolKey amount0 amount1 sqrtPriceX96
    tickLower tickUpper w
  = ret (mkAddResult false (Some "zero-liquidity"%string) None) w.
Proof.
  intros Hlo Hhi Hl Hle. unfold addLiquidity.
  rewrite Hlo, Hhi. cbn [orThrow]. rewrite !bind_ret, Hl. cbn [orThrow].
  rewrite bind_ret. destruct (Z.leb_spec l 0); [reflexivity | lia].
Qed.

(** A dry run reads the position and stops. *)
Lemma compound_main_dry w :
  dryRun cfg = true ->
  main cfg account feed tickToSqrtPriceX96 decimals w =
  (if negb (ownerOf w (tokenId cfg) =? account) then exit 1
   else if getPositionLiquidity w (tokenId cfg) =? 0 then exit 0
   else print LogDryRunComplete ;;; exit 0) w.
Proof.
  intros Hdry. unfold main. rewrite bind_read.
  destruct (negb _); [reflexivity|].
  rewrite bind_read. destruct (getPoolAndPositionInfo w (tokenId cfg)) as [poolKey posInfo].
  rewrite bind_read. destruct (_ =? 0); [reflexivity|].
  rewrite bind_read. destruct (getSlot0 w poolKey) as [sqrtPriceX96 tick].
  destruct (tickRange posInfo) as [tickLower tickUpper].
  rewrite !bind_read, Hdry. reflexivity.
Qed.

Lemma swapToUsdc_indirect_unfold tokenAddress amount slippagePct poolKey :
  0 < amount -> tokenAddress <> USDC -> tokenAddress <> WETH ->
  swapToUsdc account tokenAddress amount slippagePct (Some poolKey) =
  (wethBefore <- read (fun w => balanceOf w WETH account) ;;
   v4Hash <- swapViaV4ToWeth account tokenAddress amount poolKey ;;
   wethAfter <- read (fun w => balanceOf w WETH account) ;;
   let wethGained := wethAfter - wethBefore in
   if wethGained >? 0 then
     usdcResult <- swapToUsdc account WETH wethGained slippagePct None ;;
     ret (mkSwapResult None (Some v4Hash) (hash usdcResult))
   else
     print LogNoWethReceived ;;;
     ret (mkSwapResult None (Some v4Hash) None)).
Proof.
  intros Ha Hu Hw. rewrite swapToUsdc_unfold.
  destruct (Z.leb_spec amount 0); [lia|].
  destruct (Z.eqb_spec tokenAddress USDC); [contradiction|].
  destruct (Z.eqb_spec tokenAddress WETH); [contradiction|].
  reflexivity.
Qed.

End CompoundAndHarvestFacts.

(** ** Swaps *)

(** C7: for a token that is neither USDC nor WETH, swapToUsdc first sends
    the token-to-WETH swap through the V4 route, measures the WETH received
    as the wallet's balance after that swap minus the balance before it, and
    then calls itself on WETH, the direct path, with exactly that difference
    as the amount; when the difference is not positive it stops after the
    first hop. *)
Theorem indirect_swap_feeds_measured_delta {chain : Chain}
    (account tokenAddress : address) (amount : Z) (slippagePct : Q)
    (poolKey : PoolKey) (w : World) :
  0 < amount -> tokenAddress <> USDC -> tokenAddress <> WETH ->
  let leg := CompoundAndHarvest.swapViaV4ToWeth account tokenAddress amount poolKey w in
  let gained := balanceOf (world leg) WETH account - balanceOf w WETH account in
  let r := CompoundAndHarvest.swapToUsdc account tokenAddress amount slippagePct
             (Some poolKey) w in
  (forall h, outcome leg = Ret h ->
     h = Execute (mkV4Swap poolKey (tokenAddress =? currency0 poolKey) amount 0 0) /\
     (exists approvals, txs leg = approvals ++ [h]) /\
     (0 < gained ->
        txs r = txs leg ++
                txs (CompoundAndHarvest.swapToUsdc account WETH gained slippagePct None
                       (world leg)) /\
        CompoundAndHarvest.swapToUsdc account WETH gained slippagePct None
          = CompoundAndHarvest.swapWethDirect account WETH gained) /\
     (gained <= 0 ->
        txs r = txs leg /\
        outcome r = Ret (CompoundAndHarvest.mkSwapResult None (Some h) None))) /\
  (outcome leg = Throw -> txs r = txs leg /\ outcome r = Throw).
Proof.
  intros Ha Hu Hw leg gained r. subst r.
  rewrite (swapToUsdc_indirect_unfold account tokenAddress amount slippagePct poolKey Ha Hu Hw).
  rewrite bind_read. fold leg. split.
  - intros h Hleg.
    destruct (swapViaV4ToWeth_result account tokenAddress amount poolKey w h Hleg)
      as (Hh & approvals & Happ & _).
    split; [exact Hh|]. split; [exists approvals; exact Happ|].
    rewrite txs_bind, outcome_bind. fold leg. rewrite Hleg, bind_read.
    fold leg. fold gained. cbv zeta. split.
    + intros Hg. destruct (Z.gtb_spec gained 0); [|lia].
      split.
      * rewrite txs_bind.
        match goal with
        | |- context [match outcome ?x with _ => _ end] => destruct (outcome x)
        end; cbn [ret txs]; rewrite ?app_nil_r; reflexivity.
      * rewrite swapToUsdc_weth. destruct (Z.leb_spec gained 0); [lia|reflexivity].
    + intros Hg. destruct (Z.gtb_spec gained 0); [lia|].
      split; [apply app_nil_r | reflexivity].
  - intros Hleg. rewrite txs_bind, outcome_bind. fold leg. rewrite Hleg.
    split; [apply app_nil_r | reflexivity].
Qed.

(** C9: every swap either script sends, the exactInputSingle from WETH to
    USDC and the V4 swap from the token to WETH, carries amountOutMinimum 0
    and sqrtPriceLimitX96 0; swapToUsdc does the same whatever slippage
    percentage it is handed. *)
Theorem swaps_accept_any_price {chain : Chain}
    (clankerCfg : ClankerHarvest.Config) (compoundCfg : CompoundAndHarvest.Config)
    (account : address) (feed : address -> Feed)
    (tickToSqrtPriceX96 : Z -> option Z) (decimals : address -> Z)
    (tokenAddress : address) (amount : Z) (s1 s2 : Q) (poolKey : option PoolKey)
    (w : World) :
  Forall unprotected (txs (ClankerHarvest.main clankerCfg account feed w)) /\
  Forall unprotected
    (txs (CompoundAndHarvest.main compoundCfg account feed tickToSqrtPriceX96 decimals w)) /\
  Forall unprotected
    (txs (CompoundAndHarvest.swapToUsdc account tokenAddress amount s1 poolKey w)) /\
  CompoundAndHarvest.swapToUsdc account tokenAddress amount s1 poolKey w
    = CompoundAndHarvest.swapToUsdc account tokenAddress amount s2 poolKey w.
Proof.
  split; [apply clanker_main_unprotected|].
  split; [apply compound_main_unprotected|].
  split; [apply swapToUsdc_sends; simpl; auto|].
  apply swapToUsdc_slippage_free.
Qed.

(** ** The transfer to the vault *)

(** C6: the transfer step sends to the vault exactly the USDC balance read
    after the swaps minus the balance read before them, never the balance
    itself; when that difference is not positive it sends no transfer; and
    main sends no transfer but that of this step.  This holds in both
    scripts. *)
Theorem vault_transfer_is_swap_delta {chain : Chain}
    (clankerCfg : ClankerHarvest.Config) (compoundCfg : CompoundAndHarvest.Config)
    (account : address) (feed : address -> Feed)
    (tickToSqrtPriceX96 : Z -> option Z) (decimals : address -> Z)
    (poolKey : PoolKey) (usd : float) (c0 c1 h0 h1 : Z) (w : World) :
  (let gained :=
     balanceOf (world (ClankerHarvest.swapPhase account h0 h1 w)) USDC account
     - balanceOf w USDC account in
   filter isTransfer (txs (ClankerHarvest.harvestStep clankerCfg account feed h0 h1 w))
   = if ClankerHarvest.wantHarvest clankerCfg && ((h0 >? 0) || (h1 >? 0))
        && negb (ClankerHarvest.dryRun clankerCfg) && (gained >? 0)
     then match ClankerHarvest.harvestAddress clankerCfg with
          | Some vault => [Transfer USDC vault gained]
          | None => []
          end
     else []) /\
  (exists a0 a1 w1,
     filter isTransfer (txs (ClankerHarvest.main clankerCfg account feed w))
     = filter isTransfer (txs (ClankerHarvest.harvestStep clankerCfg account feed a0 a1 w1))) /\
  (let gained :=
     balanceOf (world (CompoundAndHarvest.swapPhase compoundCfg account poolKey h0 h1 w))
       USDC account
     - balanceOf w USDC account in
   filter isTransfer
     (txs (CompoundAndHarvest.harvestPhase compoundCfg account poolKey usd c0 c1 h0 h1 w))
   = if (h0 <=? 0) && (h1 <=? 0) then []
     else if gained <=? 0 then []
     else [Transfer USDC (CompoundAndHarvest.harvestAddress compoundCfg) gained]) /\
  (exists key usd' b0 b1 a0 a1 w1,
     filter isTransfer
       (txs (CompoundAndHarvest.main compoundCfg account feed tickToSqrtPriceX96 decimals w))
     = filter isTransfer
         (txs (CompoundAndHarvest.harvestPhase compoundCfg account key usd' b0 b1 a0 a1 w1))).
Proof.
  split; [apply clanker_harvestStep_transfers|].
  split; [apply clanker_main_transfers|].
  split; [apply compound_harvestPhase_transfers|].
  apply compound_main_transfers.
Qed.

(** ** The split *)

Lemma split_exact (total pct : Z) :
  fst (split total pct) + snd (split total pct) = total.
Proof. unfold split; cbn [fst snd]. lia. Qed.

(** Scenario A: half of one unit (six decimals) each way. *)
Example split_scenario_A : split 1000000 50 = (500000, 500000).
Proof. reflexivity. Qed.

(** C1: for every compound percentage in [0,100] and nonnegative totals T0
    and T1, the split gives each currency on its own the compound amount
    T * pct / 100 rounded down and the harvest amount T - compound, so that
    compound + harvest = T exactly. *)
Theorem split_conservation (pct T0 T1 : Z) :
  0 <= pct <= 100 -> 0 <= T0 -> 0 <= T1 ->
  (fst (split T0 pct) = T0 * pct / 100 /\
   100 * fst (split T0 pct) <= T0 * pct < 100 * fst (split T0 pct) + 100 /\
   snd (split T0 pct) = T0 - fst (split T0 pct) /\
   fst (split T0 pct) + snd (split T0 pct) = T0 /\
   0 <= fst (split T0 pct) <= T0) /\
  (fst (split T1 pct) = T1 * pct / 100 /\
   100 * fst (split T1 pct) <= T1 * pct < 100 * fst (split T1 pct) + 100 /\
   snd (split T1 pct) = T1 - fst (split T1 pct) /\
   fst (split T1 pct) + snd (split T1 pct) = T1 /\
   0 <= fst (split T1 pct) <= T1).
Proof.
  intros Hp H0 H1.
  assert (one : forall T, 0 <= T ->
    fst (split T pct) = T * pct / 100 /\
    100 * fst (split T pct) <= T * pct < 100 * fst (split T pct) + 100 /\
    snd (split T pct) = T - fst (split T pct) /\
    fst (split T pct) + snd (split T pct) = T /\
    0 <= fst (split T pct) <= T).
  { intros T HT. unfold split; cbn [fst snd].
    assert (Hq : Z.quot (T * pct) 100 = T * pct / 100)
      by (apply Z.quot_div_nonneg; nia).
    rewrite Hq.
    pose proof (Z.div_mod (T * pct) 100 ltac:(lia)) as Hd.
    pose proof (Z.mod_pos_bound (T * pct) 100 ltac:(lia)) as Hm.
    assert (0 <= T * pct) by nia.
    assert (T * pct <= T * 100) by nia.
    repeat split; lia. }
  split; apply one; assumption.
Qed.

Lemma split_conservation_witness :
  0 <= 50 <= 100 /\
  fst (split 1000000 50) + snd (split 1000000 50) = 1000000 /\
  fst (split 7 50) = 3 /\ snd (split 7 50) = 4.
Proof.
  split; [lia|].
  destruct (split_conservation 50 1000000 7) as [(_ & _ & _ & H & _) (E & _ & S & _)];
    try lia.
  split; [exact H|]. split; [exact E|]. rewrite S, E. reflexivity.
Defined.

(** ** Liquidity from amounts *)

Lemma Q96_pos : 0 < Q96.
Proof. reflexivity. Qed.

Lemma BigInt_div_nonzero a b : b <> 0 -> BigInt.div a b = Some (Z.quot a b).
Proof.
  intros H. unfold BigInt.div. destruct (Z.eqb_spec b 0); [contradiction | reflexivity].
Qed.

Lemma BigInt_min_is_min l0 l1 : BigInt.min l0 l1 = Z.min l0 l1.
Proof. unfold BigInt.min. destruct (Z.ltb_spec l0 l1); lia. Qed.

(** getLiquidityForAmounts puts its two bounds in order itself. *)
Lemma getLiquidityForAmounts_sorts p A B a0 a1 :
  CompoundAndHarvest.getLiquidityForAmounts p A B a0 a1 =
  CompoundAndHarvest.getLiquidityForAmounts p (Z.min A B) (Z.max A B) a0 a1.
Proof.
  unfold CompoundAndHarvest.getLiquidityForAmounts.
  destruct (Z.gtb_spec A B), (Z.gtb_spec (Z.min A B) (Z.max A B)); try lia.
  - rewrite Z.min_r, Z.max_l by lia. reflexivity.
  - rewrite Z.min_l, Z.max_r by lia. reflexivity.
Qed.

(** C5: with the bounds in order, the liquidity computation uses the token0
    formula alone when the current price is at or below the lower bound, the
    token1 formula alone when it is at or above the upper bound, and the
    smaller of the two per-token results when the price is strictly inside;
    this holds for getLiquidityForAmounts and for the computation written
    out in clanker-harvest's compound step. *)
Theorem liquidity_boundary_cases (p A B a0 a1 : Z) :
  A < B ->
  (p <= A ->
     CompoundAndHarvest.getLiquidityForAmounts p A B a0 a1
       = Some (Z.quot (a0 * Z.quot (A * B) Q96) (B - A)) /\
     ClankerHarvest.liquidityForAmounts p A B a0 a1
       = Some (Z.quot (a0 * A * B) ((B - A) * Q96))) /\
  (B <= p ->
     CompoundAndHarvest.getLiquidityForAmounts p A B a0 a1
       = Some (Z.quot (a1 * Q96) (B - A)) /\
     ClankerHarvest.liquidityForAmounts p A B a0 a1
       = Some (Z.quot (a1 * Q96) (B - A))) /\
  (A < p < B ->
     CompoundAndHarvest.getLiquidityForAmounts p A B a0 a1
       = Some (Z.min (Z.quot (a0 * Z.quot (p * B) Q96) (B - p))
                     (Z.quot (a1 * Q96) (p - A))) /\
     ClankerHarvest.liquidityForAmounts p A B a0 a1
       = Some (Z.min (Z.quot (a0 * p * B) ((B - p) * Q96))
                     (Z.quot (a1 * Q96) (p - A)))).
Proof.
  intros HAB. pose proof Q96_pos as HQ.
  unfold CompoundAndHarvest.getLiquidityForAmounts, ClankerHarvest.liquidityForAmounts,
    CompoundAndHarvest.liq0, CompoundAndHarvest.liq1.
  destruct (Z.gtb_spec A B); [lia|].
  split; [|split]; intros Hp; split.
  - destruct (Z.leb_spec p A); [|lia]. apply BigInt_div_nonzero; lia.
  - destruct (Z.leb_spec p A); [|lia]. apply BigInt_div_nonzero; nia.
  - destruct (Z.leb_spec p A); [lia|]. destruct (Z.ltb_spec p B); [lia|].
    apply BigInt_div_nonzero; lia.
  - destruct (Z.leb_spec p A); [lia|]. destruct (Z.geb_spec p B); [|lia].
    apply BigInt_div_nonzero; lia.
  - destruct (Z.leb_spec p A); [lia|]. destruct (Z.ltb_spec p B); [|lia].
    rewrite !BigInt_div_nonzero by lia. rewrite BigInt_min_is_min. reflexivity.
  - destruct (Z.leb_spec p A); [lia|]. destruct (Z.geb_spec p B); [lia|].
    rewrite !BigInt_div_nonzero by nia. rewrite BigInt_min_is_min. reflexivity.
Qed.

Lemma liquidity_boundary_cases_witness :
  CompoundAndHarvest.getLiquidityForAmounts 100 100 200 50 70
    = Some (Z.quot (50 * Z.quot (100 * 200) Q96) (200 - 100)) /\
  ClankerHarvest.liquidityForAmounts 200 100 200 50 70
    = Some (Z.quot (70 * Q96) (200 - 100)).
Proof.
  destruct (liquidity_boundary_cases 100 100 200 50 70 ltac:(lia)) as [L _].
  destruct (liquidity_boundary_cases 200 100 200 50 70 ltac:(lia)) as (_ & U & _).
  split; [apply L | apply U]; lia.
Defined.

(** ** The compound percentage *)

(** compound-and-harvest clamps what it was given before it splits. *)
Lemma clampPct_in_range (x : option Q) (p : Z) :
  BigInt.ofNumber (CompoundAndHarvest.clampPct x) = Some p -> 0 <= p <= 100.
Proof.
  destruct x as [q|]; simpl; [|discriminate].
  set (c := Qmax 0 (Qmin 100 q)).
  destruct (Qeq_bool (inject_Z (Qfloor c)) c); [|discriminate].
  intros E; injection E as <-.
  assert (L : (0 <= c)%Q) by apply Q.le_max_l.
  assert (U : (c <= 100)%Q).
  { apply Q.max_lub; [discriminate | apply Q.le_min_l]. }
  apply Qfloor_resp_le in L. apply Qfloor_resp_le in U.
  change (Qfloor 0) with 0 in L. change (Qfloor 100) with 100 in U. lia.
Qed.

(** ** Price lookups *)


(** ** The threshold *)

(** C3, as the code has it: when the minimum is positive, the claimed and
    collected totals are not both zero and their USD value, computed in
    double precision as the script computes it, is below the minimum, main
    sends nothing after the claim and collection steps (no
    compound, no swap, no transfer) and returns a result flagged
    below-threshold; the transactions of the claim and collection steps
    themselves are sent before the threshold is looked at. *)
Theorem threshold_gates_later_steps {chain : Chain}
    (cfg : ClankerHarvest.Config) (account : address) (feed : address -> Feed)
    (w : World) (poolKey : option PoolKey) (totalWeth totalToken : Z) :
  outcome (ClankerHarvest.feesPhase cfg account w) = Ret (poolKey, totalWeth, totalToken) ->
  (totalWeth =? 0) && (totalToken =? 0) = false ->
  (0 <? ClankerHarvest.minUsd cfg)%float = true ->
  (ClankerHarvest.usdValue cfg feed totalWeth totalToken <? ClankerHarvest.minUsd cfg)%float
  = true ->
  ClankerHarvest.main cfg account feed w
  = mkRun
      (Ret (ClankerHarvest.mkResult
              (ClankerHarvest.usdValue cfg feed totalWeth totalToken) (Some 0) 0%float
              true))
      (world (ClankerHarvest.feesPhase cfg account w))
      (txs (ClankerHarvest.feesPhase cfg account w))
      (out (ClankerHarvest.feesPhase cfg account w) ++ [LogBelowThreshold]) /\
  Forall gathersFees (txs (ClankerHarvest.main cfg account feed w)).
Proof.
  intros Hfees Hnz Hmin Hlt.
  assert (E : ClankerHarvest.main cfg account feed w
              = mkRun
                  (Ret (ClankerHarvest.mkResult
                          (ClankerHarvest.usdValue cfg feed totalWeth totalToken)
                          (Some 0) 0%float true))
                  (world (ClankerHarvest.feesPhase cfg account w))
                  (txs (ClankerHarvest.feesPhase cfg account w))
                  (out (ClankerHarvest.feesPhase cfg account w) ++ [LogBelowThreshold])).
  { unfold ClankerHarvest.main, bind at 1. rewrite Hfees.
    unfold ClankerHarvest.processTotals.
    rewrite Hnz, Hmin, Hlt.
    cbn [andb bind print ret outcome world txs out app]. rewrite app_nil_r. reflexivity. }
  split; [exact E|].
  rewrite E. cbn [txs]. apply clanker_feesPhase_gathers.
Qed.

(** ** Dry runs *)

(** C4, as the code has it: with the dry-run flag set neither script sends a
    transaction, whatever the threshold and the split.  clanker-harvest then
    works on the amounts the fee contract reports as available, with nothing
    from the position, and computes its split from those, where a live run
    adds to the same amounts what the collection brought in;
    compound-and-harvest reads the position and stops before any split. *)
Theorem dry_run_sends_nothing {chain : Chain}
    (clankerCfg : ClankerHarvest.Config) (compoundCfg : CompoundAndHarvest.Config)
    (account : address) (feed : address -> Feed)
    (tickToSqrtPriceX96 : Z -> option Z) (decimals : address -> Z) (w : World) :
  (ClankerHarvest.dryRun clankerCfg = true ->
   txs (ClankerHarvest.main clankerCfg account feed w) = [] /\
   world (ClankerHarvest.main clankerCfg account feed w) = w /\
   ClankerHarvest.main clankerCfg account feed w
   = ClankerHarvest.processTotals clankerCfg account feed
       (match (if ClankerHarvest.skipLp clankerCfg then None
               else ClankerHarvest.tokenId clankerCfg) with
        | Some tid => Some (fst (getPoolAndPositionInfo w tid))
        | None => None
        end)
       (if ClankerHarvest.skipClaim clankerCfg then 0
        else availableFees w (ClankerHarvest.feeContract clankerCfg) account WETH)
       (if ClankerHarvest.skipClaim clankerCfg then 0
        else availableFees w (ClankerHarvest.feeContract clankerCfg) account
               (ClankerHarvest.token clankerCfg))
       w) /\
  (forall poolKey totalWeth totalToken,
   ClankerHarvest.dryRun clankerCfg = false ->
   0 <= availableFees w (ClankerHarvest.feeContract clankerCfg) account WETH ->
   0 <= availableFees w (ClankerHarvest.feeContract clankerCfg) account
          (ClankerHarvest.token clankerCfg) ->
   outcome (ClankerHarvest.feesPhase clankerCfg account w)
     = Ret (poolKey, totalWeth, totalToken) ->
   exists lpWeth lpToken,
     outcome (ClankerHarvest.collectStep clankerCfg account
                (world (ClankerHarvest.claimStep clankerCfg account w)))
       = Ret (lpWeth, lpToken, poolKey) /\
     totalWeth
       = (if ClankerHarvest.skipClaim clankerCfg then 0
          else availableFees w (ClankerHarvest.feeContract clankerCfg) account WETH)
         + lpWeth /\
     totalToken
       = (if ClankerHarvest.skipClaim clankerCfg then 0
          else availableFees w (ClankerHarvest.feeContract clankerCfg) account
                 (ClankerHarvest.token clankerCfg))
         + lpToken) /\
  (CompoundAndHarvest.dryRun compoundCfg = true ->
   txs (CompoundAndHarvest.main compoundCfg account feed tickToSqrtPriceX96 decimals w) = [] /\
   world (CompoundAndHarvest.main compoundCfg account feed tickToSqrtPriceX96 decimals w) = w /\
   filter isSplitLine
     (out (CompoundAndHarvest.main compoundCfg account feed tickToSqrtPriceX96 decimals w))
   = [] /\
   exists code,
     outcome (CompoundAndHarvest.main compoundCfg account feed tickToSqrtPriceX96 decimals w)
     = Exit code).
Proof.
  split; [|split]; [intros Hdry | intros poolKey totalWeth totalToken | intros Hdry].
  2: apply clanker_feesPhase_live.
  - assert (E : ClankerHarvest.main clankerCfg account feed w
                = ClankerHarvest.processTotals clankerCfg account feed
                    (match (if ClankerHarvest.skipLp clankerCfg then None
                            else ClankerHarvest.tokenId clankerCfg) with
                     | Some tid => Some (fst (getPoolAndPositionInfo w tid))
                     | None => None
                     end)
                    (if ClankerHarvest.skipClaim clankerCfg then 0
                     else availableFees w (ClankerHarvest.feeContract clankerCfg) account WETH)
                    (if ClankerHarvest.skipClaim clankerCfg then 0
                     else availableFees w (ClankerHarvest.feeContract clankerCfg) account
                            (ClankerHarvest.token clankerCfg))
                    w).
    { unfold ClankerHarvest.main.
      rewrite (bind_of_ret _ _ _ _ (clanker_feesPhase_dry clankerCfg account w Hdry)).
      reflexivity. }
    rewrite E.
    destruct (clanker_processTotals_dry clankerCfg account feed
                (match (if ClankerHarvest.skipLp clankerCfg then None
                        else ClankerHarvest.tokenId clankerCfg) with
                 | Some tid => Some (fst (getPoolAndPositionInfo w tid))
                 | None => None
                 end)
                (if ClankerHarvest.skipClaim clankerCfg then 0
                 else availableFees w (ClankerHarvest.feeContract clankerCfg) account WETH)
                (if ClankerHarvest.skipClaim clankerCfg then 0
                 else availableFees w (ClankerHarvest.feeContract clankerCfg) account
                        (ClankerHarvest.token clankerCfg))
                Hdry w) as [T W].
    auto.
  - rewrite (compound_main_dry compoundCfg account feed tickToSqrtPriceX96 decimals w Hdry).
    destruct (negb (ownerOf w (CompoundAndHarvest.tokenId compoundCfg) =? account));
      [split; [|split; [|split]]; try reflexivity; eexists; reflexivity|].
    destruct (getPositionLiquidity w (CompoundAndHarvest.tokenId compoundCfg) =? 0);
      (split; [|split; [|split]]); try reflexivity; eexists; reflexivity.
Qed.

(** ** What the transactions of a run look like *)

Section SendsMore.
Context {chain : Chain}.

Lemma sends_bind_ret P {A B} (a : A) (k : A -> M B) :
  sends P (k a) -> sends P (bind (ret a) k).
Proof. intros H w. rewrite bind_ret. apply H. Qed.

Lemma sends_bind_throw P {A B} (k : A -> M B) : sends P (bind throw k).
Proof. intros w. constructor. Qed.

Lemma fitsUint_bounds bits x : fitsUint bits x = true -> 0 <= x < 2 ^ bits.
Proof.
  unfold fitsUint. intros H. apply andb_true_iff in H as [L U].
  apply Z.leb_le in L. apply Z.ltb_lt in U. lia.
Qed.

End SendsMore.

(** Walks down a program and keeps what each test has established. *)
Ltac sends_steps leaf :=
  repeat first
    [ match goal with
      | |- sends _ (bind (orThrow ?o) _) =>
          destruct o eqn:?; cbn [orThrow]; [apply sends_bind_ret | apply sends_bind_throw]
      end
    | apply sends_bind; [| intros ?]
    | apply sends_tryCatch
    | apply sends_sendTx; solve [leaf]
    | solve [auto with sends]
    | match goal with
      | |- sends _ (if ?x >? ?y then _ else _) => destruct (Z.gtb_spec x y)
      | |- sends _ (if ?x <=? ?y then _ else _) => destruct (Z.leb_spec x y)
      | |- sends _ (if ?x =? ?y then _ else _) => destruct (Z.eqb_spec x y)
      | |- sends _ (match ?x with _ => _ end) => destruct x eqn:?
      | |- sends _ (if ?b then _ else _) => destruct b eqn:?
      end ].

Ltac plain_leaf := cbn; repeat split; auto; lia.

Section CompoundAndHarvestSends.
Context {chain : Chain}.
Variable account : address.

(** The transactions swapToUsdc can send, each in its exact form. *)
Lemma swapToUsdc_sends_exactly (P : Tx -> Prop) tokenAddress amount slippagePct v4PoolKey :
  (forall t, P (Approve t PERMIT2 maxUint256)) ->
  (forall t, P (Approve t SWAP_ROUTER maxUint256)) ->
  (forall t, P (Permit2Approve t UNIVERSAL_ROUTER maxUint160 maxUint48)) ->
  (forall a, 0 < a ->
     P (ExactInputSingle SWAP_ROUTER (mkExactInputSingle WETH USDC 500 account a 0 0))) ->
  (forall pk z a, 0 < a -> P (Execute (mkV4Swap pk z a 0 0))) ->
  sends P (CompoundAndHarvest.swapToUsdc account tokenAddress amount slippagePct v4PoolKey).
Proof.
  intros HP HS H2 HE HX. rewrite swapToUsdc_unfold.
  destruct (Z.leb_spec amount 0); [apply sends_ret|].
  unfold CompoundAndHarvest.swapWethDirect, CompoundAndHarvest.swapViaV4ToWeth.
  sends_steps ltac:(auto).
  rewrite swapToUsdc_weth. unfold CompoundAndHarvest.swapWethDirect.
  sends_steps ltac:(auto).
Qed.

End CompoundAndHarvestSends.

(** X1: every approval either script sends grants the maximum amount, and
    only to Permit2, to SwapRouter02, or through Permit2 to the Universal
    Router. *)
Theorem approvals_are_unlimited {chain : Chain}
    (clankerCfg : ClankerHarvest.Config) (compoundCfg : CompoundAndHarvest.Config)
    (account : address) (feed : address -> Feed)
    (tickToSqrtPriceX96 : Z -> option Z) (decimals : address -> Z) (w : World) :
  Forall unlimitedApproval (txs (ClankerHarvest.main clankerCfg account feed w)) /\
  Forall unlimitedApproval
    (txs (CompoundAndHarvest.main compoundCfg account feed tickToSqrtPriceX96 decimals w)).
Proof.
  split.
  - revert w.
    change (sends unlimitedApproval (ClankerHarvest.main clankerCfg account feed)).
    unfold ClankerHarvest.main, ClankerHarvest.feesPhase, ClankerHarvest.processTotals,
      ClankerHarvest.claimStep, ClankerHarvest.collectStep, ClankerHarvest.compoundStep,
      ClankerHarvest.harvestStep, ClankerHarvest.transferStep, ClankerHarvest.swapPhase,
      ClankerHarvest.compoundBody, ClankerHarvest.approvePermit2IfNeeded.
    sends_steps plain_leaf.
  - revert w.
    change (sends unlimitedApproval
              (CompoundAndHarvest.main compoundCfg account feed tickToSqrtPriceX96 decimals)).
    unfold CompoundAndHarvest.main, CompoundAndHarvest.harvestPhase,
      CompoundAndHarvest.swapPhase, CompoundAndHarvest.compoundPhase,
      CompoundAndHarvest.addLiquidity, CompoundAndHarvest.collectFees,
      CompoundAndHarvest.approvePermit2IfNeeded.
    sends_steps plain_leaf; apply swapToUsdc_sends_exactly; intros; cbn; auto.
Qed.

Ltac fits_leaf :=
  repeat match goal with
         | H : _ && _ = true |- _ => apply andb_true_iff in H as [? ?]
         end;
  repeat match goal with
         | H : fitsUint _ _ = true |- _ => apply fitsUint_bounds in H
         end;
  repeat match goal with
         | H : (if ?b then None else _) = Some _ |- _ =>
             destruct b; [discriminate H |]
         end;
  cbn [collectsTo raisesLiquidity paysWalletOrVault swapsWethOnly
       tokenIn tokenOut poolFee recipient amountIn];
  repeat split; auto; lia.

Ltac unfold_clanker :=
  unfold ClankerHarvest.main, ClankerHarvest.feesPhase, ClankerHarvest.processTotals,
    ClankerHarvest.claimStep, ClankerHarvest.collectStep, ClankerHarvest.compoundStep,
    ClankerHarvest.harvestStep, ClankerHarvest.transferStep, ClankerHarvest.swapPhase,
    ClankerHarvest.compoundBody, ClankerHarvest.approvePermit2IfNeeded.

Ltac unfold_compound :=
  unfold CompoundAndHarvest.main, CompoundAndHarvest.harvestPhase,
    CompoundAndHarvest.swapPhase, CompoundAndHarvest.compoundPhase,
    CompoundAndHarvest.addLiquidity, CompoundAndHarvest.collectFees,
    CompoundAndHarvest.approvePermit2IfNeeded.

(** X2: every collection either script sends is a decrease by zero liquidity
    with zero minimum amounts on the configured position, closed to the
    wallet itself: collecting never removes liquidity. *)
Theorem collection_removes_no_liquidity {chain : Chain}
    (clankerCfg : ClankerHarvest.Config) (compoundCfg : CompoundAndHarvest.Config)
    (account : address) (feed : address -> Feed)
    (tickToSqrtPriceX96 : Z -> option Z) (decimals : address -> Z) (w : World) :
  Forall (collectsTo (ClankerHarvest.tokenId clankerCfg) account)
    (txs (ClankerHarvest.main clankerCfg account feed w)) /\
  Forall (collectsTo (Some (CompoundAndHarvest.tokenId compoundCfg)) account)
    (txs (CompoundAndHarvest.main compoundCfg account feed tickToSqrtPriceX96 decimals w)).
Proof.
  split.
  - revert w.
    change (sends (collectsTo (ClankerHarvest.tokenId clankerCfg) account)
              (ClankerHarvest.main clankerCfg account feed)).
    unfold_clanker. sends_steps fits_leaf.
  - revert w.
    change (sends (collectsTo (Some (CompoundAndHarvest.tokenId compoundCfg)) account)
              (CompoundAndHarvest.main compoundCfg account feed tickToSqrtPriceX96 decimals)).
    unfold_compound.
    sends_steps fits_leaf; apply swapToUsdc_sends_exactly; intros; exact I.
Qed.

(** X3: every increase of liquidity either script sends is for the
    configured position, carries a strictly positive liquidity, and maximum
    amounts within uint128: a liquidity that came out zero or negative is
    never submitted. *)
Theorem increase_has_positive_liquidity {chain : Chain}
    (clankerCfg : ClankerHarvest.Config) (compoundCfg : CompoundAndHarvest.Config)
    (account : address) (feed : address -> Feed)
    (tickToSqrtPriceX96 : Z -> option Z) (decimals : address -> Z) (w : World) :
  Forall (raisesLiquidity (ClankerHarvest.tokenId clankerCfg))
    (txs (ClankerHarvest.main clankerCfg account feed w)) /\
  Forall (raisesLiquidity (Some (CompoundAndHarvest.tokenId compoundCfg)))
    (txs (CompoundAndHarvest.main compoundCfg account feed tickToSqrtPriceX96 decimals w)).
Proof.
  split.
  - revert w.
    change (sends (raisesLiquidity (ClankerHarvest.tokenId clankerCfg))
              (ClankerHarvest.main clankerCfg account feed)).
    unfold_clanker. sends_steps fits_leaf.
  - revert w.
    change (sends (raisesLiquidity (Some (CompoundAndHarvest.tokenId compoundCfg)))
              (CompoundAndHarvest.main compoundCfg account feed tickToSqrtPriceX96 decimals)).
    unfold_compound.
    sends_steps fits_leaf; apply swapToUsdc_sends_exactly; intros; exact I.
Qed.

(** X4: every transaction of either script that names who receives what it
    pays out names the wallet itself, with one exception, the transfer, which
    sends a positive amount of USDC to the configured vault address: a claim
    is made for the wallet as fee owner, a collection is closed to the
    wallet, and a SwapRouter02 swap, always of a positive WETH amount into
    USDC through the 0.05% pool, is paid to the wallet.  Approvals,
    increases of liquidity and Universal Router swaps carry no receiver. *)
Theorem payouts_go_to_wallet_or_vault {chain : Chain}
    (clankerCfg : ClankerHarvest.Config) (compoundCfg : CompoundAndHarvest.Config)
    (account : address) (feed : address -> Feed)
    (tickToSqrtPriceX96 : Z -> option Z) (decimals : address -> Z) (w : World) :
  Forall (paysWalletOrVault account (ClankerHarvest.harvestAddress clankerCfg))
    (txs (ClankerHarvest.main clankerCfg account feed w)) /\
  Forall (paysWalletOrVault account (Some (CompoundAndHarvest.harvestAddress compoundCfg)))
    (txs (CompoundAndHarvest.main compoundCfg account feed tickToSqrtPriceX96 decimals w)).
Proof.
  split.
  - revert w.
    change (sends (paysWalletOrVault account (ClankerHarvest.harvestAddress clankerCfg))
              (ClankerHarvest.main clankerCfg account feed)).
    unfold_clanker. sends_steps fits_leaf.
  - revert w.
    change (sends (paysWalletOrVault account
                     (Some (CompoundAndHarvest.harvestAddress compoundCfg)))
              (CompoundAndHarvest.main compoundCfg account feed tickToSqrtPriceX96 decimals)).
    unfold_compound.
    sends_steps fits_leaf; apply swapToUsdc_sends_exactly; intros;
      cbn [paysWalletOrVault tokenIn tokenOut poolFee recipient amountIn]; auto 10.
Qed.

(** X5: clanker-harvest never calls the Universal Router and never calls
    Permit2's approve (its ERC-20 approvals to the Permit2 contract, sent
    before a collection, are another matter).  Every swap it
    sends is a SwapRouter02 swap of WETH into USDC and its only approval of
    SwapRouter02 is WETH's; the token amount of the harvest changes nothing
    in what the swap phase sends: the token share is reported, not
    swapped. *)
Theorem clanker_never_swaps_token {chain : Chain}
    (cfg : ClankerHarvest.Config) (account : address) (feed : address -> Feed)
    (harvestWeth harvestToken : Z) (w : World) :
  Forall swapsWethOnly (txs (ClankerHarvest.main cfg account feed w)) /\
  txs (ClankerHarvest.swapPhase account harvestWeth harvestToken w)
  = txs (ClankerHarvest.swapPhase account harvestWeth 0 w).
Proof.
  split.
  - revert w.
    change (sends swapsWethOnly (ClankerHarvest.main cfg account feed)).
    unfold_clanker. sends_steps fits_leaf.
  - unfold ClankerHarvest.swapPhase. rewrite !txs_bind. f_equal.
    destruct (outcome _) as [[]| |]; [|reflexivity|reflexivity].
    unfold when. destruct (harvestToken >? 0); reflexivity.
Qed.

(** ** Which steps a configuration switches off *)

(** X6: clanker-harvest sends no increase of liquidity when no position id is
    configured or the compound percentage is zero, negative or not a number,
    and sends no swap, no router approval and no transfer when no vault
    address is configured or the compound percentage is 100 or more or not a
    number. *)
Theorem clanker_config_disables_steps {chain : Chain}
    (cfg : ClankerHarvest.Config) (account : address) (feed : address -> Feed)
    (w : World) :
  (ClankerHarvest.tokenId cfg = None \/ ClankerHarvest.compoundPct cfg = None \/
   (exists p, ClankerHarvest.compoundPct cfg = Some p /\ p <= 0) ->
   Forall (fun t => isIncrease t = false) (txs (ClankerHarvest.main cfg account feed w))) /\
  (ClankerHarvest.harvestAddress cfg = None \/ ClankerHarvest.compoundPct cfg = None \/
   (exists p, ClankerHarvest.compoundPct cfg = Some p /\ 100 <= p) ->
   Forall (fun t => isHarvestTx t = false) (txs (ClankerHarvest.main cfg account feed w))).
Proof.
  split; intros H.
  - assert (E : ClankerHarvest.wantCompound cfg = false).
    { unfold ClankerHarvest.wantCompound, ClankerHarvest.positive, ClankerHarvest.isSome.
      destruct H as [-> | [-> | (p & -> & Hp)]]; [apply andb_false_r | reflexivity |].
      destruct (Z.gtb_spec p 0); [lia | reflexivity]. }
    revert w.
    change (sends (fun t => isIncrease t = false) (ClankerHarvest.main cfg account feed)).
    unfold_clanker. rewrite E. cbn [andb].
    sends_steps ltac:(reflexivity).
  - assert (E : ClankerHarvest.wantHarvest cfg = false).
    { unfold ClankerHarvest.wantHarvest, ClankerHarvest.harvestPct,
        ClankerHarvest.positive, ClankerHarvest.isSome.
      destruct H as [-> | [-> | (p & -> & Hp)]]; [apply andb_false_r | reflexivity |].
      cbn [option_map]. destruct (Z.gtb_spec (100 - p) 0); [lia | reflexivity]. }
    revert w.
    change (sends (fun t => isHarvestTx t = false) (ClankerHarvest.main cfg account feed)).
    unfold_clanker. rewrite E. cbn [andb].
    sends_steps ltac:(reflexivity).
Qed.

(** X7: when nothing was claimed and nothing collected clanker-harvest stops
    with the result {totalUsd: 0, compounded: 0, harvested: 0}, which carries
    no below-threshold flag whatever the minimum is; in particular a run
    with both fee sources switched off sends nothing at all. *)
Theorem clanker_nothing_to_process {chain : Chain}
    (cfg : ClankerHarvest.Config) (account : address) (feed : address -> Feed)
    (w : World) (poolKey : option PoolKey) :
  (outcome (ClankerHarvest.feesPhase cfg account w) = Ret (poolKey, 0, 0) ->
   ClankerHarvest.main cfg account feed w
   = mkRun (Ret (ClankerHarvest.mkResult 0%float (Some 0) 0%float false))
       (world (ClankerHarvest.feesPhase cfg account w))
       (txs (ClankerHarvest.feesPhase cfg account w))
       (out (ClankerHarvest.feesPhase cfg account w) ++ [LogNothingToProcess])) /\
  (ClankerHarvest.skipClaim cfg = true ->
   ClankerHarvest.skipLp cfg = true \/ ClankerHarvest.tokenId cfg = None ->
   ClankerHarvest.main cfg account feed w
   = mkRun (Ret (ClankerHarvest.mkResult 0%float (Some 0) 0%float false)) w [] [LogNothingToProcess]).
Proof.
  split.
  - intros Hfees. unfold ClankerHarvest.main, bind at 1. rewrite Hfees.
    unfold ClankerHarvest.processTotals.
    cbn [Z.eqb andb bind print ret outcome world txs out app]. rewrite app_nil_r.
    reflexivity.
  - intros Hclaim Hlp.
    assert (E : ClankerHarvest.feesPhase cfg account w = ret (None, 0, 0) w).
    { unfold ClankerHarvest.feesPhase, ClankerHarvest.claimStep, ClankerHarvest.collectStep.
      rewrite Hclaim.
      destruct Hlp as [-> | ->]; [|destruct (ClankerHarvest.skipLp cfg)]; reflexivity. }
    unfold ClankerHarvest.main. rewrite (bind_of_ret _ _ _ _ E). reflexivity.
Qed.

(** X8: a compound percentage that is not a number is found out only at the
    split: when the totals are not both zero and the script's test, made in
    double precision, does not find them below the threshold,
    clanker-harvest raises there, after every claim and collection
    transaction of the run has been sent, and sends nothing more. *)
Theorem clanker_nan_percentage_raises_late {chain : Chain}
    (cfg : ClankerHarvest.Config) (account : address) (feed : address -> Feed)
    (w : World) (poolKey : option PoolKey) (totalWeth totalToken : Z) :
  ClankerHarvest.compoundPct cfg = None ->
  outcome (ClankerHarvest.feesPhase cfg account w) = Ret (poolKey, totalWeth, totalToken) ->
  (totalWeth =? 0) && (totalToken =? 0) = false ->
  (0 <? ClankerHarvest.minUsd cfg)%float
  && (ClankerHarvest.usdValue cfg feed totalWeth totalToken <? ClankerHarvest.minUsd cfg)%float
  = false ->
  ClankerHarvest.main cfg account feed w
  = mkRun Throw
      (world (ClankerHarvest.feesPhase cfg account w))
      (txs (ClankerHarvest.feesPhase cfg account w))
      (out (ClankerHarvest.feesPhase cfg account w)).
Proof.
  intros Hnan Hfees Hnz Hmin.
  unfold ClankerHarvest.main, bind at 1. rewrite Hfees.
  unfold ClankerHarvest.processTotals. rewrite Hnz, Hmin, Hnan.
  cbn [orThrow bind throw outcome world txs out]. rewrite !app_nil_r. reflexivity.
Qed.

(** ** How compound-and-harvest stops early *)

Section CompoundAndHarvestStops.
Context {chain : Chain}.
Variable cfg : CompoundAndHarvest.Config.
Variable account : address.
Variable feed : address -> Feed.
Variable tickToSqrtPriceX96 : Z -> option Z.
Variable decimals : address -> Z.

Lemma bind_sendTx {B} t (k : bool -> M B) w :
  bind (sendTx account t) k w =
  match send w account t with
  | (Rejected, w') => mkRun Throw w' [t] []
  | (Mined ok, w') =>
      mkRun (outcome (k ok w')) (world (k ok w')) (t :: txs (k ok w')) (out (k ok w'))
  end.
Proof.
  unfold bind, sendTx. destruct (send w account t) as [[|ok] w']; reflexivity.
Qed.

(** main up to the collection, for a live run on an owned position that has
    liquidity. *)
Lemma compound_main_collects w :
  ownerOf w (CompoundAndHarvest.tokenId cfg) = account ->
  getPositionLiquidity w (CompoundAndHarvest.tokenId cfg) <> 0 ->
  CompoundAndHarvest.dryRun cfg = false ->
  exists rest,
    CompoundAndHarvest.main cfg account feed tickToSqrtPriceX96 decimals w =
    bind (CompoundAndHarvest.collectFees cfg account
            (fst (getPoolAndPositionInfo w (CompoundAndHarvest.tokenId cfg))))
      (fun collected =>
         if negb collected then exit 1 else
         token0After <- read (fun w' =>
           balanceOf w' (currency0 (fst (getPoolAndPositionInfo w (CompoundAndHarvest.tokenId cfg))))
             account) ;;
         token1After <- read (fun w' =>
           balanceOf w' (currency1 (fst (getPoolAndPositionInfo w (CompoundAndHarvest.tokenId cfg))))
             account) ;;
         if (token0After
             - balanceOf w (currency0 (fst (getPoolAndPositionInfo w
                                              (CompoundAndHarvest.tokenId cfg)))) account
             <=? 0)
            && (token1After
                - balanceOf w (currency1 (fst (getPoolAndPositionInfo w
                                                 (CompoundAndHarvest.tokenId cfg)))) account
                <=? 0)
         then exit 0
         else rest token0After token1After) w.
Proof.
  intros Hown Hliq Hlive. unfold CompoundAndHarvest.main.
  rewrite bind_read, Hown, Z.eqb_refl. cbn [negb].
  rewrite bind_read.
  destruct (getPoolAndPositionInfo w (CompoundAndHarvest.tokenId cfg)) as [poolKey posInfo].
  rewrite bind_read. destruct (Z.eqb_spec (getPositionLiquidity w (CompoundAndHarvest.tokenId cfg)) 0);
    [contradiction|].
  rewrite bind_read. destruct (getSlot0 w poolKey) as [sqrtPriceX96 tick].
  destruct (CompoundAndHarvest.tickRange posInfo) as [tickLower tickUpper].
  rewrite !bind_read, Hlive. cbn [fst].
  eexists (fun token0After token1After => _).
  apply bind_ext; intros collected w1.
  destruct (negb collected); [reflexivity|].
  apply bind_ext; intros token0After w2.
  apply bind_ext; intros token1After w3.
  cbv zeta.
  match goal with |- (if ?c then _ else _) _ = _ => destruct c end; reflexivity.
Qed.

End CompoundAndHarvestStops.

(** X9: compound-and-harvest checks ownership and liquidity before it sends
    anything: when the wallet does not own the position it exits with code 1,
    and when the position has no liquidity it exits with code 0, in both
    cases without a transaction. *)
Theorem compound_checks_before_sending {chain : Chain}
    (cfg : CompoundAndHarvest.Config) (account : address) (feed : address -> Feed)
    (tickToSqrtPriceX96 : Z -> option Z) (decimals : address -> Z) (w : World) :
  (ownerOf w (CompoundAndHarvest.tokenId cfg) <> account ->
   CompoundAndHarvest.main cfg account feed tickToSqrtPriceX96 decimals w
   = mkRun (Exit 1) w [] []) /\
  (ownerOf w (CompoundAndHarvest.tokenId cfg) = account ->
   getPositionLiquidity w (CompoundAndHarvest.tokenId cfg) = 0 ->
   CompoundAndHarvest.main cfg account feed tickToSqrtPriceX96 decimals w
   = mkRun (Exit 0) w [] []).
Proof.
  split.
  - intros Hown. unfold CompoundAndHarvest.main. rewrite bind_read.
    destruct (Z.eqb_spec (ownerOf w (CompoundAndHarvest.tokenId cfg)) account);
      [contradiction | reflexivity].
  - intros Hown Hliq. unfold CompoundAndHarvest.main.
    rewrite bind_read, Hown, Z.eqb_refl. cbn [negb]. rewrite bind_read.
    destruct (getPoolAndPositionInfo w (CompoundAndHarvest.tokenId cfg)) as [poolKey posInfo].
    rewrite bind_read, Hliq. reflexivity.
Qed.

(** X10: in a live run of compound-and-harvest on an owned position with
    liquidity the collection is the first transaction; when its receipt is
    not a success the run exits with code 1, when sending it raises the run
    raises, and when it brought in nothing (neither balance grew) the run
    exits with code 0; in all three cases the collection is the only
    transaction and no split is printed. *)
Theorem compound_collection_failure_stops {chain : Chain}
    (cfg : CompoundAndHarvest.Config) (account : address) (feed : address -> Feed)
    (tickToSqrtPriceX96 : Z -> option Z) (decimals : address -> Z) (w w' : World) :
  ownerOf w (CompoundAndHarvest.tokenId cfg) = account ->
  getPositionLiquidity w (CompoundAndHarvest.tokenId cfg) <> 0 ->
  CompoundAndHarvest.dryRun cfg = false ->
  let poolKey := fst (getPoolAndPositionInfo w (CompoundAndHarvest.tokenId cfg)) in
  let collect :=
    ModifyLiquidities
      (DecreaseClose (CompoundAndHarvest.tokenId cfg) 0 0 0
         (currency0 poolKey) (currency1 poolKey) account) in
  (send w account collect = (Mined false, w') ->
   CompoundAndHarvest.main cfg account feed tickToSqrtPriceX96 decimals w
   = mkRun (Exit 1) w' [collect] []) /\
  (send w account collect = (Rejected, w') ->
   CompoundAndHarvest.main cfg account feed tickToSqrtPriceX96 decimals w
   = mkRun Throw w' [collect] []) /\
  (send w account collect = (Mined true, w') ->
   balanceOf w' (currency0 poolKey) account <= balanceOf w (currency0 poolKey) account ->
   balanceOf w' (currency1 poolKey) account <= balanceOf w (currency1 poolKey) account ->
   CompoundAndHarvest.main cfg account feed tickToSqrtPriceX96 decimals w
   = mkRun (Exit 0) w' [collect] []).
Proof.
  intros Hown Hliq Hlive poolKey collect.
  destruct (compound_main_collects cfg account feed tickToSqrtPriceX96 decimals w
              Hown Hliq Hlive) as [rest E].
  fold poolKey in E. rewrite E. unfold CompoundAndHarvest.collectFees. fold collect.
  rewrite bind_sendTx.
  split; [|split].
  - intros ->. reflexivity.
  - intros ->. reflexivity.
  - intros -> H0 H1. cbn [negb]. rewrite !bind_read.
    destruct (Z.leb_spec (balanceOf w' (currency0 poolKey) account
                          - balanceOf w (currency0 poolKey) account) 0); [|lia].
    destruct (Z.leb_spec (balanceOf w' (currency1 poolKey) account
                          - balanceOf w (currency1 poolKey) account) 0); [|lia].
    reflexivity.
Qed.

(** ** The flags of compound-and-harvest *)

Section CompoundAndHarvestFlags.
Context {chain : Chain}.
Variable account : address.
Variable feed : address -> Feed.
Variable tickToSqrtPriceX96 : Z -> option Z.
Variable decimals : address -> Z.

Lemma bind_cong {A B} (m m' : M A) (k k' : A -> M B) w :
  m w = m' w -> (forall a w', k a w' = k' a w') -> bind m k w = bind m' k' w.
Proof.
  intros Hm Hk. unfold bind. rewrite Hm.
  destruct (outcome (m' w)); [rewrite Hk|..]; reflexivity.
Qed.

Lemma tryCatch_cong {A} (m m' h : M A) w :
  m w = m' w -> tryCatch m h w = tryCatch m' h w.
Proof. intros Hm. unfold tryCatch. rewrite Hm. reflexivity. Qed.

Lemma compound_swapPhase_slippage_free tid vault pct dry s1 s2 poolKey h0 h1 w :
  CompoundAndHarvest.swapPhase (CompoundAndHarvest.mkConfig tid vault pct dry s1)
    account poolKey h0 h1 w
  = CompoundAndHarvest.swapPhase (CompoundAndHarvest.mkConfig tid vault pct dry s2)
      account poolKey h0 h1 w.
Proof.
  unfold CompoundAndHarvest.swapPhase. cbn [CompoundAndHarvest.slippage].
  apply bind_cong.
  - destruct (h0 >? 0); [|reflexivity].
    apply tryCatch_cong, bind_cong; [apply swapToUsdc_slippage_free | reflexivity].
  - intros _ w1. destruct (h1 >? 0); [|reflexivity].
    apply tryCatch_cong, bind_cong; [apply swapToUsdc_slippage_free | reflexivity].
Qed.

Lemma compound_harvestPhase_slippage_free tid vault pct dry s1 s2 poolKey usd c0 c1 h0 h1 w :
  CompoundAndHarvest.harvestPhase (CompoundAndHarvest.mkConfig tid vault pct dry s1)
    account poolKey usd c0 c1 h0 h1 w
  = CompoundAndHarvest.harvestPhase (CompoundAndHarvest.mkConfig tid vault pct dry s2)
      account poolKey usd c0 c1 h0 h1 w.
Proof.
  unfold CompoundAndHarvest.harvestPhase. cbn [CompoundAndHarvest.harvestAddress].
  destruct ((h0 <=? 0) && (h1 <=? 0)); [reflexivity|].
  rewrite !bind_read.
  apply bind_cong; [apply compound_swapPhase_slippage_free | reflexivity].
Qed.

Lemma compound_main_slippage_free tid vault pct dry s1 s2 w :
  CompoundAndHarvest.main (CompoundAndHarvest.mkConfig tid vault pct dry s1)
    account feed tickToSqrtPriceX96 decimals w
  = CompoundAndHarvest.main (CompoundAndHarvest.mkConfig tid vault pct dry s2)
      account feed tickToSqrtPriceX96 decimals w.
Proof.
  unfold CompoundAndHarvest.main, CompoundAndHarvest.collectFees,
    CompoundAndHarvest.compoundPhase, CompoundAndHarvest.addLiquidity,
    CompoundAndHarvest.approvePermit2IfNeeded.
  cbn [CompoundAndHarvest.tokenId CompoundAndHarvest.harvestAddress
       CompoundAndHarvest.compoundPct CompoundAndHarvest.compoundPctArg
       CompoundAndHarvest.dryRun CompoundAndHarvest.slippage].
  repeat first
    [ apply compound_harvestPhase_slippage_free
    | match goal with |- ?x = ?x => reflexivity end
    | apply bind_cong; [reflexivity | intros ? ?]
    | match goal with
      | |- (if ?c then _ else _) _ = _ => destruct c
      | |- (match ?x with _ => _ end) _ = _ => destruct x
      end ].
Qed.

Variable cfg : CompoundAndHarvest.Config.

(** main sends what its collection, its compound phase and its harvest
    phase send, the two phases being run on the two halves of the split. *)
Lemma compound_main_by_phases (P : Tx -> Prop) :
  (forall c0 c1 recipient,
     P (ModifyLiquidities
          (DecreaseClose (CompoundAndHarvest.tokenId cfg) 0 0 0 c0 c1 recipient))) ->
  (forall pct poolKey usd fees0 fees1 sqrtPriceX96 tickLower tickUpper,
     BigInt.ofNumber (CompoundAndHarvest.compoundPct cfg) = Some pct ->
     sends P (CompoundAndHarvest.compoundPhase cfg account tickToSqrtPriceX96 poolKey
                (fst (split fees0 pct)) (fst (split fees1 pct))
                sqrtPriceX96 tickLower tickUpper) /\
     sends P (CompoundAndHarvest.harvestPhase cfg account poolKey usd
                (fst (split fees0 pct)) (fst (split fees1 pct))
                (snd (split fees0 pct)) (snd (split fees1 pct)))) ->
  sends P (CompoundAndHarvest.main cfg account feed tickToSqrtPriceX96 decimals).
Proof.
  intros Hcollect Hphases. unfold CompoundAndHarvest.main, CompoundAndHarvest.collectFees.
  sends_steps ltac:(apply Hcollect).
  all: match goal with
       | |- sends _ (CompoundAndHarvest.compoundPhase _ _ _ ?p (Z.quot (?f0 * ?z) 100)
                       (Z.quot (?f1 * ?z) 100) ?sp ?tl ?tu) =>
           exact (proj1 (Hphases z p 0%float f0 f1 sp tl tu eq_refl))
       | |- sends _ (CompoundAndHarvest.harvestPhase _ _ ?p ?usd (Z.quot (?f0 * ?z) 100)
                       (Z.quot (?f1 * ?z) 100) _ _) =>
           exact (proj2 (Hphases z p usd f0 f1 0 0 0 eq_refl))
       end.
Qed.

Lemma split_all total : split total 100 = (total, 0).
Proof.
  unfold split. rewrite Z.quot_mul by discriminate. f_equal. lia.
Qed.

Lemma split_none total : split total 0 = (0, total).
Proof.
  unfold split. rewrite Z.mul_0_r. cbn [Z.quot Z.quotrem fst]. f_equal. lia.
Qed.

Lemma clamp_high q :
  (100 <= q)%Q -> BigInt.ofNumber (CompoundAndHarvest.clampPct (Some q)) = Some 100.
Proof.
  intros H. cbn [CompoundAndHarvest.clampPct option_map].
  replace (Qmin 100 q) with 100%Q; [reflexivity|].
  unfold Qmin, GenericMinMax.gmin.
  destruct (100 ?= q)%Q eqn:E; try reflexivity.
  apply Qgt_alt in E. destruct (Qlt_not_le _ _ E H).
Qed.

Lemma clamp_low q :
  (q <= 0)%Q -> BigInt.ofNumber (CompoundAndHarvest.clampPct (Some q)) = Some 0.
Proof.
  intros H. cbn [CompoundAndHarvest.clampPct option_map].
  replace (Qmax 0 (Qmin 100 q)) with 0%Q; [reflexivity|].
  unfold Qmax, GenericMinMax.gmax.
  destruct (0 ?= Qmin 100 q)%Q eqn:E; try reflexivity.
  apply Qlt_alt in E. exfalso.
  apply (Qlt_not_le _ _ E). apply Qle_trans with q; [apply Q.le_min_r | exact H].
Qed.

End CompoundAndHarvestFlags.

(** X11: the --slippage flag of compound-and-harvest is read and echoed with
    the rest of the configuration, and has no other effect: two runs that
    differ in it alone end the same way, leave the same world and send the
    same transactions. *)
Theorem compound_slippage_has_no_effect {chain : Chain}
    (account : address) (feed : address -> Feed)
    (tickToSqrtPriceX96 : Z -> option Z) (decimals : address -> Z)
    (tokenId : Z) (harvestAddress : address) (compoundPct : option Q) (dryRun : bool)
    (s1 s2 : Q) (w : World) :
  outcome (CompoundAndHarvest.main
             (CompoundAndHarvest.mkConfig tokenId harvestAddress compoundPct dryRun s1)
             account feed tickToSqrtPriceX96 decimals w)
  = outcome (CompoundAndHarvest.main
               (CompoundAndHarvest.mkConfig tokenId harvestAddress compoundPct dryRun s2)
               account feed tickToSqrtPriceX96 decimals w) /\
  world (CompoundAndHarvest.main
           (CompoundAndHarvest.mkConfig tokenId harvestAddress compoundPct dryRun s1)
           account feed tickToSqrtPriceX96 decimals w)
  = world (CompoundAndHarvest.main
             (CompoundAndHarvest.mkConfig tokenId harvestAddress compoundPct dryRun s2)
             account feed tickToSqrtPriceX96 decimals w) /\
  txs (CompoundAndHarvest.main
         (CompoundAndHarvest.mkConfig tokenId harvestAddress compoundPct dryRun s1)
         account feed tickToSqrtPriceX96 decimals w)
  = txs (CompoundAndHarvest.main
           (CompoundAndHarvest.mkConfig tokenId harvestAddress compoundPct dryRun s2)
           account feed tickToSqrtPriceX96 decimals w).
Proof.
  rewrite (compound_main_slippage_free account feed tickToSqrtPriceX96 decimals
             tokenId harvestAddress compoundPct dryRun s1 s2 w).
  repeat split.
Qed.

(** X12: compound-and-harvest treats a percentage of 100 or more as 100 and
    then sends no swap, no router approval and no transfer, and treats a
    percentage of 0 or less as 0 and then sends no increase of liquidity. *)
Theorem compound_percentage_extremes {chain : Chain}
    (cfg : CompoundAndHarvest.Config) (account : address) (feed : address -> Feed)
    (tickToSqrtPriceX96 : Z -> option Z) (decimals : address -> Z) (q : Q) (w : World) :
  CompoundAndHarvest.compoundPctArg cfg = Some q ->
  ((100 <= q)%Q ->
   BigInt.ofNumber (CompoundAndHarvest.compoundPct cfg) = Some 100 /\
   Forall (fun t => isHarvestTx t = false)
     (txs (CompoundAndHarvest.main cfg account feed tickToSqrtPriceX96 decimals w))) /\
  ((q <= 0)%Q ->
   BigInt.ofNumber (CompoundAndHarvest.compoundPct cfg) = Some 0 /\
   Forall (fun t => isIncrease t = false)
     (txs (CompoundAndHarvest.main cfg account feed tickToSqrtPriceX96 decimals w))).
Proof.
  intros Harg. split; intros Hq.
  - assert (E : BigInt.ofNumber (CompoundAndHarvest.compoundPct cfg) = Some 100).
    { unfold CompoundAndHarvest.compoundPct. rewrite Harg. apply clamp_high, Hq. }
    split; [exact E|]. revert w.
    apply compound_main_by_phases; [reflexivity|].
    intros pct poolKey usd fees0 fees1 sqrtPriceX96 tickLower tickUpper Hpct.
    rewrite E in Hpct. injection Hpct as <-. rewrite !split_all. cbn [fst snd]. split.
    + unfold CompoundAndHarvest.compoundPhase, CompoundAndHarvest.addLiquidity,
        CompoundAndHarvest.approvePermit2IfNeeded.
      sends_steps ltac:(reflexivity).
    + intros w'. constructor.
  - assert (E : BigInt.ofNumber (CompoundAndHarvest.compoundPct cfg) = Some 0).
    { unfold CompoundAndHarvest.compoundPct. rewrite Harg. apply clamp_low, Hq. }
    split; [exact E|]. revert w.
    apply compound_main_by_phases; [reflexivity|].
    intros pct poolKey usd fees0 fees1 sqrtPriceX96 tickLower tickUpper Hpct.
    rewrite E in Hpct. injection Hpct as <-. rewrite !split_none. cbn [fst snd]. split.
    + intros w'. constructor.
    + unfold CompoundAndHarvest.harvestPhase, CompoundAndHarvest.swapPhase.
      sends_steps ltac:(reflexivity); apply swapToUsdc_sends_exactly; reflexivity.
Qed.

(** ** Failing swaps *)

(** X13: a swap that fails does not stop the harvest.  The swap phase of
    either script always comes back, whatever the chain does; and in
    compound-and-harvest, with both harvest amounts positive, the swap of
    the second currency is attempted from the world the first swap left,
    whether the first one returned or raised. *)
Theorem swap_failures_are_contained {chain : Chain}
    (cfg : CompoundAndHarvest.Config) (account : address) (poolKey : PoolKey)
    (h0 h1 : Z) (w : World) :
  outcome (ClankerHarvest.swapPhase account h0 h1 w) = Ret tt /\
  outcome (CompoundAndHarvest.swapPhase cfg account poolKey h0 h1 w) = Ret tt /\
  (0 < h0 -> 0 < h1 ->
   txs (CompoundAndHarvest.swapPhase cfg account poolKey h0 h1 w)
   = txs (CompoundAndHarvest.swapToUsdc account (currency0 poolKey) h0
            (CompoundAndHarvest.slippage cfg) (Some poolKey) w)
     ++ txs (CompoundAndHarvest.swapToUsdc account (currency1 poolKey) h1
               (CompoundAndHarvest.slippage cfg) (Some poolKey)
               (world (CompoundAndHarvest.swapToUsdc account (currency0 poolKey) h0
                         (CompoundAndHarvest.slippage cfg) (Some poolKey) w)))).
Proof.
  split; [|split].
  - destruct (clanker_swapPhase_returns account h0 h1 w) as [[] E]. exact E.
  - destruct (compound_swapPhase_returns cfg account poolKey h0 h1 w) as [[] E]. exact E.
  - intros H0 H1. unfold CompoundAndHarvest.swapPhase.
    destruct (Z.gtb_spec h0 0); [|lia]. destruct (Z.gtb_spec h1 0); [|lia].
    pose proof (swapToUsdc_noExit account (currency0 poolKey) h0
                  (CompoundAndHarvest.slippage cfg) (Some poolKey) w) as N0.
    set (r0 := CompoundAndHarvest.swapToUsdc account (currency0 poolKey) h0
                 (CompoundAndHarvest.slippage cfg) (Some poolKey) w) in *.
    pose proof (swapToUsdc_noExit account (currency1 poolKey) h1
                  (CompoundAndHarvest.slippage cfg) (Some poolKey) (world r0)) as N1.
    set (r1 := CompoundAndHarvest.swapToUsdc account (currency1 poolKey) h1
                 (CompoundAndHarvest.slippage cfg) (Some poolKey) (world r0)) in *.
    unfold bind, tryCatch. fold r0.
    destruct (outcome r0) as [a0| |c0] eqn:E0; [| |destruct (N0 c0 eq_refl)];
      cbn [outcome world txs out ret print app]; rewrite ?E0;
      cbn [outcome world txs out ret print app]; fold r1;
      (destruct (outcome r1) as [a1| |c1] eqn:E1; [| |destruct (N1 c1 eq_refl)]);
      cbn [outcome world txs out ret print app]; rewrite ?E1;
      cbn [outcome world txs out ret print app]; rewrite ?app_nil_r; reflexivity.
Qed.

(** ** Ticks and prices *)

Lemma tickBits_stepsDown :
  Forall (fun bv : Z * Z => 0 <= snd bv <= 2 ^ 128) ClankerHarvest.tickBits.
Proof. unfold ClankerHarvest.tickBits. repeat constructor; cbn [snd]; lia. Qed.

Lemma shiftr_mul_le r v : 0 <= r -> 0 <= v <= 2 ^ 128 -> 0 <= Z.shiftr (r * v) 128 <= r.
Proof.
  intros Hr Hv. rewrite Z.shiftr_div_pow2 by lia. split.
  - apply Z.div_pos; nia.
  - apply Z.div_le_upper_bound; nia.
Qed.

Lemma shiftr_mul_mono lo r v :
  0 <= lo <= r -> 0 <= v -> Z.shiftr (lo * v) 128 <= Z.shiftr (r * v) 128.
Proof.
  intros H Hv. rewrite !Z.shiftr_div_pow2 by lia. apply Z.div_le_mono; nia.
Qed.

(** The loop over tickBits only lowers the ratio, and no further than
    taking every factor does. *)
Lemma tick_fold_bounds (a : Z) (l : list (Z * Z)) :
  Forall (fun bv : Z * Z => 0 <= snd bv <= 2 ^ 128) l ->
  forall lo r, 0 <= lo <= r ->
  0 <= fold_left (fun x (bv : Z * Z) => Z.shiftr (x * snd bv) 128) l lo
    <= fold_left (fun ratio '(bit, val) =>
                    if negb (Z.land a bit =? 0) then Z.shiftr (ratio * val) 128 else ratio)
         l r
  /\ fold_left (fun ratio '(bit, val) =>
                    if negb (Z.land a bit =? 0) then Z.shiftr (ratio * val) 128 else ratio)
         l r <= r.
Proof.
  induction 1 as [|[bit val] l Hv _ IH]; intros lo r Hlo; cbn [fold_left snd] in *.
  - lia.
  - pose proof (shiftr_mul_le lo val ltac:(lia) Hv).
    pose proof (shiftr_mul_le r val ltac:(lia) Hv).
    pose proof (shiftr_mul_mono lo r val Hlo ltac:(lia)).
    destruct (negb (Z.land a bit =? 0)).
    + destruct (IH (Z.shiftr (lo * val) 128) (Z.shiftr (r * val) 128) ltac:(lia)). lia.
    + destruct (IH (Z.shiftr (lo * val) 128) r ltac:(lia)). lia.
Qed.

Lemma tick_ratio_bounds (a : Z) :
  2 ^ 32 <= fold_left (fun ratio '(bit, val) =>
                    if negb (Z.land a bit =? 0) then Z.shiftr (ratio * val) 128 else ratio)
         ClankerHarvest.tickBits
         (if negb (Z.land a 0x1 =? 0)
          then 0xfffcb933bd6fad37aa2d162d1a594001 else Z.shiftl 1 128)
    <= 2 ^ 128.
Proof.
  set (r0 := if negb (Z.land a 0x1 =? 0)
          then 0xfffcb933bd6fad37aa2d162d1a594001 else Z.shiftl 1 128).
  assert (H0 : 0xfffcb933bd6fad37aa2d162d1a594001 <= r0 <= 2 ^ 128).
  { unfold r0. destruct (negb _); cbn; lia. }
  destruct (tick_fold_bounds a _ tickBits_stepsDown 0xfffcb933bd6fad37aa2d162d1a594001 r0
              ltac:(lia)) as [[_ L] U].
  assert (C : 2 ^ 32 <= fold_left (fun x (bv : Z * Z) => Z.shiftr (x * snd bv) 128)
                          ClankerHarvest.tickBits 0xfffcb933bd6fad37aa2d162d1a594001).
  { vm_compute. discriminate. }
  lia.
Qed.

(** X14: clanker-harvest's tickToSqrtPriceX96 gives a result for every
    tick, never dividing by zero, and the result is positive: at most 2^96
    for a tick that is zero or negative and at least 2^96 for a positive
    one. *)
Theorem clanker_tick_price_total (tick : Z) :
  exists r, ClankerHarvest.tickToSqrtPriceX96 tick = Some r /\ 0 < r /\
            (tick <= 0 -> r <= Q96) /\ (0 < tick -> Q96 <= r).
Proof.
  unfold ClankerHarvest.tickToSqrtPriceX96.
  pose proof (tick_ratio_bounds (Z.abs tick)) as B. cbv zeta.
  set (ratio1 := fold_left _ _ _) in *.
  assert (P32 : (2:Z) ^ 32 = 4294967296) by reflexivity.
  assert (P96 : (2:Z) ^ 96 = 79228162514264337593543950336) by reflexivity.
  assert (P128 : (2:Z) ^ 128 = 340282366920938463463374607431768211456) by reflexivity.
  change (Z.shiftl 1 32) with 4294967296.
  change (Z.shiftl 1 256) with (2 ^ 256).
  unfold Q96.
  destruct (Z.gtb_spec tick 0) as [Hpos|Hneg].
  - rewrite BigInt_div_nonzero by lia.
    assert (Hq : 2 ^ 128 - 1 <= Z.quot (2 ^ 256 - 1) ratio1).
    { rewrite Z.quot_div_nonneg by lia. apply Z.div_le_lower_bound; [lia|].
      assert ((2:Z) ^ 256 = 2 ^ 128 * 2 ^ 128) by reflexivity. nia. }
    set (q := Z.quot (2 ^ 256 - 1) ratio1) in *.
    eexists. split; [reflexivity|].
    rewrite Z.shiftr_div_pow2 by lia. rewrite Z.rem_mod_nonneg by lia.
    pose proof (Z.div_mod q 4294967296 ltac:(lia)) as D.
    pose proof (Z.mod_pos_bound q 4294967296 ltac:(lia)) as M.
    rewrite P32.
    destruct (Z.eqb_spec (q mod 4294967296) 0); lia.
  - eexists. split; [reflexivity|].
    rewrite Z.shiftr_div_pow2 by lia. rewrite Z.rem_mod_nonneg by lia.
    pose proof (Z.div_mod ratio1 4294967296 ltac:(lia)) as D.
    pose proof (Z.mod_pos_bound ratio1 4294967296 ltac:(lia)) as M.
    rewrite P32.
    destruct (Z.eqb_spec (ratio1 mod 4294967296) 0); lia.
Qed.

Lemma land_low_bits x bit :
  Z.land bit (Z.ones 20) = bit -> Z.land x bit = Z.land (x mod 2 ^ 20) bit.
Proof.
  intros H. rewrite <- (Z.land_ones x 20) by lia.
  rewrite <- Z.land_assoc, (Z.land_comm (Z.ones 20)), H. reflexivity.
Qed.

Lemma fold_left_ext_in {A B} (f g : A -> B -> A) (l : list B) :
  (forall x b, In b l -> f x b = g x b) -> forall r, fold_left f l r = fold_left g l r.
Proof.
  induction l as [|b l IH]; intros H r; cbn [fold_left]; [reflexivity|].
  rewrite (H r b (or_introl eq_refl)). apply IH. intros x c Hc. apply H. right. exact Hc.
Qed.

Lemma tickBits_low :
  Forall (fun bv : Z * Z => Z.land (fst bv) (Z.ones 20) = fst bv) ClankerHarvest.tickBits.
Proof. unfold ClankerHarvest.tickBits. repeat constructor. Qed.

(** The price is decided by the sign test and the low 20 bits of |tick|. *)
Lemma tick_price_by_low_bits (t u : Z) :
  (t >? 0) = (u >? 0) -> Z.abs t mod 2 ^ 20 = Z.abs u mod 2 ^ 20 ->
  ClankerHarvest.tickToSqrtPriceX96 t = ClankerHarvest.tickToSqrtPriceX96 u.
Proof.
  intros Hs Hm. unfold ClankerHarvest.tickToSqrtPriceX96. cbv zeta. rewrite Hs.
  rewrite (land_low_bits (Z.abs t) 1), (land_low_bits (Z.abs u) 1), Hm by reflexivity.
  rewrite (fold_left_ext_in
             (fun ratio '(bit, val) =>
                if negb (Z.land (Z.abs t) bit =? 0) then Z.shiftr (ratio * val) 128 else ratio)
             (fun ratio '(bit, val) =>
                if negb (Z.land (Z.abs u) bit =? 0) then Z.shiftr (ratio * val) 128 else ratio));
    [reflexivity|].
  intros x [bit val] Hin.
  pose proof (proj1 (Forall_forall _ _) tickBits_low _ Hin) as Hb. cbn [fst] in Hb.
  rewrite (land_low_bits (Z.abs t) bit Hb), (land_low_bits (Z.abs u) bit Hb), Hm. reflexivity.
Qed.

(** X15: clanker-harvest's tickToSqrtPriceX96 checks no range: it looks at
    the sign of the tick and at the low 20 bits of its absolute value only,
    so a tick beyond 2^20 gets the price of the tick 2^20 (or a multiple)
    closer to zero. *)
Theorem clanker_tick_price_ignores_high_bits (t k : Z) :
  0 < t -> 0 <= k ->
  ClankerHarvest.tickToSqrtPriceX96 (t + k * 2 ^ 20) = ClankerHarvest.tickToSqrtPriceX96 t /\
  ClankerHarvest.tickToSqrtPriceX96 (- (t + k * 2 ^ 20))
  = ClankerHarvest.tickToSqrtPriceX96 (- t).
Proof.
  intros Ht Hk. split; apply tick_price_by_low_bits.
  - destruct (Z.gtb_spec (t + k * 2 ^ 20) 0), (Z.gtb_spec t 0); try reflexivity; nia.
  - rewrite !Z.abs_eq by nia. apply Z.mod_add. lia.
  - destruct (Z.gtb_spec (- (t + k * 2 ^ 20)) 0), (Z.gtb_spec (- t) 0); try reflexivity; nia.
  - rewrite !Z.abs_neq by nia. rewrite !Z.opp_involutive. apply Z.mod_add. lia.
Qed.

(** ** The tick range of a position *)

Lemma land_mask24 x : Z.land x 0xFFFFFF = x mod 2 ^ 24.
Proof. change 0xFFFFFF with (Z.ones 24). apply Z.land_ones. lia. Qed.

Lemma toInt24_range v :
  0 <= v < 2 ^ 24 -> - 2 ^ 23 <= CompoundAndHarvest.toInt24 v < 2 ^ 23.
Proof.
  intros H. unfold CompoundAndHarvest.toInt24.
  destruct (Z.geb_spec v 0x800000); lia.
Qed.

(** X16: the tick range either script unpacks from the position info is
    ordered and lies within int24: in compound-and-harvest for any word, in
    clanker-harvest for any word of 256 bits. *)
Theorem tick_ranges_are_ordered_int24 (posInfo : Z) :
  (0 <= posInfo < 2 ^ 256 ->
   fst (ClankerHarvest.tickRange posInfo) <= snd (ClankerHarvest.tickRange posInfo) /\
   - 2 ^ 23 <= fst (ClankerHarvest.tickRange posInfo) /\
   snd (ClankerHarvest.tickRange posInfo) < 2 ^ 23) /\
  fst (CompoundAndHarvest.tickRange posInfo) <= snd (CompoundAndHarvest.tickRange posInfo) /\
  - 2 ^ 23 <= fst (CompoundAndHarvest.tickRange posInfo) /\
  snd (CompoundAndHarvest.tickRange posInfo) < 2 ^ 23.
Proof.
  split.
  - intros H. unfold ClankerHarvest.tickRange. cbv zeta. cbn [fst snd].
    rewrite land_mask24.
    assert (R : 0 <= Z.shiftr posInfo 232 < 2 ^ 24).
    { rewrite Z.shiftr_div_pow2 by lia. split.
      - apply Z.div_pos; lia.
      - apply Z.div_lt_upper_bound; [lia|].
        change (2 ^ 232 * 2 ^ 24) with (2 ^ 256). lia. }
    pose proof (Z.mod_pos_bound (Z.shiftr posInfo 208) (2 ^ 24) ltac:(lia)) as U.
    destruct (Z.gtb_spec (Z.shiftr posInfo 232) 0x7FFFFF),
             (Z.gtb_spec (Z.shiftr posInfo 208 mod 2 ^ 24) 0x7FFFFF); lia.
  - unfold CompoundAndHarvest.tickRange. cbv zeta. cbn [fst snd].
    rewrite !land_mask24.
    pose proof (toInt24_range _ (Z.mod_pos_bound (Z.shiftr posInfo 32) (2 ^ 24) ltac:(lia))).
    pose proof (toInt24_range _ (Z.mod_pos_bound (Z.shiftr posInfo 8) (2 ^ 24) ltac:(lia))).
    lia.
Qed.

Lemma div_mod_window x : (x / 2 ^ 24) mod 2 ^ 24 = (x mod 2 ^ 48) / 2 ^ 24.
Proof.
  change (2 ^ 48) with (2 ^ 24 * 2 ^ 24).
  rewrite Z.rem_mul_r by lia.
  rewrite Z.mul_comm, Z.div_add by lia.
  rewrite (Z.div_small (x mod 2 ^ 24)) by (apply Z.mod_pos_bound; lia).
  reflexivity.
Qed.

Lemma mod_mod_window x : x mod 2 ^ 24 = (x mod 2 ^ 48) mod 2 ^ 24.
Proof.
  change (2 ^ 48) with (2 ^ 24 * 2 ^ 24).
  rewrite Z.rem_mul_r by lia.
  rewrite Z.mul_comm, Z.mod_add by lia.
  rewrite Z.mod_mod by lia. reflexivity.
Qed.

(** X17: the two scripts unpack the tick range from different bits of the
    256-bit position info: clanker-harvest from bits 208 and up, so that a
    word below 2^208 reads as the range 0..0, and compound-and-harvest from
    bits 8 to 55. *)
Theorem tick_ranges_depend_on_bits (p q : Z) :
  (0 <= p < 2 ^ 256 -> 0 <= q < 2 ^ 256 -> p / 2 ^ 208 = q / 2 ^ 208 ->
   ClankerHarvest.tickRange p = ClankerHarvest.tickRange q) /\
  (0 <= p < 2 ^ 208 -> ClankerHarvest.tickRange p = (0, 0)) /\
  ((p / 2 ^ 8) mod 2 ^ 48 = (q / 2 ^ 8) mod 2 ^ 48 ->
   CompoundAndHarvest.tickRange p = CompoundAndHarvest.tickRange q).
Proof.
  assert (E : forall x, Z.shiftr x 232 = x / 2 ^ 208 / 2 ^ 24).
  { intros x. rewrite Z.shiftr_div_pow2, Z.div_div by lia. reflexivity. }
  split; [|split]; [intros _ _ H | intros H | intros H].
  - unfold ClankerHarvest.tickRange.
    rewrite !E, !(Z.shiftr_div_pow2 _ 208), H by lia. reflexivity.
  - unfold ClankerHarvest.tickRange.
    rewrite !E, !(Z.shiftr_div_pow2 _ 208), (Z.div_small p (2 ^ 208)) by lia.
    reflexivity.
  - unfold CompoundAndHarvest.tickRange.
    assert (F : forall x, Z.shiftr x 32 = x / 2 ^ 8 / 2 ^ 24).
    { intros x. rewrite Z.shiftr_div_pow2, Z.div_div by lia. reflexivity. }
    rewrite !F, !(Z.shiftr_div_pow2 _ 8), !land_mask24 by lia.
    rewrite !div_mod_window, (mod_mod_window (p / 2 ^ 8)), (mod_mod_window (q / 2 ^ 8)), H.
    reflexivity.
Qed.

(** ** More on the liquidity computation *)

(** X18: getLiquidityForAmounts gives the same result with its two price
    bounds exchanged; with equal bounds both liquidity computations divide
    by zero, which raises. *)
Theorem liquidity_bounds_order_and_equality (p A B a0 a1 : Z) :
  CompoundAndHarvest.getLiquidityForAmounts p A B a0 a1
  = CompoundAndHarvest.getLiquidityForAmounts p B A a0 a1 /\
  CompoundAndHarvest.getLiquidityForAmounts p A A a0 a1 = None /\
  ClankerHarvest.liquidityForAmounts p A A a0 a1 = None.
Proof.
  split; [|split].
  - rewrite (getLiquidityForAmounts_sorts p A B), (getLiquidityForAmounts_sorts p B A).
    rewrite Z.min_comm, Z.max_comm. reflexivity.
  - unfold CompoundAndHarvest.getLiquidityForAmounts, CompoundAndHarvest.liq0,
      CompoundAndHarvest.liq1.
    destruct (Z.gtb_spec A A); [lia|]. rewrite Z.sub_diag.
    destruct (Z.leb_spec p A); [reflexivity|].
    destruct (Z.ltb_spec p A); [lia | reflexivity].
  - unfold ClankerHarvest.liquidityForAmounts. rewrite Z.sub_diag. cbn [Z.mul].
    destruct (Z.leb_spec p A); [reflexivity|].
    destruct (Z.geb_spec p A); [reflexivity | lia].
Qed.

Lemma quot_nonneg a b : 0 <= a -> 0 < b -> 0 <= Z.quot a b.
Proof. intros. apply Z.quot_pos; lia. Qed.

Lemma nested_quot_le a m d :
  0 <= a -> 0 <= m -> 0 < d ->
  0 <= Z.quot (a * Z.quot m Q96) d <= Z.quot (a * m) (d * Q96).
Proof.
  intros Ha Hm Hd. pose proof Q96_pos as HQ. set (Q := Q96) in *. clearbody Q.
  assert (Hq : 0 <= Z.quot m Q) by (apply quot_nonneg; lia).
  assert (Hdq : 0 < d * Q) by (apply Z.mul_pos_pos; lia).
  assert (Ham : 0 <= a * m) by (apply Z.mul_nonneg_nonneg; lia).
  assert (Haq : 0 <= a * Z.quot m Q) by (apply Z.mul_nonneg_nonneg; lia).
  rewrite (Z.quot_div_nonneg (a * Z.quot m Q) d), (Z.quot_div_nonneg (a * m) (d * Q)) by lia.
  rewrite Z.quot_div_nonneg in Haq |- * by lia.
  split; [apply Z.div_pos; lia|].
  rewrite <- (Z.div_mul_cancel_r (a * (m / Q)) d Q) by lia.
  apply Z.div_le_mono; [lia|].
  pose proof (Z.mul_div_le m Q HQ) as L.
  rewrite <- Z.mul_assoc. apply Z.mul_le_mono_nonneg_l; [exact Ha|].
  rewrite Z.mul_comm. exact L.
Qed.

(** The value of both computations below, above and inside the range. *)
Lemma liquidity_by_position (p A B a0 a1 : Z) :
  A < B ->
  (p <= A ->
     CompoundAndHarvest.getLiquidityForAmounts p A B a0 a1
       = Some (Z.quot (a0 * Z.quot (A * B) Q96) (B - A)) /\
     ClankerHarvest.liquidityForAmounts p A B a0 a1
       = Some (Z.quot (a0 * A * B) ((B - A) * Q96))) /\
  (B <= p ->
     CompoundAndHarvest.getLiquidityForAmounts p A B a0 a1
       = Some (Z.quot (a1 * Q96) (B - A)) /\
     ClankerHarvest.liquidityForAmounts p A B a0 a1
       = Some (Z.quot (a1 * Q96) (B - A))) /\
  (A < p < B ->
     CompoundAndHarvest.getLiquidityForAmounts p A B a0 a1
       = Some (Z.min (Z.quot (a0 * Z.quot (p * B) Q96) (B - p))
                     (Z.quot (a1 * Q96) (p - A))) /\
     ClankerHarvest.liquidityForAmounts p A B a0 a1
       = Some (Z.min (Z.quot (a0 * p * B) ((B - p) * Q96))
                     (Z.quot (a1 * Q96) (p - A)))).
Proof.
  intros HAB. pose proof Q96_pos as HQ.
  assert (HBA : (B - A) * Q96 <> 0) by (apply Z.neq_mul_0; lia).
  unfold CompoundAndHarvest.getLiquidityForAmounts, ClankerHarvest.liquidityForAmounts,
    CompoundAndHarvest.liq0, CompoundAndHarvest.liq1.
  destruct (Z.gtb_spec A B); [lia|].
  destruct (Z.leb_spec p A).
  - split; [|split]; [|lia|lia]. intros _.
    rewrite !BigInt_div_nonzero by (exact HBA || lia). split; reflexivity.
  - destruct (Z.ltb_spec p B), (Z.geb_spec p B); try lia.
    + split; [|split]; [lia|lia|]. intros _.
      assert (HBp : (B - p) * Q96 <> 0) by (apply Z.neq_mul_0; lia).
      rewrite !BigInt_div_nonzero by (exact HBp || lia).
      rewrite !BigInt_min_is_min. split; reflexivity.
    + split; [|split]; [lia| |lia]. intros _.
      rewrite !BigInt_div_nonzero by lia. split; reflexivity.
Qed.

(** X19: with the current price strictly inside the range, an amount in
    one currency alone gives liquidity zero under both computations,
    whatever the amount: fees that came in one currency only are not
    compounded while the price is in range. *)
Theorem one_sided_amounts_in_range_give_zero (p A B a : Z) :
  0 < A -> A < p < B -> 0 <= a ->
  CompoundAndHarvest.getLiquidityForAmounts p A B a 0 = Some 0 /\
  CompoundAndHarvest.getLiquidityForAmounts p A B 0 a = Some 0 /\
  ClankerHarvest.liquidityForAmounts p A B a 0 = Some 0 /\
  ClankerHarvest.liquidityForAmounts p A B 0 a = Some 0.
Proof.
  intros HA Hp Ha. pose proof Q96_pos as HQ.
  destruct (liquidity_by_position p A B a 0 ltac:(lia)) as (_ & _ & I0).
  destruct (liquidity_by_position p A B 0 a ltac:(lia)) as (_ & _ & I1).
  destruct (I0 Hp) as [E0 F0]. destruct (I1 Hp) as [E1 F1].
  rewrite E0, F0, E1, F1. clear I0 I1 E0 F0 E1 F1. cbn [Z.mul].
  assert (HpB : 0 <= p * B) by (apply Z.mul_nonneg_nonneg; lia).
  pose proof (nested_quot_le a (p * B) (B - p) Ha HpB ltac:(lia)) as N.
  rewrite Z.mul_assoc in N.
  set (Q := Q96) in *. clearbody Q.
  assert (HB : 0 < (B - p) * Q) by (apply Z.mul_pos_pos; lia).
  assert (HaQ : 0 <= a * Q) by (apply Z.mul_nonneg_nonneg; lia).
  pose proof (quot_nonneg (a * Q) (p - A) HaQ ltac:(lia)).
  rewrite !Z.quot_0_l by lia.
  repeat split; f_equal; lia.
Qed.

(** X20: for positive prices in order and amounts that are not negative
    both computations give a liquidity, neither is negative, and
    getLiquidityForAmounts, which divides by 2^96 before it multiplies by
    the amount, never gives more than the computation of clanker-harvest. *)
Theorem liquidity_rounding_order (p A B a0 a1 : Z) :
  0 < A -> A < B -> 0 < p -> 0 <= a0 -> 0 <= a1 ->
  exists l l',
    CompoundAndHarvest.getLiquidityForAmounts p A B a0 a1 = Some l /\
    ClankerHarvest.liquidityForAmounts p A B a0 a1 = Some l' /\
    0 <= l <= l'.
Proof.
  intros HA HAB Hp H0 H1. pose proof Q96_pos as HQ.
  destruct (liquidity_by_position p A B a0 a1 HAB) as (Lo & Hi & In).
  destruct (Z.le_gt_cases p A) as [C|C]; [|destruct (Z.le_gt_cases B p) as [D|D]].
  - destruct (Lo C) as [E F]. rewrite E, F. clear Lo Hi In E F. do 2 eexists.
    split; [reflexivity|]. split; [reflexivity|].
    rewrite <- (Z.mul_assoc a0 A B).
    apply nested_quot_le; try lia. apply Z.mul_nonneg_nonneg; lia.
  - destruct (Hi D) as [E F]. rewrite E, F. clear Lo Hi In E F. do 2 eexists.
    split; [reflexivity|]. split; [reflexivity|].
    split; [|lia]. apply quot_nonneg; [|lia]. apply Z.mul_nonneg_nonneg; lia.
  - destruct (In (conj C D)) as [E F]. rewrite E, F. clear Lo Hi In E F. do 2 eexists.
    split; [reflexivity|]. split; [reflexivity|].
    assert (HpB : 0 <= p * B) by (apply Z.mul_nonneg_nonneg; lia).
    pose proof (nested_quot_le a0 (p * B) (B - p) H0 HpB ltac:(lia)) as N.
    rewrite Z.mul_assoc in N.
    assert (HaQ : 0 <= a1 * Q96) by (apply Z.mul_nonneg_nonneg; lia).
    pose proof (quot_nonneg (a1 * Q96) (p - A) HaQ ltac:(lia)).
    lia.
Qed.

(** ** Retrying *)

Lemma clanker_retryFrom_run {E A} (fn : nat -> Attempt E A) (n k : nat) :
  (k < n)%nat ->
  forall rounds i, (i + rounds = n)%nat -> (i <= k)%nat ->
  (forall j, (i <= j < k)%nat -> exists e, fn j = Threw e) ->
  (forall a, fn k = Returned a ->
     ClankerHarvest.retryFrom fn n rounds i = (Gave (Some a), repeat 2000 (k - i))) /\
  (forall e, fn k = Threw e -> k = (n - 1)%nat ->
     ClankerHarvest.retryFrom fn n rounds i = (Rethrew e, repeat 2000 (k - i))).
Proof.
  intros Hk. induction rounds as [|rounds IH]; intros i Hi Hik Hfail; [lia|].
  cbn [ClankerHarvest.retryFrom].
  destruct (Nat.eq_dec i k) as [->|Hne].
  - rewrite Nat.sub_diag. cbn [repeat]. split.
    + intros a ->. reflexivity.
    + intros e -> ->. rewrite Nat.eqb_refl. reflexivity.
  - destruct (Hfail i ltac:(lia)) as [e0 E0]. rewrite E0.
    destruct (Nat.eqb_spec i (n - 1)); [lia|].
    destruct (IH (S i) ltac:(lia) ltac:(lia)) as [R T].
    { intros j Hj. apply Hfail. lia. }
    replace (k - i)%nat with (S (k - S i)) by lia. cbn [repeat].
    split.
    + intros a Ha. rewrite (R a Ha). reflexivity.
    + intros e He Hlast. rewrite (T e He Hlast). reflexivity.
Qed.

Lemma doubling_S base k : doubling base (S k) = base :: doubling (base * 2) k.
Proof.
  unfold doubling. cbn [seq map]. rewrite Z.mul_1_r. f_equal.
  rewrite <- seq_shift, map_map. apply map_ext. intros j.
  rewrite Nat2Z.inj_succ, Z.pow_succ_r by lia. ring.
Qed.

Lemma doubling_sum base k :
  fold_right Z.add 0 (doubling base k) = base * (2 ^ Z.of_nat k - 1).
Proof.
  revert base. induction k as [|k IH]; intros base.
  - cbn. ring.
  - rewrite doubling_S. cbn [fold_right]. rewrite IH.
    rewrite Nat2Z.inj_succ, Z.pow_succ_r by lia. ring.
Qed.

Lemma compound_retryFrom_run {A} (fn : nat -> Attempt (option string) A) (n k : nat) :
  (k < n)%nat ->
  forall rounds i delay, (i + rounds = n)%nat -> (i <= k)%nat ->
  (forall j, (i <= j < k)%nat -> exists m, fn j = Threw m /\ CompoundAndHarvest.rateLimited m = true) ->
  (forall a, fn k = Returned a ->
     CompoundAndHarvest.retryFrom fn n rounds i delay = (Gave (Some a), doubling delay (k - i))) /\
  (forall e, fn k = Threw e -> CompoundAndHarvest.rateLimited e = false \/ k = (n - 1)%nat ->
     CompoundAndHarvest.retryFrom fn n rounds i delay = (Rethrew e, doubling delay (k - i))).
Proof.
  intros Hk. induction rounds as [|rounds IH]; intros i delay Hi Hik Hfail; [lia|].
  cbn [CompoundAndHarvest.retryFrom].
  destruct (Nat.eq_dec i k) as [->|Hne].
  - rewrite Nat.sub_diag. split.
    + intros a ->. reflexivity.
    + intros e -> [Hl | ->].
      * rewrite Hl. destruct (k =? n - 1)%nat; reflexivity.
      * rewrite Nat.eqb_refl. reflexivity.
  - destruct (Hfail i ltac:(lia)) as (m0 & E0 & L0). rewrite E0, L0.
    destruct (Nat.eqb_spec i (n - 1)); [lia|]. cbn [negb].
    destruct (IH (S i) (delay * 2) ltac:(lia) ltac:(lia)) as [R T].
    { intros j Hj. apply Hfail. lia. }
    replace (k - i)%nat with (S (k - S i)) by lia. rewrite doubling_S.
    split.
    + intros a Ha. rewrite (R a Ha). reflexivity.
    + intros e He Hlast. rewrite (T e He Hlast). reflexivity.
Qed.

(** X21: retry of clanker-harvest gives undefined without a call when
    n is 0; otherwise it calls the function until a call gives a value,
    which it returns, sleeping 2000 ms after each failed call whatever the
    error; when call n fails too it throws that last error, having slept
    n - 1 times. *)
Theorem clanker_retry_gives_first_success_or_last_error
    {E A} (fn : nat -> Attempt E A) (n k : nat) :
  ClankerHarvest.retry fn 0 = (Gave None, []) /\
  ((k < n)%nat ->
   (forall j, (j < k)%nat -> exists e, fn j = Threw e) ->
   (forall a, fn k = Returned a -> ClankerHarvest.retry fn n = (Gave (Some a), repeat 2000 k)) /\
   (forall e, fn k = Threw e -> k = (n - 1)%nat ->
      ClankerHarvest.retry fn n = (Rethrew e, repeat 2000 k))).
Proof.
  split; [reflexivity|]. intros Hk Hfail.
  pose proof (clanker_retryFrom_run fn n k Hk n 0%nat eq_refl ltac:(lia)) as H.
  rewrite Nat.sub_0_r in H. apply H. intros j Hj. apply Hfail. lia.
Qed.

(** X22: retry of compound-and-harvest tries again only after errors
    whose message contains 429 or rate limit: after k such errors it has
    slept k times, starting at the base delay and doubling, which adds up
    to base * (2^k - 1); it then returns the value of the next call, or
    throws its error at once when that is another kind of error or the
    last call allowed. *)
Theorem compound_retry_backs_off_on_rate_limits
    {A} (fn : nat -> Attempt (option string) A) (maxRetries k : nat) (baseDelayMs : Z) :
  (k < maxRetries)%nat ->
  (forall j, (j < k)%nat -> exists m, fn j = Threw m /\ CompoundAndHarvest.rateLimited m = true) ->
  fold_right Z.add 0 (doubling baseDelayMs k) = baseDelayMs * (2 ^ Z.of_nat k - 1) /\
  (forall a, fn k = Returned a ->
     CompoundAndHarvest.retry fn maxRetries baseDelayMs = (Gave (Some a), doubling baseDelayMs k)) /\
  (forall e, fn k = Threw e -> CompoundAndHarvest.rateLimited e = false \/ k = (maxRetries - 1)%nat ->
     CompoundAndHarvest.retry fn maxRetries baseDelayMs = (Rethrew e, doubling baseDelayMs k)).
Proof.
  intros Hk Hfail. split; [apply doubling_sum|].
  pose proof (compound_retryFrom_run fn maxRetries k Hk maxRetries 0%nat baseDelayMs
                eq_refl ltac:(lia)) as H.
  rewrite Nat.sub_0_r in H. apply H. intros j Hj. apply Hfail. lia.
Qed.

(** ** Rounding to nearest keeps lower bounds *)




Section LowerBound.
Variable K : Z.
Hypothesis Kpos : 0 <= K.
Variable C : Z.
Hypothesis Cpos : 0 < C.
Hypothesis Csmall : C < 2 ^ 53.









Hypothesis Kbig : 1074 <= K.


End LowerBound.






(** ** The limits of an increase *)




(** ** How a run ends *)

Section ReturnLemmas.
Context {chain : Chain}.

Lemma onReturn_bind {A B} (P : list Tx -> list Line -> Prop) (m : M A) (k : A -> M B) :
  (forall ts ls ts' ls', P ts ls -> P (ts' ++ ts) (ls' ++ ls)) ->
  (forall a, onReturn P (k a)) -> onReturn P (bind m k).
Proof.
  intros G H w b E. rewrite outcome_bind in E. rewrite txs_bind, out_bind.
  destruct (outcome (m w)) as [a| |c]; try discriminate E.
  apply G. exact (H a _ b E).
Qed.

Lemma onReturn_exit {A} (P : list Tx -> list Line -> Prop) c : onReturn P (@exit _ A c).
Proof. intros w a E. discriminate E. Qed.

Lemma onReturn_throw {A} (P : list Tx -> list Line -> Prop) : onReturn P (@throw _ A).
Proof. intros w a E. discriminate E. Qed.

Lemma paidAndReported_grows vault ts ls ts' ls' :
  paidAndReported vault ts ls -> paidAndReported vault (ts' ++ ts) (ls' ++ ls).
Proof.
  intros (sent & printed & usd & c0 & c1 & amount & -> & Hpos & ->).
  exists (ts' ++ sent), (ls' ++ printed), usd, c0, c1, amount.
  rewrite !app_assoc. auto.
Qed.

Lemma onReturn_transfer account vault usd c0 c1 amount :
  0 < amount ->
  onReturn (paidAndReported vault)
    (ok <- sendTx account (Transfer USDC vault amount) ;;
     if ok then print (LogSummary usd c0 c1 amount) else exit 1).
Proof.
  intros Hpos w a E. rewrite bind_sendTx in *.
  destruct (send w account (Transfer USDC vault amount)) as [[|[|]] w'];
    cbn in E |- *; try discriminate E.
  exists [], [], usd, c0, c1, amount. auto.
Qed.

End ReturnLemmas.

Ltac onReturn_steps :=
  repeat first
    [ apply onReturn_transfer; lia
    | apply onReturn_bind; [apply paidAndReported_grows | intros ?]
    | apply onReturn_exit
    | apply onReturn_throw
    | match goal with
      | |- onReturn _ (if ?x <=? ?y then _ else _) => destruct (Z.leb_spec x y)
      | |- onReturn _ (match ?x with _ => _ end) => destruct x eqn:?
      | |- onReturn _ (if ?b then _ else _) => destruct b eqn:?
      end ].

(** X24: compound-and-harvest returns normally in one way only: after a
    USDC transfer of a positive amount to the harvest address, which is
    the last transaction of the run, and the summary, which is its last
    line and reports that amount.  Every other run exits or raises. *)
Theorem compound_returns_only_after_payment {chain : Chain}
    (cfg : CompoundAndHarvest.Config) (account : address) (feed : address -> Feed)
    (tickToSqrtPriceX96 : Z -> option Z) (decimals : address -> Z) (w : World) (u : unit) :
  outcome (CompoundAndHarvest.main cfg account feed tickToSqrtPriceX96 decimals w) = Ret u ->
  paidAndReported (CompoundAndHarvest.harvestAddress cfg)
    (txs (CompoundAndHarvest.main cfg account feed tickToSqrtPriceX96 decimals w))
    (out (CompoundAndHarvest.main cfg account feed tickToSqrtPriceX96 decimals w)).
Proof.
  revert w u.
  change (onReturn (paidAndReported (CompoundAndHarvest.harvestAddress cfg))
            (CompoundAndHarvest.main cfg account feed tickToSqrtPriceX96 decimals)).
  unfold CompoundAndHarvest.main, CompoundAndHarvest.harvestPhase.
  onReturn_steps.
Qed.

(** X25: what a failing compound step does to the harvest.  In
    clanker-harvest the step always comes back, so the harvest follows
    whatever went wrong; in compound-and-harvest an addLiquidity that raises
    ends the run there: the harvest is not started and no swap, router
    approval or transfer is sent. *)
Theorem compound_step_failure_handling {chain : Chain}
    (clankerCfg : ClankerHarvest.Config) (compoundCfg : CompoundAndHarvest.Config)
    (account : address) (tickToSqrtPriceX96 : Z -> option Z)
    (poolKey0 : option PoolKey) (poolKey : PoolKey) (usd : float)
    (x y h0 h1 sqrtPriceX96 tickLower tickUpper : Z) (w : World) :
  outcome (ClankerHarvest.compoundStep clankerCfg account poolKey0 x y w) = Ret tt /\
  ((x >? 0) || (y >? 0) = true ->
   outcome (CompoundAndHarvest.addLiquidity compoundCfg account tickToSqrtPriceX96 poolKey
              x y sqrtPriceX96 tickLower tickUpper w) = Throw ->
   outcome ((CompoundAndHarvest.compoundPhase compoundCfg account tickToSqrtPriceX96 poolKey
               x y sqrtPriceX96 tickLower tickUpper ;;;
             CompoundAndHarvest.harvestPhase compoundCfg account poolKey usd x y h0 h1) w)
   = Throw /\
   txs ((CompoundAndHarvest.compoundPhase compoundCfg account tickToSqrtPriceX96 poolKey
           x y sqrtPriceX96 tickLower tickUpper ;;;
         CompoundAndHarvest.harvestPhase compoundCfg account poolKey usd x y h0 h1) w)
   = txs (CompoundAndHarvest.addLiquidity compoundCfg account tickToSqrtPriceX96 poolKey
            x y sqrtPriceX96 tickLower tickUpper w) /\
   Forall (fun t => isHarvestTx t = false)
     (txs (CompoundAndHarvest.addLiquidity compoundCfg account tickToSqrtPriceX96 poolKey
             x y sqrtPriceX96 tickLower tickUpper w))).
Proof.
  split.
  - assert (R : returns (ClankerHarvest.compoundStep clankerCfg account poolKey0 x y)).
    { unfold ClankerHarvest.compoundStep, ClankerHarvest.compoundBody. returns_walk. }
    destruct (R w) as [[] E]. exact E.
  - intros Hpos Hthrow. unfold CompoundAndHarvest.compoundPhase. rewrite Hpos.
    rewrite !outcome_bind, !txs_bind, !outcome_bind, Hthrow.
    rewrite !app_nil_r. split; [reflexivity|]. split; [reflexivity|].
    revert w Hthrow. 
    assert (S : sends (fun t => isHarvestTx t = false)
                  (CompoundAndHarvest.addLiquidity compoundCfg account tickToSqrtPriceX96
                     poolKey x y sqrtPriceX96 tickLower tickUpper)).
    { unfold CompoundAndHarvest.addLiquidity, CompoundAndHarvest.approvePermit2IfNeeded.
      sends_steps ltac:(reflexivity). }
    intros w _. apply S.
Qed.

(** ** The edges of swapToUsdc *)

(** X26: swapToUsdc sends nothing in three cases: an amount that is zero or
    negative is reported as swapped into 0, whatever the token; USDC is
    passed through as it is; and a token other than WETH and USDC without a
    pool key raises at once. *)
Theorem swapToUsdc_edge_cases {chain : Chain}
    (account tokenAddress : address) (amount : Z) (slippagePct : Q)
    (v4PoolKey : option PoolKey) (w : World) :
  (amount <= 0 ->
   CompoundAndHarvest.swapToUsdc account tokenAddress amount slippagePct v4PoolKey w
   = mkRun (Ret (CompoundAndHarvest.mkSwapResult (Some 0) None None)) w [] []) /\
  (0 < amount -> tokenAddress = USDC ->
   CompoundAndHarvest.swapToUsdc account tokenAddress amount slippagePct v4PoolKey w
   = mkRun (Ret (CompoundAndHarvest.mkSwapResult (Some amount) None None)) w [] []) /\
  (0 < amount -> tokenAddress <> USDC -> tokenAddress <> WETH -> v4PoolKey = None ->
   CompoundAndHarvest.swapToUsdc account tokenAddress amount slippagePct v4PoolKey w
   = mkRun Throw w [] []).
Proof.
  rewrite swapToUsdc_unfold. split; [|split].
  - intros H. destruct (Z.leb_spec amount 0); [reflexivity | lia].
  - intros H ->. destruct (Z.leb_spec amount 0); [lia | reflexivity].
  - intros H Hu Hw ->. destruct (Z.leb_spec amount 0); [lia|].
    destruct (Z.eqb_spec tokenAddress USDC); [contradiction|].
    destruct (Z.eqb_spec tokenAddress WETH); [contradiction | reflexivity].
Qed.

(** ** The command line of clanker-harvest *)

Lemma indexOf_first pre x rest :
  ~ In x pre -> ClankerHarvest.indexOf (pre ++ x :: rest) x = Some (List.length pre).
Proof.
  induction pre as [|a pre IH]; intros H; cbn [app ClankerHarvest.indexOf List.length].
  - rewrite String.eqb_refl. reflexivity.
  - destruct (String.eqb_spec a x) as [->|_]; [destruct H; left; reflexivity|].
    rewrite IH by (intros K; apply H; right; exact K). reflexivity.
Qed.

Lemma indexOf_absent l x : ~ In x l -> ClankerHarvest.indexOf l x = None.
Proof.
  induction l as [|a l IH]; intros H; cbn [ClankerHarvest.indexOf]; [reflexivity|].
  destruct (String.eqb_spec a x) as [->|_]; [destruct H; left; reflexivity|].
  rewrite IH by (intros K; apply H; right; exact K). reflexivity.
Qed.

Lemma nth_error_after pre (x : string) rest :
  nth_error (pre ++ x :: rest) (S (List.length pre)) = nth_error rest 0.
Proof.
  induction pre as [|a pre IH]; [reflexivity|]. exact IH.
Qed.

Lemma hasFlag_in args name :
  ClankerHarvest.hasFlag args name = true <-> In ("--" ++ name)%string args.
Proof.
  unfold ClankerHarvest.hasFlag. rewrite existsb_exists. split.
  - intros (x & Hx & E). apply String.eqb_eq in E. subst x. exact Hx.
  - intros H. exists ("--" ++ name)%string. split; [exact H | apply String.eqb_refl].
Qed.

(** X27: getArg reads the word after the first occurrence of --name: an
    empty word, or none, gives the default, as does a command line without
    --name; the word is taken as it is, so that an option written directly
    before a flag takes the flag as its value, and hasFlag sees that flag
    all the same. *)
Theorem getArg_reads_after_first_flag
    (pre post : list string) (name other v : string) (def : option string) :
  ~ In ("--" ++ name)%string pre ->
  ClankerHarvest.getArg (pre ++ ("--" ++ name)%string :: v :: post) name def
    = (if String.eqb v "" then def else Some v) /\
  ClankerHarvest.getArg (pre ++ [("--" ++ name)%string]) name def = def /\
  ClankerHarvest.getArg pre name def = def /\
  ClankerHarvest.hasFlag pre name = false /\
  ClankerHarvest.getArg
    (pre ++ ("--" ++ name)%string :: ("--" ++ other)%string :: post) name def
    = Some ("--" ++ other)%string /\
  ClankerHarvest.hasFlag
    (pre ++ ("--" ++ name)%string :: ("--" ++ other)%string :: post) other = true.
Proof.
  intros H. repeat split.
  - unfold ClankerHarvest.getArg.
    rewrite indexOf_first, nth_error_after by exact H. reflexivity.
  - unfold ClankerHarvest.getArg.
    rewrite indexOf_first, nth_error_after by exact H. reflexivity.
  - unfold ClankerHarvest.getArg. rewrite indexOf_absent by exact H. reflexivity.
  - destruct (ClankerHarvest.hasFlag pre name) eqn:E; [|reflexivity].
    apply hasFlag_in in E. contradiction.
  - unfold ClankerHarvest.getArg.
    rewrite indexOf_first, nth_error_after by exact H. reflexivity.
  - apply hasFlag_in. apply in_or_app. right. right. left. reflexivity.
Qed.

(** ** Runs on the small chain *)

Import Toy.

(** C8: the percentage used by the split is meant to lie in [0,100], so that
    no compound amount exceeds its total and no harvest amount is negative.
    compound-and-harvest clamps it ([clampPct_in_range]); clanker-harvest
    does not: given --compound-pct 150 and 1000 wei of WETH fees it allots
    1500 wei to compounding and -500 wei to harvest, and asks the position
    manager for up to 1530 wei; given --compound-pct -50 it swaps 1500 wei. *)
Theorem clanker_compound_pct_unclamped :
  split 1000 150 = (1500, -500) /\
  out (runClanker (clanker (Some 150) 0 false) (startBelowRange 1000))
    = [LogSplitCompound 1500 0; LogCompounded] /\
  txs (runClanker (clanker (Some 150) 0 false) (startBelowRange 1000))
    = [Claim FEES WALLET WETH;
       ModifyLiquidities (DecreaseClose 1 0 0 0 WETH TOKEN WALLET);
       ModifyLiquidities (IncreaseSettle 1 24997 1530 0 WETH TOKEN)] /\
  split 1000 (-50) = (-500, 1500) /\
  txs (runClanker (clanker (Some (-50)) 0 false) (start 1000 0 0 0))
    = [Claim FEES WALLET WETH;
       ModifyLiquidities (DecreaseClose 1 0 0 0 WETH TOKEN WALLET);
       ExactInputSingle SWAP_ROUTER (mkExactInputSingle WETH USDC 500 WALLET 1500 0 0);
       Transfer USDC VAULT 4500].
Proof. vm_compute. repeat split; reflexivity. Qed.


(** C2: when the computed liquidity is not positive the compound step sends
    no increase-liquidity transaction, and its share is meant to go to the
    harvest so that the harvested amounts are the full totals.  The scripts
    send no such transaction, but harvest only the harvest share: with 1000
    wei of WETH fees, a 50% split and the price inside the range, the
    liquidity comes out 0, compound-and-harvest prints that it continues to
    harvest all fees, and both scripts swap 500 wei, not 1000. *)
Theorem compound_failure_harvests_share_only :
  CompoundAndHarvest.getLiquidityForAmounts Q96 76886731765546235930195592750
    81640896826356156310682304526 500 0 = Some 0 /\
  sqrtPriceAtTick (-600) = Some 76886731765546488761136709632 /\
  sqrtPriceAtTick 600 = Some 81640896826355879421667180544 /\
  CompoundAndHarvest.getLiquidityForAmounts Q96 76886731765546488761136709632
    81640896826355879421667180544 500 0 = Some 0 /\
  txs (runCompounder (compounder (Some 50%Q) false) (start 0 0 1000 0))
    = [ModifyLiquidities (DecreaseClose 1 0 0 0 WETH TOKEN WALLET);
       ExactInputSingle SWAP_ROUTER (mkExactInputSingle WETH USDC 500 WALLET 500 0 0);
       Transfer USDC VAULT 1500] /\
  filter (fun l => match l with LogFeesValue _ | LogSummary _ _ _ _ => false | _ => true end)
    (out (runCompounder (compounder (Some 50%Q) false) (start 0 0 1000 0)))
    = [LogSplitCompound 500 0; LogSplitHarvest 500 0; LogHarvestAllFees] /\
  txs (runClanker (clanker (Some 50) 0 false) (start 1000 0 0 0))
    = [Claim FEES WALLET WETH;
       ModifyLiquidities (DecreaseClose 1 0 0 0 WETH TOKEN WALLET);
       ExactInputSingle SWAP_ROUTER (mkExactInputSingle WETH USDC 500 WALLET 500 0 0);
       Transfer USDC VAULT 1500] /\
  out (runClanker (clanker (Some 50) 0 false) (start 1000 0 0 0))
    = [LogSplitCompound 500 0; LogSplitHarvest 500 0; LogLiquidityZero].
Proof. vm_compute. repeat split; reflexivity. Qed.

(** Conversions land on the doubles the literals denote: 0.1, 1.0001,
    ties going to the even neighbour, and 0.003333333333333333. *)
Lemma nearest_doubles :
  Number.nearest 1 10 = 0x1.999999999999ap-4%float /\
  Number.nearest 10001 10000 = 0x1.00068db8bac71p+0%float /\
  Number.nearest (2 ^ 53 + 1) 1 = 0x1p+53%float /\
  Number.nearest (2 ^ 53 + 3) 1 = 0x1.0000000000002p+53%float /\
  etherToNumber 3333333333333333 = 0x1.b4e81b4e81b4ep-9%float /\
  Number.floorToBigInt (-0x1p-1)%float = Some (-1) /\
  Number.floorToBigInt infinity = None /\
  Number.floorToBigInt nan = None.
Proof. vm_compute. repeat split; reflexivity. Qed.

(** The threshold is decided on doubles.  3333333333333333 wei at the
    fallback price come to 9 exactly, so that with a minimum of 9 the run
    goes on to the split; 0.35 WETH come to less than 945, so that with a
    minimum of 945 the run stops below the threshold, before the percentage
    is looked at. *)
Lemma threshold_on_doubles :
  ClankerHarvest.usdValue (clanker (Some 50) 9 false) noFeed 3333333333333333 0 = 9%float /\
  (exists r,
     outcome (runClanker (clanker (Some 50) 9 false) (start 3333333333333333 0 0 0)) = Ret r /\
     ClankerHarvest.belowThreshold r = false /\
     ClankerHarvest.totalUsd r = 9%float) /\
  ClankerHarvest.usdValue (clanker None 945 false) noFeed 350000000000000000 0
  = 0x1.d87ffffffffffp+9%float /\
  (exists r,
     outcome (runClanker (clanker None 945 false) (start 350000000000000000 0 0 0)) = Ret r /\
     ClankerHarvest.belowThreshold r = true).
Proof.
  split; [vm_compute; reflexivity|].
  split; [eexists; vm_compute; repeat split; reflexivity|].
  split; [vm_compute; reflexivity|].
  eexists; vm_compute; repeat split; reflexivity.
Qed.

(** The slippage multiplier is floored on doubles: --slippage 14.04 gives
    12807, not 12808, and the default of 1 gives 10200. *)
Lemma slippage_multiplier_on_doubles :
  ClankerHarvest.slippageMul
    (ClankerHarvest.mkConfig TOKEN (Some 1) (Some VAULT) (Some 50) 0
       (Number.nearest 1404 100) FEES false false false) = Some 12807 /\
  ClankerHarvest.slippageMul (clanker (Some 50) 0 false) = Some 10200.
Proof. vm_compute. split; reflexivity. Qed.

(** The tick prices of compound-and-harvest are doubles floored: they
    differ from the integer ones of clanker-harvest, and a tick whose power
    overflows raises. *)
Lemma tick_prices_on_doubles :
  sqrtPriceAtTick 0 = Some Q96 /\
  sqrtPriceAtTick 887272 = Some 1461446703478070281035530027706464741740609798144 /\
  sqrtPriceAtTick 8388607 = None /\
  sqrtPriceAtTick (-8388608) = Some 0 /\
  ClankerHarvest.tickToSqrtPriceX96 600 = Some 81640896826356156310682304526 /\
  ClankerHarvest.tickToSqrtPriceX96 (-600) = Some 76886731765546235930195592750.
Proof. vm_compute. repeat split; reflexivity. Qed.

(** C3 as stated fails: with a minimum of 10 USD and fees worth less, a live
    run of clanker-harvest has already sent the claim and the collection when
    it finds the total below the threshold. *)
Lemma threshold_gate_counterexample :
  exists result,
    outcome (runClanker (clanker (Some 50) 10 false) (start 1000 0 0 0)) = Ret result /\
    ClankerHarvest.belowThreshold result = true /\
    (0 <? ClankerHarvest.minUsd (clanker (Some 50%Z) 10 false))%float = true /\
    (ClankerHarvest.totalUsd result
       <? ClankerHarvest.minUsd (clanker (Some 50%Z) 10 false))%float = true /\
    txs (runClanker (clanker (Some 50) 10 false) (start 1000 0 0 0))
      = [Claim FEES WALLET WETH;
         ModifyLiquidities (DecreaseClose 1 0 0 0 WETH TOKEN WALLET)] /\
    txs (runClanker (clanker (Some 50) 10 false) (start 1000 0 0 0)) <> [].
Proof.
  eexists. split; [vm_compute; reflexivity|].
  split; [reflexivity|]. split; [reflexivity|]. split; [reflexivity|].
  split; [vm_compute; reflexivity|]. vm_compute. discriminate.
Qed.

Lemma threshold_gates_later_steps_witness :
  ClankerHarvest.main (clanker (Some 50) 10 false) WALLET noFeed (start 1000 0 0 0)
  = mkRun
      (Ret (ClankerHarvest.mkResult
              (ClankerHarvest.usdValue (clanker (Some 50) 10 false) noFeed 1000 0)
              (Some 0) 0%float true))
      (world (ClankerHarvest.feesPhase (clanker (Some 50) 10 false) WALLET (start 1000 0 0 0)))
      (txs (ClankerHarvest.feesPhase (clanker (Some 50) 10 false) WALLET (start 1000 0 0 0)))
      (out (ClankerHarvest.feesPhase (clanker (Some 50) 10 false) WALLET (start 1000 0 0 0))
       ++ [LogBelowThreshold]) /\
  Forall gathersFees
    (txs (ClankerHarvest.main (clanker (Some 50) 10 false) WALLET noFeed (start 1000 0 0 0))).
Proof.
  apply (threshold_gates_later_steps (chain := Toy.chain) (clanker (Some 50) 10 false)
           WALLET noFeed (start 1000 0 0 0) (Some poolKey) 1000 0);
    vm_compute; reflexivity.
Defined.

(** C4 as stated fails: with 100 wei of WETH waiting in the fee contract and
    50 wei in the position, the dry run splits 100 and the live run 150. *)
Lemma dry_run_figures_counterexample :
  filter isSplitLine (out (runClanker (clanker (Some 50) 0 true) (start 100 0 50 0)))
    = [LogSplitCompound 50 0; LogSplitHarvest 50 0] /\
  filter isSplitLine (out (runClanker (clanker (Some 50) 0 false) (start 100 0 50 0)))
    = [LogSplitCompound 75 0; LogSplitHarvest 75 0] /\
  filter isSplitLine (out (runClanker (clanker (Some 50) 0 true) (start 100 0 50 0)))
    <> filter isSplitLine (out (runClanker (clanker (Some 50) 0 false) (start 100 0 50 0))).
Proof.
  vm_compute. repeat split; try reflexivity. discriminate.
Qed.

Lemma dry_run_sends_nothing_witness :
  txs (ClankerHarvest.main (clanker (Some 50) 0 true) WALLET noFeed (start 100 0 50 0)) = [] /\
  txs (CompoundAndHarvest.main (compounder (Some 50%Q) true) WALLET noFeed
         sqrtPriceAtTick (fun _ => 18) (start 100 0 50 0)) = [].
Proof.
  destruct (dry_run_sends_nothing (chain := Toy.chain) (clanker (Some 50) 0 true)
              (compounder (Some 50%Q) true) WALLET noFeed
              sqrtPriceAtTick (fun _ => 18) (start 100 0 50 0))
    as (H & _ & K).
  destruct (H eq_refl) as [T _]. destruct (K eq_refl) as [U _].
  split; [exact T | exact U].
Defined.


Lemma indirect_swap_witness :
  let leg := CompoundAndHarvest.swapViaV4ToWeth WALLET TOKEN 400 poolKey (start 0 0 0 0) in
  let gained := balanceOf (world leg) WETH WALLET - balanceOf (start 0 0 0 0) WETH WALLET in
  let r := CompoundAndHarvest.swapToUsdc WALLET TOKEN 400 1 (Some poolKey) (start 0 0 0 0) in
  gained = 800 /\
  txs r = txs leg ++
          txs (CompoundAndHarvest.swapToUsdc WALLET WETH gained 1 None (world leg)).
Proof.
  intros leg gained r.
  destruct (indirect_swap_feeds_measured_delta (chain := Toy.chain) WALLET TOKEN 400 1
              poolKey (start 0 0 0 0)) as [H _];
    [reflexivity | discriminate | discriminate |].
  assert (L : outcome leg = Ret (Execute (mkV4Swap poolKey false 400 0 0)))
    by (vm_compute; reflexivity).
  destruct (H _ L) as (_ & _ & G & _).
  assert (P : 0 < gained) by (vm_compute; reflexivity).
  destruct (G P) as [T _].
  split; [vm_compute; reflexivity | exact T].
Defined.

Lemma clanker_config_disables_steps_witness :
  Forall (fun t => isIncrease t = false)
    (txs (ClankerHarvest.main (clanker (Some 0) 0 false) WALLET noFeed (start 1000 0 0 0))) /\
  Forall (fun t => isHarvestTx t = false)
    (txs (ClankerHarvest.main (clanker (Some 100) 0 false) WALLET noFeed (start 1000 0 0 0))).
Proof.
  destruct (clanker_config_disables_steps (chain := Toy.chain) (clanker (Some 0) 0 false)
              WALLET noFeed (start 1000 0 0 0)) as [H _].
  destruct (clanker_config_disables_steps (chain := Toy.chain) (clanker (Some 100) 0 false)
              WALLET noFeed (start 1000 0 0 0)) as [_ K].
  split; [apply H | apply K]; right; right.
  - exists 0. split; [reflexivity | lia].
  - exists 100. split; [reflexivity | lia].
Defined.

Lemma clanker_nothing_to_process_witness :
  ClankerHarvest.main (clanker (Some 50) 10 false) WALLET noFeed (start 0 0 0 0)
  = mkRun (Ret (ClankerHarvest.mkResult 0%float (Some 0) 0%float false))
      (world (ClankerHarvest.feesPhase (clanker (Some 50) 10 false) WALLET (start 0 0 0 0)))
      (txs (ClankerHarvest.feesPhase (clanker (Some 50) 10 false) WALLET (start 0 0 0 0)))
      (out (ClankerHarvest.feesPhase (clanker (Some 50) 10 false) WALLET (start 0 0 0 0))
       ++ [LogNothingToProcess]) /\
  ClankerHarvest.main
    (ClankerHarvest.mkConfig TOKEN (Some 1) (Some VAULT) (Some 50) 0 1 FEES false true true)
    WALLET noFeed (start 1000 0 50 0)
  = mkRun (Ret (ClankerHarvest.mkResult 0%float (Some 0) 0%float false))
      (start 1000 0 50 0) [] [LogNothingToProcess].
Proof.
  destruct (clanker_nothing_to_process (chain := Toy.chain) (clanker (Some 50) 10 false)
              WALLET noFeed (start 0 0 0 0) (Some poolKey)) as [H _].
  destruct (clanker_nothing_to_process (chain := Toy.chain)
              (ClankerHarvest.mkConfig TOKEN (Some 1) (Some VAULT) (Some 50) 0 1 FEES
                 false true true)
              WALLET noFeed (start 1000 0 50 0) None) as [_ K].
  split.
  - apply H. vm_compute. reflexivity.
  - apply K; [reflexivity | left; reflexivity].
Defined.

Lemma clanker_nan_percentage_raises_late_witness :
  ClankerHarvest.main (clanker None 0 false) WALLET noFeed (start 1000 0 0 0)
  = mkRun Throw
      (world (ClankerHarvest.feesPhase (clanker None 0 false) WALLET (start 1000 0 0 0)))
      (txs (ClankerHarvest.feesPhase (clanker None 0 false) WALLET (start 1000 0 0 0)))
      (out (ClankerHarvest.feesPhase (clanker None 0 false) WALLET (start 1000 0 0 0))).
Proof.
  apply (clanker_nan_percentage_raises_late (chain := Toy.chain) (clanker None 0 false)
           WALLET noFeed (start 1000 0 0 0) (Some poolKey) 1000 0);
    vm_compute; reflexivity.
Defined.

Lemma compound_checks_before_sending_witness :
  CompoundAndHarvest.main (compounder (Some 50%Q) false) VAULT noFeed
    sqrtPriceAtTick (fun _ => 18) (start 0 0 1000 0)
  = mkRun (Exit 1) (start 0 0 1000 0) [] [] /\
  CompoundAndHarvest.main (chain := Stalled.chain) (compounder (Some 50%Q) false) WALLET
    noFeed sqrtPriceAtTick (fun _ => 18) (Stalled.mkState 0 (Mined true))
  = mkRun (chain := Stalled.chain) (Exit 0) (Stalled.mkState 0 (Mined true)) [] [].
Proof.
  destruct (compound_checks_before_sending (chain := Toy.chain) (compounder (Some 50%Q) false)
              VAULT noFeed sqrtPriceAtTick (fun _ => 18) (start 0 0 1000 0))
    as [H _].
  destruct (compound_checks_before_sending (chain := Stalled.chain)
              (compounder (Some 50%Q) false) WALLET noFeed
              sqrtPriceAtTick (fun _ => 18) (Stalled.mkState 0 (Mined true)))
    as [_ K].
  split.
  - apply H. vm_compute. discriminate.
  - apply K; vm_compute; reflexivity.
Defined.

Lemma compound_collection_failure_stops_witness :
  CompoundAndHarvest.main (chain := Stalled.chain) (compounder (Some 50%Q) false) WALLET
    noFeed sqrtPriceAtTick (fun _ => 18) (Stalled.mkState 7 (Mined false))
  = mkRun (chain := Stalled.chain) (Exit 1) (Stalled.mkState 7 (Mined false))
      [ModifyLiquidities (DecreaseClose 1 0 0 0 WETH TOKEN WALLET)] [] /\
  CompoundAndHarvest.main (chain := Stalled.chain) (compounder (Some 50%Q) false) WALLET
    noFeed sqrtPriceAtTick (fun _ => 18) (Stalled.mkState 7 Rejected)
  = mkRun (chain := Stalled.chain) Throw (Stalled.mkState 7 Rejected)
      [ModifyLiquidities (DecreaseClose 1 0 0 0 WETH TOKEN WALLET)] [] /\
  CompoundAndHarvest.main (chain := Stalled.chain) (compounder (Some 50%Q) false) WALLET
    noFeed sqrtPriceAtTick (fun _ => 18) (Stalled.mkState 7 (Mined true))
  = mkRun (chain := Stalled.chain) (Exit 0) (Stalled.mkState 7 (Mined true))
      [ModifyLiquidities (DecreaseClose 1 0 0 0 WETH TOKEN WALLET)] [].
Proof.
  destruct (compound_collection_failure_stops (chain := Stalled.chain)
              (compounder (Some 50%Q) false) WALLET noFeed
              sqrtPriceAtTick (fun _ => 18)
              (Stalled.mkState 7 (Mined false)) (Stalled.mkState 7 (Mined false))
              eq_refl ltac:(discriminate) eq_refl) as [H _].
  destruct (compound_collection_failure_stops (chain := Stalled.chain)
              (compounder (Some 50%Q) false) WALLET noFeed
              sqrtPriceAtTick (fun _ => 18)
              (Stalled.mkState 7 Rejected) (Stalled.mkState 7 Rejected)
              eq_refl ltac:(discriminate) eq_refl) as (_ & K & _).
  destruct (compound_collection_failure_stops (chain := Stalled.chain)
              (compounder (Some 50%Q) false) WALLET noFeed
              sqrtPriceAtTick (fun _ => 18)
              (Stalled.mkState 7 (Mined true)) (Stalled.mkState 7 (Mined true))
              eq_refl ltac:(discriminate) eq_refl) as (_ & _ & L).
  split; [|split].
  - apply H. reflexivity.
  - apply K. reflexivity.
  - apply L; [reflexivity | vm_compute; discriminate | vm_compute; discriminate].
Defined.

Lemma compound_percentage_extremes_witness :
  (BigInt.ofNumber (CompoundAndHarvest.compoundPct (compounder (Some 150%Q) false)) = Some 100 /\
   Forall (fun t => isHarvestTx t = false)
     (txs (CompoundAndHarvest.main (compounder (Some 150%Q) false) WALLET noFeed
             sqrtPriceAtTick (fun _ => 18) (start 0 0 1000 0)))) /\
  (BigInt.ofNumber (CompoundAndHarvest.compoundPct (compounder (Some (-5)%Q) false)) = Some 0 /\
   Forall (fun t => isIncrease t = false)
     (txs (CompoundAndHarvest.main (compounder (Some (-5)%Q) false) WALLET noFeed
             sqrtPriceAtTick (fun _ => 18) (start 0 0 1000 0)))).
Proof.
  destruct (compound_percentage_extremes (chain := Toy.chain) (compounder (Some 150%Q) false)
              WALLET noFeed sqrtPriceAtTick (fun _ => 18) 150%Q
              (start 0 0 1000 0) eq_refl) as [H _].
  destruct (compound_percentage_extremes (chain := Toy.chain) (compounder (Some (-5)%Q) false)
              WALLET noFeed sqrtPriceAtTick (fun _ => 18) (-5)%Q
              (start 0 0 1000 0) eq_refl) as [_ K].
  split; [apply H | apply K]; vm_compute; discriminate.
Defined.

Lemma swap_failures_are_contained_witness :
  txs (CompoundAndHarvest.swapPhase (compounder (Some 50%Q) false) WALLET poolKey 100 200
         (start 0 0 0 0))
  = txs (CompoundAndHarvest.swapToUsdc WALLET (currency0 poolKey) 100
           (CompoundAndHarvest.slippage (compounder (Some 50%Q) false)) (Some poolKey)
           (start 0 0 0 0))
    ++ txs (CompoundAndHarvest.swapToUsdc WALLET (currency1 poolKey) 200
              (CompoundAndHarvest.slippage (compounder (Some 50%Q) false)) (Some poolKey)
              (world (CompoundAndHarvest.swapToUsdc WALLET (currency0 poolKey) 100
                        (CompoundAndHarvest.slippage (compounder (Some 50%Q) false))
                        (Some poolKey) (start 0 0 0 0)))).
Proof.
  destruct (swap_failures_are_contained (chain := Toy.chain) (compounder (Some 50%Q) false)
              WALLET poolKey 100 200 (start 0 0 0 0)) as (_ & _ & H).
  apply H; lia.
Defined.

Lemma clanker_tick_price_total_witness :
  (exists r, ClankerHarvest.tickToSqrtPriceX96 600 = Some r /\ Q96 <= r) /\
  (exists r, ClankerHarvest.tickToSqrtPriceX96 (-600) = Some r /\ r <= Q96).
Proof.
  destruct (clanker_tick_price_total 600) as (r & E & _ & _ & H).
  destruct (clanker_tick_price_total (-600)) as (r' & E' & _ & H' & _).
  split.
  - exists r. split; [exact E | apply H; lia].
  - exists r'. split; [exact E' | apply H'; lia].
Defined.

Lemma clanker_tick_price_ignores_high_bits_witness :
  ClankerHarvest.tickToSqrtPriceX96 (600 + 1 * 2 ^ 20) = ClankerHarvest.tickToSqrtPriceX96 600 /\
  ClankerHarvest.tickToSqrtPriceX96 (- (600 + 1 * 2 ^ 20))
  = ClankerHarvest.tickToSqrtPriceX96 (- 600).
Proof. apply clanker_tick_price_ignores_high_bits; lia. Defined.

Lemma tick_ranges_are_ordered_int24_witness :
  fst (ClankerHarvest.tickRange packedInfo) <= snd (ClankerHarvest.tickRange packedInfo) /\
  - 2 ^ 23 <= fst (ClankerHarvest.tickRange packedInfo) /\
  snd (ClankerHarvest.tickRange packedInfo) < 2 ^ 23.
Proof.
  destruct (tick_ranges_are_ordered_int24 packedInfo) as [H _].
  apply H. split; [vm_compute; discriminate | vm_compute; reflexivity].
Defined.

Lemma tick_ranges_depend_on_bits_witness :
  ClankerHarvest.tickRange packedInfo = ClankerHarvest.tickRange (packedInfo + 1) /\
  ClankerHarvest.tickRange 5 = (0, 0) /\
  CompoundAndHarvest.tickRange packedInfo = CompoundAndHarvest.tickRange (packedInfo + 1).
Proof.
  destruct (tick_ranges_depend_on_bits packedInfo (packedInfo + 1)) as (H & _ & K).
  destruct (tick_ranges_depend_on_bits 5 5) as (_ & Z5 & _).
  split.
  - apply H; [split; [vm_compute; discriminate | vm_compute; reflexivity] ..
             | vm_compute; reflexivity].
  - split; [apply Z5; lia|]. apply K. vm_compute. reflexivity.
Defined.

Lemma one_sided_amounts_in_range_give_zero_witness :
  CompoundAndHarvest.getLiquidityForAmounts 150 100 200 70 0 = Some 0 /\
  CompoundAndHarvest.getLiquidityForAmounts 150 100 200 0 70 = Some 0 /\
  ClankerHarvest.liquidityForAmounts 150 100 200 70 0 = Some 0 /\
  ClankerHarvest.liquidityForAmounts 150 100 200 0 70 = Some 0.
Proof. apply one_sided_amounts_in_range_give_zero; lia. Defined.

Lemma liquidity_rounding_order_witness :
  exists l l',
    CompoundAndHarvest.getLiquidityForAmounts 150 100 200 70 30 = Some l /\
    ClankerHarvest.liquidityForAmounts 150 100 200 70 30 = Some l' /\
    0 <= l <= l'.
Proof. apply liquidity_rounding_order; lia. Defined.

Lemma clanker_retry_witness :
  ClankerHarvest.retry
    (fun i => if (i <? 2)%nat then Threw tt else Returned 7) 3
  = (Gave (Some 7), repeat 2000 2).
Proof.
  destruct (clanker_retry_gives_first_success_or_last_error
              (fun i => if (i <? 2)%nat then Threw tt else Returned 7) 3 2) as [_ H].
  destruct H as [R _].
  - lia.
  - intros j Hj. exists tt. destruct j as [|[|j]]; [reflexivity | reflexivity | lia].
  - apply R. reflexivity.
Defined.

Lemma compound_retry_witness :
  CompoundAndHarvest.retry
    (fun i => if (i <? 2)%nat then Threw (Some "HTTP 429 Too Many Requests"%string)
              else Returned 7) 4 2000
  = (Gave (Some 7), doubling 2000 2).
Proof.
  destruct (compound_retry_backs_off_on_rate_limits
              (fun i => if (i <? 2)%nat then Threw (Some "HTTP 429 Too Many Requests"%string)
                        else Returned 7) 4 2 2000) as (_ & R & _).
  - lia.
  - intros j Hj. exists (Some "HTTP 429 Too Many Requests"%string).
    split; [|vm_compute; reflexivity].
    destruct j as [|[|j]]; [reflexivity | reflexivity | lia].
  - apply R. reflexivity.
Defined.


Lemma compound_returns_only_after_payment_witness :
  paidAndReported (CompoundAndHarvest.harvestAddress (compounder (Some 50%Q) false))
    (txs (CompoundAndHarvest.main (compounder (Some 50%Q) false) WALLET noFeed
            sqrtPriceAtTick (fun _ => 18) (start 0 0 1000 0)))
    (out (CompoundAndHarvest.main (compounder (Some 50%Q) false) WALLET noFeed
            sqrtPriceAtTick (fun _ => 18) (start 0 0 1000 0))).
Proof.
  apply (compound_returns_only_after_payment (chain := Toy.chain)
           (compounder (Some 50%Q) false) WALLET noFeed sqrtPriceAtTick
           (fun _ => 18) (start 0 0 1000 0) tt).
  vm_compute. reflexivity.
Defined.

Lemma compound_step_failure_handling_witness :
  outcome (chain := Stalled.chain)
    ((CompoundAndHarvest.compoundPhase (chain := Stalled.chain)
        (compounder (Some 50%Q) false) WALLET sqrtPriceAtTick poolKey
        500000 0 Q96 600 1200 ;;;
      CompoundAndHarvest.harvestPhase (chain := Stalled.chain)
        (compounder (Some 50%Q) false) WALLET poolKey 0%float 500000 0 500000 0)
       (Stalled.mkState 7 Rejected))
  = Throw.
Proof.
  destruct (compound_step_failure_handling (chain := Stalled.chain)
              (clanker (Some 50) 0 false) (compounder (Some 50%Q) false) WALLET
              sqrtPriceAtTick (Some poolKey) poolKey 0%float 500000 0 500000 0 Q96 600 1200
              (Stalled.mkState 7 Rejected)) as [_ H].
  destruct H as (T & _ & _); [reflexivity | vm_compute; reflexivity | exact T].
Defined.

Lemma swapToUsdc_edge_cases_witness :
  CompoundAndHarvest.swapToUsdc WALLET TOKEN 0 1 (Some poolKey) (start 0 0 0 0)
  = mkRun (Ret (CompoundAndHarvest.mkSwapResult (Some 0) None None)) (start 0 0 0 0) [] [] /\
  CompoundAndHarvest.swapToUsdc WALLET USDC 25 1 None (start 0 0 0 0)
  = mkRun (Ret (CompoundAndHarvest.mkSwapResult (Some 25) None None)) (start 0 0 0 0) [] [] /\
  CompoundAndHarvest.swapToUsdc WALLET TOKEN 25 1 None (start 0 0 0 0)
  = mkRun Throw (start 0 0 0 0) [] [].
Proof.
  destruct (swapToUsdc_edge_cases (chain := Toy.chain) WALLET TOKEN 0 1 (Some poolKey)
              (start 0 0 0 0)) as (A & _ & _).
  destruct (swapToUsdc_edge_cases (chain := Toy.chain) WALLET USDC 25 1 None
              (start 0 0 0 0)) as (_ & B & _).
  destruct (swapToUsdc_edge_cases (chain := Toy.chain) WALLET TOKEN 25 1 None
              (start 0 0 0 0)) as (_ & _ & C).
  split; [apply A; lia|]. split; [apply B; [lia | reflexivity]|].
  apply C; [lia | vm_compute; discriminate | vm_compute; discriminate | reflexivity].
Defined.

Lemma getArg_reads_after_first_flag_witness :
  ClankerHarvest.getArg
    (["--dry-run"%string] ++ ("--" ++ "token")%string :: "0xabc"%string :: []) "token" None
  = (if String.eqb "0xabc" "" then None else Some "0xabc"%string).
Proof.
  destruct (getArg_reads_after_first_flag ["--dry-run"%string] [] "token" "dry-run" "0xabc"
              None) as [H _].
  - intros [K | []]. discriminate K.
  - exact H.
Defined.
